(** * maim_message: connection registry, routing and reconnect logic

    A shallow embedding of the WebSocket transport of [maim_message]:

    - [Server]: the business-layer registry of [server_ws_api.py]
      ([WebSocketServer]): connect / disconnect bookkeeping, send-by-identity,
      custom sends and [stop].
    - [WsConfig]: the configurations of [ws_config.py] ([ClientConfig],
      [ServerConfig]): validation, defaults and the custom handlers.
    - [Client]: the network driver of [client_ws_connection.py]
      ([ConnectionConfig], [ClientNetworkDriver]) and the target resolution of
      [client_ws_api.py] ([WebSocketClient._find_connection_for_target]).
    - [Control]: the driver's [connect], [disconnect], [remove_connection],
      [start] and [stop].
    - [Api]: the client's dispatcher and send operations of
      [client_ws_api.py] ([WebSocketClient]).

    Python dictionaries are finite maps ([gmap]), sets are [gset]; a dictionary
    whose iteration order is observable is an association list.  Python floats
    are the kernel's binary64 floats.  Callbacks supplied by the application and
    the answers of the network are section variables or explicit inputs. *)

From Stdlib Require Import ZArith Ascii String List Floats.PrimFloat.
From stdpp Require Import gmap strings list fin_maps.

Set Warnings "-clear-no-such-hyp,-register-all".
Open Scope string_scope.
Open Scope list_scope.

(** ** Python results: a value or a raised exception *)

Inductive py_result (A : Type) : Type :=
  | Ok (a : A)
  | Raise (exn : string).
Arguments Ok {A} a.
Arguments Raise {A} exn.

(** Truth value of a Python [str]: only the empty string is falsy. *)
Definition str_truthy (s : string) : bool := negb (String.eqb s "").

(** [coll.discard(c)] followed by [if not coll: del m[k]], the idiom the
    disconnect handler uses on every index it maintains. *)
Definition discard_prune (k c : string) (m : gmap string (gset string))
  : gmap string (gset string) :=
  match m !! k with
  | Some s =>
      let s' := s ∖ {[c]} in
      if decide (s' = ∅) then delete k m else <[k := s']> m
  | None => m
  end.

(** [m.setdefault(k, set()).add(c)], the idiom of the connect handler. *)
Definition add_to (k c : string) (m : gmap string (gset string))
  : gmap string (gset string) :=
  <[k := {[c]} ∪ default ∅ (m !! k)]> m.

(** Membership in the set stored under a key, absent keys holding nothing. *)
Definition holds (m : gmap string (gset string)) (k c : string) : Prop :=
  ∃ s, m !! k = Some s ∧ c ∈ s.

Definition no_empty_sets (m : gmap string (gset string)) : Prop :=
  ∀ k s, m !! k = Some s → s ≠ ∅.


(** ** JSON values, as [json.loads] builds them *)

Inductive json :=
  | JNull
  | JBool (b : bool)
  | JInt (z : Z)
  | JFloat (f : float)
  | JStr (s : string)
  | JList (items : list json)
  | JDict (items : list (string * json)).

(** What [json.loads] does with a text: it returns a value, raises
    [JSONDecodeError], or raises another exception ([RecursionError] on a
    text nested too deeply, a plain [ValueError] on an integer of more
    digits than the interpreter converts). *)
Inductive Loaded :=
  | loaded (v : json)
  | not_json
  | loads_raises (e : string).

(** Truth value of a decoded JSON value ([if msg_id]). *)
Definition truthy (v : json) : bool :=
  match v with
  | JNull => false
  | JBool b => b
  | JInt z => negb (Z.eqb z 0)
  | JFloat f => negb (PrimFloat.eqb f 0%float)
  | JStr s => str_truthy s
  | JList items => match items with [] => false | _ => true end
  | JDict items => match items with [] => false | _ => true end
  end.

(** [d.get(key)] on the items of a dictionary. *)
Fixpoint dict_get (key : string) (items : list (string * json)) : option json :=
  match items with
  | [] => None
  | (k, v) :: rest => if String.eqb k key then Some v else dict_get key rest
  end.

(** [d.get(key) != text] *)
Definition differs_from (text : string) (v : option json) : bool :=
  match v with
  | Some (JStr s) => negb (String.eqb s text)
  | _ => true
  end.

(** ** Header dictionaries

    A header [dict] is a mutable object that several configurations may
    share; the store maps a reference to the current contents of the
    dictionary it denotes. *)

Abbreviation ref := nat.
Abbreviation store := (gmap nat (gmap string string)).

(** [if key not in d: d[key] = value] *)
Definition set_default (key value : string) (d : gmap string string)
  : gmap string string :=
  match d !! key with
  | Some _ => d
  | None => <[key := value]> d
  end.

(** ** Python's [min(a, b)] on floats: [b] if [b < a], else [a]. *)
Definition py_min (a b : float) : float :=
  if PrimFloat.ltb b a then b else a.

(** How long [asyncio.wait_for(asyncio.sleep(delay), timeout)] suspends its
    caller, scheduling latency apart: a sleep of at most zero seconds
    returns at once, and a sleep longer than the timeout is cut short by
    the [TimeoutError] that the caller catches. *)
Definition suspended_for (delay timeout : float) : float :=
  if PrimFloat.leb delay 0%float then 0%float
  else if PrimFloat.ltb timeout delay then timeout
  else delay.
(** ** The server business layer ([server_ws_api.py]) *)

Module Server.

(** Identity of an accepted connection, extracted from the handshake by the
    server network driver ([event.metadata]). *)
Record ConnectionMetadata := mkMeta {
  uuid : string;
  api_key : string;
  platform : string
}.

(** Modelled from the spec: [ConnectionMetadata.to_dict] lives in
    [server_ws_connection.py], which is not part of the sources at hand.
    The handshake metadata is the identity triple [x-uuid], [x-apikey],
    [x-platform]; the callbacks of [ws_config.py] read it back under the
    keys [api_key] and [platform]. *)
Definition to_dict (md : ConnectionMetadata) : gmap string string :=
  <["uuid" := uuid md]> (<["api_key" := api_key md]>
    (<["platform" := platform md]> ∅)).

Inductive EventType := CONNECT | DISCONNECT | MESSAGE.

Record NetworkEvent := mkEvent {
  event_type : EventType;
  metadata : ConnectionMetadata
}.

(** [self.stats] *)
Record Stats := mkStats {
  total_auth_requests : nat;
  successful_auths : nat;
  failed_auths : nat;
  messages_processed : nat;
  current_users : nat;
  current_connections : nat
}.

(** Calls made on [self.network_driver]. *)
Inductive DriverCall :=
  | disconnect_client (connection_uuid : string)
  | driver_send (connection_uuid : string)
  | driver_stop.

(** [WebSocketServer]: the four registry tables of [__init__], the
    [running] flag, the statistics and the calls issued so far. *)
Record WebSocketServer := mkServer {
  user_connections : gmap string (gmap string (gset string));
  platform_connections : gmap string (gset string);
  connection_users : gmap string string;
  connection_metadata : gmap string (gmap string string);
  running : bool;
  stats : Stats;
  driver_calls : list DriverCall
}.

(** State built by [__init__]. *)
Definition init : WebSocketServer :=
  {| user_connections := ∅; platform_connections := ∅;
     connection_users := ∅; connection_metadata := ∅;
     running := false;
     stats := mkStats 0 0 0 0 0 0;
     driver_calls := [] |}.

Record AuthResult := mkAuth {
  success : bool;
  user_id : option string
}.

(** Modelled from the spec: [APIMessageBase] is defined in [message.py],
    which is not part of the sources at hand; it is an opaque routable
    payload whose [get_api_key()] and [get_platform()] give the target
    identity. *)
Record APIMessageBase := mkMessage {
  get_api_key : string;
  get_platform : string
}.

(** The values [send_custom_message] computes its targets from: a [set] of
    connection ids, or a [dict] from platform to such a set. *)
Inductive py_coll :=
  | PySet (s : gset string)
  | PyDict (d : gmap string (gset string)).

(** [a & b]: defined between two sets only; a [dict] operand raises
    [TypeError]. *)
Definition py_and (a b : py_coll) : py_result py_coll :=
  match a, b with
  | PySet x, PySet y => Ok (PySet (x ∩ y))
  | _, _ => Raise "TypeError"
  end.

(** [for x in coll]: the elements of a set, the keys of a dict. *)
Definition py_iter (a : py_coll) : list string :=
  match a with
  | PySet s => elements s
  | PyDict d => (map_to_list d).*1
  end.

(** Truth value of an [Optional[str]] argument. *)
Definition opt_truthy (o : option string) : option string :=
  match o with
  | Some s => if str_truthy s then Some s else None
  | None => None
  end.

Section Callbacks.

(** [config.on_auth] and [config.on_auth_extract_user]; [Raise] is an
    exception escaping the callback. *)
Variable on_auth : gmap string string → py_result bool.
Variable on_auth_extract_user : gmap string string → py_result string.

(** Answer of [network_driver.send_message] for a connection. *)
Variable net_send : string → bool.

Definition with_stats (f : Stats → Stats) (srv : WebSocketServer) :=
  {| user_connections := user_connections srv;
     platform_connections := platform_connections srv;
     connection_users := connection_users srv;
     connection_metadata := connection_metadata srv;
     running := running srv;
     stats := f (stats srv);
     driver_calls := driver_calls srv |}.

Definition call_driver (c : DriverCall) (srv : WebSocketServer) :=
  {| user_connections := user_connections srv;
     platform_connections := platform_connections srv;
     connection_users := connection_users srv;
     connection_metadata := connection_metadata srv;
     running := running srv;
     stats := stats srv;
     driver_calls := driver_calls srv ++ [c] |}.

Definition count_request (s : Stats) : Stats :=
  mkStats (S (total_auth_requests s)) (successful_auths s) (failed_auths s)
          (messages_processed s) (current_users s) (current_connections s).
Definition count_failure (s : Stats) : Stats :=
  mkStats (total_auth_requests s) (successful_auths s) (S (failed_auths s))
          (messages_processed s) (current_users s) (current_connections s).
Definition count_success (s : Stats) : Stats :=
  mkStats (total_auth_requests s) (S (successful_auths s)) (failed_auths s)
          (messages_processed s) (current_users s) (current_connections s).
Definition count_message (s : Stats) : Stats :=
  mkStats (total_auth_requests s) (successful_auths s) (failed_auths s)
          (S (messages_processed s)) (current_users s) (current_connections s).

(** The user a handshake authenticates as, if any: [on_auth] must answer
    true and [on_auth_extract_user] a non-empty id, neither raising. *)
Definition auth_user (md : gmap string string) : option string :=
  match on_auth md with
  | Ok true =>
      match on_auth_extract_user md with
      | Ok u => if str_truthy u then Some u else None
      | Raise _ => None
      end
  | _ => None
  end.

(** [_authenticate_connection] *)
Definition _authenticate_connection (srv : WebSocketServer)
    (md : gmap string string) : WebSocketServer * AuthResult :=
  let srv := with_stats count_request srv in
  match auth_user md with
  | Some u => (with_stats count_success srv, mkAuth true (Some u))
  | None => (with_stats count_failure srv, mkAuth false None)
  end.

(** [_handle_connect_event] *)
Definition _handle_connect_event (srv : WebSocketServer)
    (event : NetworkEvent) : WebSocketServer :=
  let md := to_dict (metadata event) in
  let connection_uuid := uuid (metadata event) in
  let platform := platform (metadata event) in
  let '(srv, auth_result) := _authenticate_connection srv md in
  match success auth_result, user_id auth_result with
  | true, Some user_id =>
      let per_user := default ∅ (user_connections srv !! user_id) in
      let uc := <[user_id := add_to platform connection_uuid per_user]>
                  (user_connections srv) in
      let pc := add_to platform connection_uuid (platform_connections srv) in
      let cu := <[connection_uuid := user_id]> (connection_users srv) in
      let cm := <[connection_uuid := md]> (connection_metadata srv) in
      {| user_connections := uc; platform_connections := pc;
         connection_users := cu; connection_metadata := cm;
         running := running srv;
         stats := mkStats (total_auth_requests (stats srv))
                    (successful_auths (stats srv)) (failed_auths (stats srv))
                    (messages_processed (stats srv)) (size uc) (size cu);
         driver_calls := driver_calls srv |}
  | _, _ => call_driver (disconnect_client connection_uuid) srv
  end.

(** [_handle_disconnect_event] *)
Definition _handle_disconnect_event (srv : WebSocketServer)
    (event : NetworkEvent) : WebSocketServer :=
  let connection_uuid := uuid (metadata event) in
  match connection_users srv !! connection_uuid with
  | Some user_id =>
      if str_truthy user_id then
        let uc :=
          match user_connections srv !! user_id with
          | Some per_user =>
              let md := default ∅ (connection_metadata srv !! connection_uuid) in
              let platform :=
                default (platform (metadata event)) (md !! "platform") in
              let per_user := discard_prune platform connection_uuid per_user in
              if decide (per_user = ∅)
              then delete user_id (user_connections srv)
              else <[user_id := per_user]> (user_connections srv)
          | None => user_connections srv
          end in
        let pc := discard_prune (platform (metadata event)) connection_uuid
                    (platform_connections srv) in
        let cu := delete connection_uuid (connection_users srv) in
        let cm := delete connection_uuid (connection_metadata srv) in
        {| user_connections := uc; platform_connections := pc;
           connection_users := cu; connection_metadata := cm;
           running := running srv;
           stats := mkStats (total_auth_requests (stats srv))
                      (successful_auths (stats srv)) (failed_auths (stats srv))
                      (messages_processed (stats srv)) (size uc) (size cu);
           driver_calls := driver_calls srv |}
      else srv
  | None => srv
  end.

(** [_handle_message_event]: the registry is only read by the business
    callbacks it invokes. *)
Definition _handle_message_event (srv : WebSocketServer)
    (event : NetworkEvent) : WebSocketServer :=
  with_stats count_message srv.

(** One turn of [_dispatcher_loop]. *)
Definition dispatch (srv : WebSocketServer) (event : NetworkEvent)
  : WebSocketServer :=
  match event_type event with
  | CONNECT => _handle_connect_event srv event
  | DISCONNECT => _handle_disconnect_event srv event
  | MESSAGE => _handle_message_event srv event
  end.

(** The dispatcher handles the queued events one after the other. *)
Definition run (srv : WebSocketServer) (events : list NetworkEvent)
  : WebSocketServer :=
  foldl dispatch srv events.

(** The sending loop shared by the send operations:
    [for c in targets: results[c] = await network_driver.send_message(c, package)]. *)
Definition send_loop (targets : list string)
    (acc : WebSocketServer * gmap string bool)
  : WebSocketServer * gmap string bool :=
  foldl (λ acc c, (call_driver (driver_send c) acc.1, <[c := net_send c]> acc.2))
        acc targets.

Definition send_to (targets : list string) (srv : WebSocketServer)
  : WebSocketServer * gmap string bool :=
  send_loop targets (srv, ∅).

(** [send_message] *)
Definition send_message (srv : WebSocketServer) (message : APIMessageBase)
  : WebSocketServer * py_result (gmap string bool) :=
  let api_key := get_api_key message in
  let platform := get_platform message in
  match on_auth_extract_user {["api_key" := api_key]} with
  | Raise _ => (srv, Ok ∅)
  | Ok target_user =>
      match user_connections srv !! target_user with
      | None => (srv, Ok ∅)
      | Some user_platform_connections =>
          match user_platform_connections !! platform with
          | None => (srv, Ok ∅)
          | Some target_connections =>
              let '(srv, results) := send_to (elements target_connections) srv in
              (srv, Ok results)
          end
      end
  end.

(** The target computation of [send_custom_message].
    [self.user_connections.get(target_user, set())] is the per-user [dict]
    the connect handler stored, or an empty [set] for an unknown user. *)
Definition custom_targets (srv : WebSocketServer)
    (target_user target_platform connection_uuid : option string)
  : py_result py_coll :=
  match opt_truthy connection_uuid with
  | Some c => Ok (PySet {[c]})
  | None =>
      match opt_truthy target_user with
      | Some u =>
          let user_connections :=
            match user_connections srv !! u with
            | Some d => PyDict d
            | None => PySet ∅
            end in
          match opt_truthy target_platform with
          | Some p =>
              let platform_connections :=
                PySet (default ∅ (platform_connections srv !! p)) in
              py_and user_connections platform_connections
          | None => Ok user_connections
          end
      | None => Ok (PySet ∅)
      end
  end.

(** [send_custom_message]; the message type and payload only fill the
    package and play no part in the routing. *)
Definition send_custom_message (srv : WebSocketServer)
    (target_user target_platform connection_uuid : option string)
  : WebSocketServer * py_result (gmap string bool) :=
  match custom_targets srv target_user target_platform connection_uuid with
  | Raise e => (srv, Raise e)
  | Ok target_connections =>
      let '(srv, results) := send_to (py_iter target_connections) srv in
      (srv, Ok results)
  end.

End Callbacks.

(** [get_connection_count] *)
Definition get_connection_count (srv : WebSocketServer) : nat :=
  size (connection_users srv).

(** [start]; spawning the dispatcher and the driver leaves the tables alone. *)
Definition start (srv : WebSocketServer) : WebSocketServer :=
  if running srv then srv
  else {| user_connections := user_connections srv;
          platform_connections := platform_connections srv;
          connection_users := connection_users srv;
          connection_metadata := connection_metadata srv;
          running := true;
          stats := stats srv;
          driver_calls := driver_calls srv |}.

(** [stop]: the dispatcher task is cancelled first, so no event is handled
    while the driver shuts down; then three tables are cleared. *)
Definition stop (srv : WebSocketServer) : WebSocketServer :=
  if running srv then
    {| user_connections := ∅;
       platform_connections := ∅;
       connection_users := ∅;
       connection_metadata := connection_metadata srv;
       running := false;
       stats := stats srv;
       driver_calls := driver_calls srv ++ [driver_stop] |}
  else srv.

(** *** The registry invariant *)

(** [c ∈ user_connections[u][p]] *)
Definition registered (srv : WebSocketServer) (u p c : string) : Prop :=
  ∃ per_user, user_connections srv !! u = Some per_user ∧ holds per_user p c.

(** The platform recorded in [connection_metadata[c]]. *)
Definition recorded_platform (srv : WebSocketServer) (c : string)
  : option string :=
  connection_metadata srv !! c ≫= λ md, md !! "platform".

(** [connection_users[c] == u] exactly when [c] is registered under [u] on
    the platform its metadata records. *)
Definition users_consistent (srv : WebSocketServer) : Prop :=
  ∀ c u, connection_users srv !! c = Some u ↔
         ∃ p, recorded_platform srv c = Some p ∧ registered srv u p c.

(** [platform_connections[p]] is the union over all users of
    [user_connections[u][p]]. *)
Definition platform_index_is_union (srv : WebSocketServer) : Prop :=
  ∀ p c, holds (platform_connections srv) p c ↔ ∃ u, registered srv u p c.

(** No empty user entry, no empty per-platform set, no empty platform entry. *)
Definition pruned (srv : WebSocketServer) : Prop :=
  (∀ u per_user, user_connections srv !! u = Some per_user →
                 per_user ≠ ∅ ∧ no_empty_sets per_user) ∧
  no_empty_sets (platform_connections srv).

Definition registry_invariant (srv : WebSocketServer) : Prop :=
  users_consistent srv ∧ platform_index_is_union srv ∧ pruned srv.

(** The form in which the invariant is carried through a run: every
    registered connection has its reverse entries, every reverse entry has a
    non-empty user and its registration. *)
Definition well_formed (srv : WebSocketServer) : Prop :=
  (∀ u p c, registered srv u p c →
            connection_users srv !! c = Some u ∧
            recorded_platform srv c = Some p) ∧
  (∀ c u, connection_users srv !! c = Some u →
          u ≠ "" ∧ ∃ p, recorded_platform srv c = Some p ∧ registered srv u p c) ∧
  platform_index_is_union srv ∧
  pruned srv.

(** Two servers with the same four tables. *)
Definition same_tables (a b : WebSocketServer) : Prop :=
  user_connections a = user_connections b ∧
  platform_connections a = platform_connections b ∧
  connection_users a = connection_users b ∧
  connection_metadata a = connection_metadata b.

Section Admissible.

Variable on_auth : gmap string string → py_result bool.
Variable on_auth_extract_user : gmap string string → py_result string.

(** An event the handlers are prepared for: a [CONNECT] whose connection id
    is not already registered under another user or platform, a
    [DISCONNECT] that names the platform its connection registered with. *)
Definition admissible (srv : WebSocketServer) (event : NetworkEvent) : bool :=
  let c := uuid (metadata event) in
  match event_type event with
  | CONNECT =>
      match connection_users srv !! c,
            auth_user on_auth on_auth_extract_user (to_dict (metadata event)) with
      | Some u', Some u =>
          bool_decide (u' = u) &&
          bool_decide (recorded_platform srv c = Some (platform (metadata event)))
      | _, _ => true
      end
  | DISCONNECT =>
      match recorded_platform srv c with
      | Some p => bool_decide (p = platform (metadata event))
      | None => true
      end
  | MESSAGE => true
  end.

Fixpoint admissible_run (srv : WebSocketServer) (events : list NetworkEvent)
  : bool :=
  match events with
  | [] => true
  | event :: rest =>
      admissible srv event &&
      admissible_run (dispatch on_auth on_auth_extract_user srv event) rest
  end.

End Admissible.

(** Callbacks of an application that follows the defaults of
    [ws_config.py]: coroutines that accept a handshake with an API key and
    name the user by the key itself.  (The user extractor that
    [get_default_user_extractor] returns is a plain function; awaited by
    [_authenticate_connection] its answer raises [TypeError], an outcome
    the results [Raise] of a callback stand for.) *)
Definition default_auth (md : gmap string string) : py_result bool :=
  Ok (str_truthy (default "" (md !! "api_key"))).

Definition default_extract_user (md : gmap string string) : py_result string :=
  let api_key := default "" (md !! "api_key") in
  if str_truthy api_key then Ok api_key else Raise "ValueError".

(** *** Broadcast and message dispatch *)

(** What [broadcast_message] does: it sends to each connection of a
    platform itself, or hands the package to the driver's own broadcast. *)
Inductive Broadcast :=
  | sent_to_each (results : gmap string bool)
  | driver_broadcast.

(** [broadcast_message] *)
Definition broadcast_message (net_send : string → bool)
    (srv : WebSocketServer) (platform : option string)
  : WebSocketServer * Broadcast :=
  match opt_truthy platform with
  | Some p =>
      let platform_connections := default ∅ (platform_connections srv !! p) in
      let '(srv, results) :=
        send_to net_send (elements platform_connections) srv in
      (srv, sent_to_each results)
  | None => (srv, driver_broadcast)
  end.

(** [get_user_count] *)
Definition get_user_count (srv : WebSocketServer) : nat :=
  size (user_connections srv).

(** [get_platform_connections] *)
Definition get_platform_connections (srv : WebSocketServer) (platform : string)
  : gset string :=
  default ∅ (platform_connections srv !! platform).

(** [get_connection_user] *)
Definition get_connection_user (srv : WebSocketServer) (connection_uuid : string)
  : option string :=
  connection_users srv !! connection_uuid.

(** Where [_handle_message_event] takes a message: to [on_message], to the
    custom handlers under the message's type, nowhere (other system
    messages), to the warning for an unknown type, or into its [except]
    clause when the type is not a string and has no [startswith]. *)
Inductive Route :=
  | to_on_message
  | to_custom (message_type : string)
  | ignored
  | unknown_type (message_type : string)
  | handling_error.

(** The branches of the server's [_handle_message_event]. *)
Definition route (message_data : list (string * json)) : Route :=
  match default (JStr "unknown") (dict_get "type" message_data) with
  | JStr message_type =>
      if String.eqb message_type "sys_std" then to_on_message
      else if String.prefix "custom_" message_type then to_custom message_type
      else if String.prefix "sys_" message_type then ignored
      else unknown_type message_type
  | _ => handling_error
  end.

(** [_handle_custom_message]: the handler registered under the type, if
    there is one. *)
Definition _handle_custom_message {H : Type} (custom_handlers : gmap string H)
    (message_type : string) : option H :=
  custom_handlers !! message_type.

End Server.

(** ** Client configuration ([ws_config.py]) *)

Module WsConfig.

Record ClientConfig := mkClientConfig {
  url : string;
  api_key : string;
  platform : string;
  connection_uuid : option string;
  max_reconnect_attempts : Z;
  reconnect_delay : float;
  max_reconnect_delay : float;
  headers : ref
}.

(** The header part of [ClientConfig.ensure_defaults]: the identity headers
    are filled in where the user gave none, in the dictionary itself. *)
Definition ensure_defaults (config : ClientConfig) (σ : store) : store :=
  alter (λ h, set_default "x-platform" (platform config)
                (set_default "x-apikey" (api_key config) h))
        (headers config) σ.

(** [register_custom_handler] and [unregister_custom_handler], the same in
    [ServerConfig] and [ClientConfig]: the type is given the prefix
    [custom_] unless it has it. *)
Definition custom_type (message_type : string) : string :=
  if String.prefix "custom_" message_type then message_type
  else "custom_" +:+ message_type.

Definition register_custom_handler {H : Type} (message_type : string)
    (handler : H) (custom_handlers : gmap string H) : gmap string H :=
  <[custom_type message_type := handler]> custom_handlers.

Definition unregister_custom_handler {H : Type} (message_type : string)
    (custom_handlers : gmap string H) : gmap string H :=
  delete (custom_type message_type) custom_handlers.

(** [ClientConfig.get_missing_fields] *)
Definition get_missing_fields (config : ClientConfig) : gset string :=
  (if str_truthy (url config) then ∅ else {["url"]}) ∪
  (if str_truthy (api_key config) then ∅ else {["api_key"]}).

(** [ClientConfig.validate] *)
Definition validate (config : ClientConfig) : bool :=
  if decide (get_missing_fields config = ∅) then
    String.prefix "ws://" (url config) || String.prefix "wss://" (url config)
  else false.

(** A callback slot of [ServerConfig]: a handler the application supplied,
    or the default that [ensure_defaults] installs. *)
Inductive Callback :=
  | supplied (name : string)
  | default_handler.

(** The callback fields of [ServerConfig]. *)
Record ServerConfig := mkServerConfig {
  on_auth : option Callback;
  on_auth_extract_user : option Callback;
  on_message : option Callback;
  on_connect : option Callback;
  on_disconnect : option Callback
}.

(** [ServerConfig.validate]: only [on_auth_extract_user] is required. *)
Definition server_validate (config : ServerConfig) : bool :=
  match on_auth_extract_user config with
  | Some _ => true
  | None => false
  end.

(** [if self.x is None: self.x = default] *)
Definition or_default (slot : option Callback) : option Callback :=
  match slot with
  | Some c => Some c
  | None => Some default_handler
  end.

(** [ServerConfig.ensure_defaults] *)
Definition server_ensure_defaults (config : ServerConfig) : ServerConfig :=
  {| on_auth := or_default (on_auth config);
     on_auth_extract_user := or_default (on_auth_extract_user config);
     on_message := or_default (on_message config);
     on_connect := or_default (on_connect config);
     on_disconnect := or_default (on_disconnect config) |}.

(** The configuration steps of [WebSocketServer.__init__]: a configuration
    that does not validate raises [ValueError]. *)
Definition server_init_config (config : ServerConfig) : py_result ServerConfig :=
  if server_validate config then Ok (server_ensure_defaults config)
  else Raise "ValueError".

(** [ServerConfig()], what [WebSocketServer.__init__] falls back to: no
    callback is set. *)
Definition default_server_config : ServerConfig :=
  mkServerConfig None None None None None.

(** [WebSocketServer.__init__]: [self.config = config or ServerConfig()],
    then the steps above. *)
Definition server_init (config : option ServerConfig) : py_result ServerConfig :=
  server_init_config (default default_server_config config).

(** A history of calls of [register_custom_handler] and
    [unregister_custom_handler] on one configuration. *)
Inductive Registration (H : Type) :=
  | registers (message_type : string) (handler : H)
  | unregisters (message_type : string).
Arguments registers {H} message_type handler.
Arguments unregisters {H} message_type.

Definition registration {H : Type} (custom_handlers : gmap string H)
    (call : Registration H) : gmap string H :=
  match call with
  | registers message_type handler =>
      register_custom_handler message_type handler custom_handlers
  | unregisters message_type =>
      unregister_custom_handler message_type custom_handlers
  end.

(** [custom_handlers] after the calls, starting from the empty dictionary
    of a new configuration. *)
Definition registered_handlers {H : Type} (calls : list (Registration H))
  : gmap string H :=
  foldl registration ∅ calls.

End WsConfig.

(** ** The client network driver ([client_ws_connection.py]) *)

Module Client.

Inductive EventType := CONNECT | DISCONNECT | MESSAGE.

(** [ConnectionConfig] after [__post_init__], which fills in a generated
    [connection_uuid] and an empty [headers] dictionary where none was given.
    The heartbeat and TLS settings parametrise the transport only. *)
Record ConnectionConfig := mkConfig {
  url : string;
  api_key : string;
  platform : string;
  connection_uuid : string;
  headers : ref;
  max_reconnect_attempts : Z;
  reconnect_delay : float;
  max_reconnect_delay : float
}.

(** [ConnectionConfig.get_headers]: [self.headers.copy()] allocates a new
    dictionary, which [update] then writes to. *)
Definition get_headers (config : ConnectionConfig) (σ : store)
  : py_result (ref * store) :=
  match σ !! headers config with
  | None => Raise "AttributeError"
  | Some h =>
      let r := fresh (dom σ) in
      let σ := <[r := h]> σ in
      let σ := alter (λ h, <["x-platform" := platform config]>
                             (<["x-apikey" := api_key config]>
                               (<["x-uuid" := connection_uuid config]> h))) r σ in
      Ok (r, σ)
  end.

(** The [ConnectionConfig] that [WebSocketClient.connect] builds from the
    client configuration: the header dictionary is passed on as it is, and
    [max_reconnect_delay] keeps its default. *)
Definition of_client_config (config : WsConfig.ClientConfig) (uuid : string)
  : ConnectionConfig :=
  {| url := WsConfig.url config;
     api_key := WsConfig.api_key config;
     platform := WsConfig.platform config;
     connection_uuid := uuid;
     headers := WsConfig.headers config;
     max_reconnect_attempts := WsConfig.max_reconnect_attempts config;
     reconnect_delay := WsConfig.reconnect_delay config;
     max_reconnect_delay := 30%float |}.

Record NetworkEvent := mkEvent {
  event_type : EventType;
  event_uuid : string;
  event_config : ConnectionConfig;
  payload : option (list (string * json));
  event_error : option string;
  timestamp : float
}.

(** The values of [connection_states]. *)
Inductive State := connecting | connected | disconnected | error.

(** What the driver does to the outside world, in order. *)
Inductive Effect :=
  | ws_connect (uuid : string)
  | ws_send (uuid : string) (message : json)
  | wait_for_sleep (uuid : string) (delay timeout : float)
  | log_info (text : string)
  | log_warning (text : string)
  | log_error (text : string).

(** [ClientNetworkDriver]: [connections] keeps its insertion order,
    [active_connections] is the key set of the socket table, [shutdown] is
    [_shutdown_event.is_set()], [event_queue] is [None] until the driver is
    given its queue, and [effects] records what was done so far. *)
Record ClientNetworkDriver := mkDriver {
  connections : list (string * ConnectionConfig);
  active_connections : gset string;
  connection_states : gmap string State;
  event_queue : option (list NetworkEvent);
  running : bool;
  shutdown : bool;
  stats : gmap string Z;
  effects : list Effect
}.

Definition init : ClientNetworkDriver :=
  {| connections := []; active_connections := ∅; connection_states := ∅;
     event_queue := None; running := false; shutdown := false;
     stats := list_to_map [("total_connections", 0%Z); ("current_connections", 0%Z);
                           ("messages_received", 0%Z); ("messages_sent", 0%Z);
                           ("bytes_received", 0%Z); ("bytes_sent", 0%Z);
                           ("reconnect_attempts", 0%Z)];
     effects := [] |}.

(** [self.connections.get(uuid)] *)
Fixpoint lookup_connection (uuid : string)
    (items : list (string * ConnectionConfig)) : option ConnectionConfig :=
  match items with
  | [] => None
  | (k, config) :: rest =>
      if String.eqb k uuid then Some config else lookup_connection uuid rest
  end.

Definition set_state (uuid : string) (st : State) (drv : ClientNetworkDriver) :=
  {| connections := connections drv;
     active_connections := active_connections drv;
     connection_states := <[uuid := st]> (connection_states drv);
     event_queue := event_queue drv; running := running drv;
     shutdown := shutdown drv; stats := stats drv; effects := effects drv |}.

Definition set_active (active : gset string) (drv : ClientNetworkDriver) :=
  {| connections := connections drv;
     active_connections := active;
     connection_states := connection_states drv;
     event_queue := event_queue drv; running := running drv;
     shutdown := shutdown drv; stats := stats drv; effects := effects drv |}.

(** [self.stats[key] += n] on a dictionary that has the key, as the
    dictionary of [__init__] has each of the seven counters.  On a
    dictionary without the key the statement raises [KeyError]; that is
    the case of ["reconnect_attempts"] after [stop], and the runs of a
    loop that meets an exception then are not among those described. *)
Definition add_stat (key : string) (n : Z) (drv : ClientNetworkDriver) :=
  {| connections := connections drv;
     active_connections := active_connections drv;
     connection_states := connection_states drv;
     event_queue := event_queue drv; running := running drv;
     shutdown := shutdown drv;
     stats := alter (Z.add n) key (stats drv);
     effects := effects drv |}.

Definition emit (e : Effect) (drv : ClientNetworkDriver) :=
  {| connections := connections drv;
     active_connections := active_connections drv;
     connection_states := connection_states drv;
     event_queue := event_queue drv; running := running drv;
     shutdown := shutdown drv; stats := stats drv;
     effects := (effects drv ++ [e])%list |}.

Definition enqueue (ev : NetworkEvent) (drv : ClientNetworkDriver) :=
  {| connections := connections drv;
     active_connections := active_connections drv;
     connection_states := connection_states drv;
     event_queue := (λ q, (q ++ [ev])%list) <$> event_queue drv;
     running := running drv;
     shutdown := shutdown drv; stats := stats drv; effects := effects drv |}.

(** [add_connection] *)
Definition add_connection (config : ConnectionConfig) (drv : ClientNetworkDriver)
  : ClientNetworkDriver * bool :=
  let uuid := connection_uuid config in
  match lookup_connection uuid (connections drv) with
  | Some _ => (emit (log_warning "connection already exists") drv, false)
  | None =>
      ({| connections := (connections drv ++ [(uuid, config)])%list;
          active_connections := active_connections drv;
          connection_states := <[uuid := disconnected]> (connection_states drv);
          event_queue := event_queue drv; running := running drv;
          shutdown := shutdown drv; stats := stats drv;
          effects := effects drv |}, true)
  end.

(** [_send_event]: dropped without a queue or without a configuration. *)
Definition _send_event (ty : EventType) (uuid : string)
    (data : option (list (string * json))) (err : option string) (now : float)
    (drv : ClientNetworkDriver) : ClientNetworkDriver :=
  match event_queue drv with
  | None => emit (log_warning "event queue not available, event dropped") drv
  | Some _ =>
      match lookup_connection uuid (connections drv) with
      | None => emit (log_warning "no config for connection") drv
      | Some config => enqueue (mkEvent ty uuid config data err now) drv
      end
  end.

(** What [websocket.send] does. *)
Inductive SendOutcome :=
  | sent
  | connection_closed
  | send_raises (e : string).

(** The answers of the outside world while one frame is handled:
    [uuid.uuid4()], [time.time()] and the fate of a write to the socket. *)
Record World := mkWorld {
  uuid4 : string;
  time : float;
  on_send : SendOutcome
}.

(** A received frame: [str], or [bytes] given by its [str()] rendering. *)
Inductive Frame :=
  | text (s : string)
  | binary (rendering : string).

Section Codec.

(** [json.loads] and the length of the UTF-8 encoding of [json.dumps]. *)
Variable json_loads : string → Loaded.
Variable dumps_size : json → Z.

(** [_send_raw_message]; [ws_send] records the write that is attempted,
    [send_raises] any failure of [json.dumps] or [websocket.send] other
    than a closed connection. *)
Definition _send_raw_message (uuid : string) (message : json) (w : World)
    (drv : ClientNetworkDriver) : ClientNetworkDriver * bool :=
  if decide (uuid ∈ active_connections drv) then
    let drv := emit (ws_send uuid message) drv in
    match on_send w with
    | sent =>
        (add_stat "bytes_sent" (dumps_size message)
           (add_stat "messages_sent" 1 drv), true)
    | connection_closed =>
        (set_state uuid disconnected
           (emit (log_info "connection closed while sending") drv), false)
    | send_raises e =>
        (emit (log_error "error sending message")
           (emit (log_info "sending failed") drv), false)
    end
  else (emit (log_info "connection not active, cannot send") drv, false).

(** The envelope [_send_ack] builds. *)
Definition ack_message (uuid : string) (msg_id : json) (w : World) : json :=
  JDict [("ver", JInt 1);
         ("msg_id", JStr (uuid4 w));
         ("type", JStr "sys_ack");
         ("meta", JDict [("uuid", JStr uuid);
                         ("acked_msg_id", msg_id);
                         ("timestamp", JFloat (time w))]);
         ("payload", JDict [("status", JStr "received");
                            ("client_timestamp", JFloat (time w))])].

(** [_send_ack]: the result of the write is dropped. *)
Definition _send_ack (uuid : string) (msg_id : json) (w : World)
    (drv : ClientNetworkDriver) : ClientNetworkDriver :=
  (_send_raw_message uuid (ack_message uuid msg_id w) w drv).1.

(** The decoding step of [_handle_message].  Only [JSONDecodeError] is
    caught here, and the text wrapped; JSON that is not an object has no
    [keys()], which raises, as does any other exception of [json.loads]:
    these reach the [except] clause of the handler. *)
Definition decode (message : Frame) : py_result (list (string * json)) :=
  match message with
  | text s =>
      match json_loads s with
      | loaded (JDict items) => Ok items
      | loaded _ => Raise "AttributeError"
      | not_json => Ok [("raw_message", JStr s)]
      | loads_raises e => Raise e
      end
  | binary rendering => Ok [("data", JStr rendering)]
  end.

(** [if msg_id and data.get("type") != "sys_ack"] *)
Definition ack_due (data : list (string * json)) : option json :=
  match dict_get "msg_id" data with
  | Some msg_id =>
      if truthy msg_id && differs_from "sys_ack" (dict_get "type" data)
      then Some msg_id else None
  | None => None
  end.


(** [_handle_message] *)
Definition _handle_message (uuid : string) (message : Frame) (w : World)
    (drv : ClientNetworkDriver) : ClientNetworkDriver :=
  let drv := add_stat "messages_received" 1 drv in
  let drv := match message with
             | text s => add_stat "bytes_received" (Z.of_nat (String.length s)) drv
             | binary _ => drv
             end in
  match decode message with
  | Raise e =>
      emit (log_error "message handling error") (emit (log_info e) drv)
  | Ok data =>
      let drv := match ack_due data with
                 | Some msg_id => _send_ack uuid msg_id w drv
                 | None => drv
                 end in
      _send_event MESSAGE uuid (Some data) None (time w) drv
  end.

(** *** The connection loop *)

(** The loop is followed turn by turn through an environment that says how
    each connection attempt and session ends and what other tasks do in
    the meantime.  Cancellation of the loop's task, which unwinds it at the
    [await] it is suspended at, is not part of the runs described. *)

(** What other tasks and threads do to the driver while the loop is
    suspended at an [await]. *)
Definition Interference := ClientNetworkDriver → ClientNetworkDriver.

(** One frame delivered by [async for message in websocket]. *)
Record Reception := mkReception {
  before_frame : Interference;
  frame : Frame;
  world : World
}.

(** How an established session ends: the peer closes normally and the
    iteration stops, a [ConnectionClosedError], or any other exception. *)
Inductive Ending :=
  | closed_ok
  | closed_error (e : string)
  | session_raises (e : string).

(** The fate of one [websockets.connect]. *)
Inductive Attempt :=
  | connect_raises (e : string)
  | established (frames : list Reception) (ending : Ending).

(** What one turn of the [while] loop meets. *)
Record Iteration := mkIteration {
  during_handshake : Interference;
  attempt : Attempt;
  clock : float;
  during_wait : Interference
}.

(** The local variables [reconnect_attempts] and [reconnect_delay]. *)
Record Locals := mkLocals {
  reconnect_attempts : Z;
  next_delay : float
}.

Definition initial_locals (config : ConnectionConfig) : Locals :=
  mkLocals 0 (reconnect_delay config).

(** How the loop was left; [pending] when the environment described so far
    is used up and the loop would start another turn. *)
Inductive Exit :=
  | condition_false
  | stopped_waiting
  | gave_up
  | pending.

Record Run := mkRun {
  driver : ClientNetworkDriver;
  locals : Locals;
  exit : Exit
}.

(** [connection_uuid in self.connections] *)
Definition is_registered (uuid : string) (drv : ClientNetworkDriver) : bool :=
  match lookup_connection uuid (connections drv) with
  | Some _ => true
  | None => false
  end.

(** [self.running and connection_uuid in self.connections and
     not self._shutdown_event.is_set()] *)
Definition alive (uuid : string) (drv : ClientNetworkDriver) : bool :=
  running drv && is_registered uuid drv && negb (shutdown drv).

(** The [async for] loop; the flag tells whether it was left by [break]. *)
Fixpoint read_loop (uuid : string) (frames : list Reception)
    (drv : ClientNetworkDriver) : ClientNetworkDriver * bool :=
  match frames with
  | [] => (drv, false)
  | r :: rest =>
      let drv := before_frame r drv in
      if negb (running drv) || negb (is_registered uuid drv) then (drv, true)
      else read_loop uuid rest (_handle_message uuid (frame r) (world r) drv)
  end.

(** The [except Exception] branch. *)
Definition on_exception (uuid e : string) (now : float)
    (drv : ClientNetworkDriver) : ClientNetworkDriver :=
  _send_event DISCONNECT uuid None (Some e) now
    (add_stat "reconnect_attempts" 1 drv).

(** The [finally] branch. *)
Definition cleanup (uuid : string) (drv : ClientNetworkDriver)
  : ClientNetworkDriver :=
  set_state uuid disconnected
    (add_stat "current_connections" (-1)
      (set_active (active_connections drv ∖ {[uuid]}) drv)).

(** The body of [async with websocket_connect as websocket] up to the end
    of the [try] statement's handlers. *)
Definition session (config : ConnectionConfig) (uuid : string) (it : Iteration)
    (loc : Locals) (drv : ClientNetworkDriver) : ClientNetworkDriver * Locals :=
  match attempt it with
  | connect_raises e => (on_exception uuid e (clock it) drv, loc)
  | established frames ending =>
      let drv := set_active ({[uuid]} ∪ active_connections drv) drv in
      let drv := set_state uuid connected drv in
      let loc := mkLocals 0 (reconnect_delay config) in
      let drv := add_stat "current_connections" 1
                   (add_stat "total_connections" 1 drv) in
      let drv := _send_event CONNECT uuid None None (clock it) drv in
      let '(drv, broke) := read_loop uuid frames drv in
      let drv := if broke then drv else
                 match ending with
                 | closed_ok => drv
                 | closed_error e => emit (log_info "connection closed") drv
                 | session_raises e => on_exception uuid e (clock it) drv
                 end in
      (drv, loc)
  end.

(** One turn of the [while] loop, from the connection attempt to the
    reconnect decision: the loop is left ([inl]) or goes round again with
    new locals ([inr]). *)
Definition turn (config : ConnectionConfig) (uuid : string) (it : Iteration)
    (loc : Locals) (drv : ClientNetworkDriver)
  : Run + Locals * ClientNetworkDriver :=
  let drv := set_state uuid connecting drv in
  let drv := emit (ws_connect uuid) drv in
  let drv := during_handshake it drv in
  let '(drv, loc) := session config uuid it loc drv in
  let drv := cleanup uuid drv in
  let should_reconnect :=
    running drv && is_registered uuid drv &&
    (reconnect_attempts loc <? max_reconnect_attempts config)%Z &&
    negb (shutdown drv) in
  if should_reconnect then
    let loc := mkLocals (reconnect_attempts loc + 1) (next_delay loc) in
    let drv := emit (wait_for_sleep uuid (next_delay loc) 30) drv in
    let drv := during_wait it drv in
    if shutdown drv then inl (mkRun drv loc stopped_waiting)
    else
      inr (mkLocals (reconnect_attempts loc)
                    (py_min (max_reconnect_delay config)
                            (next_delay loc * 2)%float),
           drv)
  else
    let drv := if is_registered uuid drv
               then if shutdown drv then drv else set_state uuid error drv
               else drv in
    inl (mkRun drv loc gave_up).

(** The [while] loop of [_connection_loop], one turn per [Iteration]. *)
Fixpoint connection_loop (config : ConnectionConfig) (uuid : string)
    (env : list Iteration) (loc : Locals) (drv : ClientNetworkDriver)
    {struct env} : Run :=
  if negb (alive uuid drv) then mkRun drv loc condition_false else
  match env with
  | [] => mkRun drv loc pending
  | it :: env =>
      match turn config uuid it loc drv with
      | inl run => run
      | inr (loc, drv) => connection_loop config uuid env loc drv
      end
  end.

(** [_connection_loop] *)
Definition _connection_loop (uuid : string) (env : list Iteration)
    (drv : ClientNetworkDriver) : py_result Run :=
  match lookup_connection uuid (connections drv) with
  | None => Raise "KeyError"
  | Some config =>
      Ok (connection_loop config uuid env (initial_locals config) drv)
  end.

(** The loop's own record in the journal of effects. *)
Definition loop_effect (uuid : string) (e : Effect) : option Effect :=
  match e with
  | ws_connect u => if String.eqb u uuid then Some e else None
  | wait_for_sleep u _ _ => if String.eqb u uuid then Some e else None
  | _ => None
  end.

Definition loop_effects (uuid : string) (drv : ClientNetworkDriver)
  : list Effect :=
  omap (loop_effect uuid) (effects drv).

(** The delays the loop of [uuid] handed to [asyncio.sleep], oldest first. *)
Definition requested_delays (uuid : string) (drv : ClientNetworkDriver)
  : list float :=
  omap (λ e, match e with wait_for_sleep _ d _ => Some d | _ => None end)
       (loop_effects uuid drv).

(** The time each of these waits lasted. *)
Definition waited (uuid : string) (drv : ClientNetworkDriver) : list float :=
  omap (λ e, match e with
             | wait_for_sleep _ d t => Some (suspended_for d t)
             | _ => None
             end)
       (loop_effects uuid drv).

(** The number of connection attempts the loop of [uuid] made. *)
Definition attempts_made (uuid : string) (drv : ClientNetworkDriver) : nat :=
  length (omap (λ e, match e with ws_connect u => Some u | _ => None end)
               (loop_effects uuid drv)).

(** The frames written to the sockets, oldest first. *)
Definition sent_frames (drv : ClientNetworkDriver) : list (string * json) :=
  omap (λ e, match e with ws_send u m => Some (u, m) | _ => None end)
       (effects drv).

(** The log records written. *)
Definition logged (drv : ClientNetworkDriver) : list string :=
  omap (λ e, match e with
             | log_info t | log_warning t | log_error t => Some t
             | _ => None
             end)
       (effects drv).

(** From [a] to [b] the driver was not stopped, the connection not
    removed, no shutdown signalled, and nothing written to the journal in
    the loop's name. *)
Definition steady (uuid : string) (a b : ClientNetworkDriver) : Prop :=
  (alive uuid a = true → alive uuid b = true) ∧
  loop_effects uuid b = loop_effects uuid a.

(** Interference that leaves the loop of [uuid] alone in this sense. *)
Definition undisturbed (uuid : string) (f : Interference) : Prop :=
  ∀ drv, steady uuid drv (f drv).

(** The locals after the [try] statement of a turn. *)
Definition turn_locals (config : ConnectionConfig) (it : Iteration)
    (loc : Locals) : Locals :=
  match attempt it with
  | connect_raises _ => loc
  | established _ _ => initial_locals config
  end.

Definition undisturbed_iteration (uuid : string) (it : Iteration) : Prop :=
  undisturbed uuid (during_handshake it) ∧
  undisturbed uuid (during_wait it) ∧
  match attempt it with
  | connect_raises _ => True
  | established frames _ =>
      Forall (λ r, undisturbed uuid (before_frame r)) frames
  end.

(** A turn whose connection attempt fails. *)
Definition fails (it : Iteration) : Prop :=
  ∃ e, attempt it = connect_raises e.

(** A failing turn during which the loop is left alone. *)
Definition failing_undisturbed (uuid : string) (it : Iteration) : Prop :=
  fails it ∧ undisturbed_iteration uuid it.

(** A turn whose connection attempt succeeds. *)
Definition succeeds (it : Iteration) : Prop :=
  ∃ frames ending, attempt it = established frames ending.

End Codec.

(** *** Target resolution ([client_ws_api.py]) *)

(** [for uuid, config in connections.items(): if test: return uuid] *)
Fixpoint first_connection (test : string → ConnectionConfig → bool)
    (items : list (string * ConnectionConfig)) : option string :=
  match items with
  | [] => None
  | (uuid, config) :: rest =>
      if test uuid config then Some uuid else first_connection test rest
  end.

Definition is_connected (drv : ClientNetworkDriver) (uuid : string) : bool :=
  match connection_states drv !! uuid with
  | Some connected => true
  | _ => false
  end.

(** The tests of the three passes. *)
Definition exact_match (drv : ClientNetworkDriver) (target_api_key target_platform : string)
    (uuid : string) (config : ConnectionConfig) : bool :=
  String.eqb (api_key config) target_api_key &&
  String.eqb (platform config) target_platform &&
  is_connected drv uuid.

Definition api_key_match (drv : ClientNetworkDriver) (target_api_key : string)
    (uuid : string) (config : ConnectionConfig) : bool :=
  String.eqb (api_key config) target_api_key && is_connected drv uuid.

Definition platform_match (drv : ClientNetworkDriver) (target_platform : string)
    (uuid : string) (config : ConnectionConfig) : bool :=
  String.eqb (platform config) target_platform && is_connected drv uuid.

(** [WebSocketClient._find_connection_for_target], on the tables of the
    client's network driver. *)
Definition _find_connection_for_target (drv : ClientNetworkDriver)
    (target_api_key target_platform : string) : option string :=
  match first_connection (exact_match drv target_api_key target_platform)
                         (connections drv) with
  | Some uuid => Some uuid
  | None =>
      match first_connection (api_key_match drv target_api_key) (connections drv) with
      | Some uuid => Some uuid
      | None => first_connection (platform_match drv target_platform) (connections drv)
      end
  end.

(** The picture of "first match" the three passes are measured against:
    [uuid] passes the test and nothing before it in the table does. *)
Definition first_satisfying (test : string → ConnectionConfig → bool)
    (items : list (string * ConnectionConfig)) (uuid : string) : Prop :=
  ∃ before config after,
    items = before ++ (uuid, config) :: after ∧
    test uuid config = true ∧
    ∀ k c, (k, c) ∈ before → test k c = false.

Definition none_satisfying (test : string → ConnectionConfig → bool)
    (items : list (string * ConnectionConfig)) : Prop :=
  ∀ k c, (k, c) ∈ items → test k c = false.

End Client.


(** The journal of consecutive failing turns with the given delays: each
    is an attempt followed by a wait. *)
Definition failing_turns (uuid : string) (ds : list float)
  : list Client.Effect :=
  ds ≫= λ d, [Client.ws_connect uuid; Client.wait_for_sleep uuid d 30].


(** ** Connection management of the client driver ([client_ws_connection.py])

    [connect], [disconnect], [remove_connection], [start] and [stop] also
    work on the table of loop tasks and on the worker thread's event
    loop.  Of the log, warnings and errors are recorded. *)

Module Control.
Import Client.

(** [core] holds the tables and flags of [ClientNetworkDriver];
    [connection_tasks] is the key set of [self.connection_tasks];
    [main_loop] names the event loop of the worker thread once [start] has
    run.  [tasks_created] lists the connections a [_connection_loop] task
    was created or scheduled for, [tasks_cancelled] the [task.cancel()]
    calls and [sockets_closed] the [websocket.close()] calls, oldest
    first; the order among the tasks that one [stop] cancels is not
    recorded. *)
Record Driver := mkControl {
  core : ClientNetworkDriver;
  connection_tasks : gset string;
  main_loop : option nat;
  tasks_created : list string;
  tasks_cancelled : list string;
  sockets_closed : list string
}.

Definition init : Driver := mkControl Client.init ∅ None [] [] [].

Definition with_core (drv : ClientNetworkDriver) (d : Driver) : Driver :=
  {| core := drv; connection_tasks := connection_tasks d;
     main_loop := main_loop d; tasks_created := tasks_created d;
     tasks_cancelled := tasks_cancelled d;
     sockets_closed := sockets_closed d |}.

Definition with_tasks (tasks : gset string) (d : Driver) : Driver :=
  {| core := core d; connection_tasks := tasks;
     main_loop := main_loop d; tasks_created := tasks_created d;
     tasks_cancelled := tasks_cancelled d;
     sockets_closed := sockets_closed d |}.

Definition create_task (uuid : string) (d : Driver) : Driver :=
  {| core := core d; connection_tasks := connection_tasks d;
     main_loop := main_loop d;
     tasks_created := tasks_created d ++ [uuid];
     tasks_cancelled := tasks_cancelled d;
     sockets_closed := sockets_closed d |}.

Definition cancel (uuids : list string) (d : Driver) : Driver :=
  {| core := core d; connection_tasks := connection_tasks d;
     main_loop := main_loop d; tasks_created := tasks_created d;
     tasks_cancelled := tasks_cancelled d ++ uuids;
     sockets_closed := sockets_closed d |}.

Definition close (uuid : string) (d : Driver) : Driver :=
  {| core := core d; connection_tasks := connection_tasks d;
     main_loop := main_loop d; tasks_created := tasks_created d;
     tasks_cancelled := tasks_cancelled d;
     sockets_closed := sockets_closed d ++ [uuid] |}.

(** [add_connection] touches the tables only. *)
Definition add_connection (config : ConnectionConfig) (d : Driver)
  : Driver * bool :=
  let '(drv, ok) := Client.add_connection config (core d) in
  (with_core drv d, ok).

(** [del self.connections[uuid]] and [del self.connection_states[uuid]] *)
Definition forget (uuid : string) (drv : ClientNetworkDriver)
  : ClientNetworkDriver :=
  {| connections := filter (λ item, item.1 ≠ uuid) (connections drv);
     active_connections := active_connections drv;
     connection_states := delete uuid (connection_states drv);
     event_queue := event_queue drv; running := running drv;
     shutdown := shutdown drv; stats := stats drv; effects := effects drv |}.

(** What [await self.connection_tasks[uuid]] meets after the [cancel()]:
    the task is cancelled, and what it did while it unwound; the task had
    returned before; or it had ended with an exception, which the [await]
    raises again. *)
Inductive Awaited :=
  | task_cancelled (unwinding : Interference)
  | task_returned
  | task_raised (e : string).

(** [remove_connection].  [during_close] is what other tasks do while
    [websocket.close()] is awaited. *)
Definition remove_connection (uuid : string) (awaited : Awaited)
    (during_close : Interference) (d : Driver) : py_result (Driver * bool) :=
  if is_registered uuid (core d) then
    let after_task : py_result Driver :=
      if decide (uuid ∈ connection_tasks d) then
        let d := cancel [uuid] d in
        match awaited with
        | task_cancelled unwinding =>
            Ok (with_tasks (connection_tasks d ∖ {[uuid]})
                  (with_core (unwinding (core d)) d))
        | task_returned => Ok (with_tasks (connection_tasks d ∖ {[uuid]}) d)
        | task_raised e => Raise e
        end
      else Ok d in
    match after_task with
    | Raise e => Raise e
    | Ok d =>
        let after_socket : py_result Driver :=
          if decide (uuid ∈ active_connections (core d)) then
            let d := with_core (during_close (core d)) (close uuid d) in
            if decide (uuid ∈ active_connections (core d)) then
              Ok (with_core
                    (set_active (active_connections (core d) ∖ {[uuid]}) (core d)) d)
            else Raise "KeyError"
          else Ok d in
        match after_socket with
        | Raise e => Raise e
        | Ok d =>
            if is_registered uuid (core d) then
              match connection_states (core d) !! uuid with
              | Some _ => Ok (with_core (forget uuid (core d)) d, true)
              | None => Raise "KeyError"
              end
            else Raise "KeyError"
        end
    end
  else Ok (with_core (emit (log_warning "connection not found") (core d)) d, false).

(** [self.main_loop and self.main_loop != asyncio.get_running_loop()] *)
Definition other_loop (main_loop : option nat) (running_loop : nat) : bool :=
  match main_loop with
  | Some l => negb (l =? running_loop)%nat
  | None => false
  end.

(** [connect], called from a task of the event loop [running_loop].
    [call_soon_threadsafe] raises when the worker's loop is closed. *)
Definition connect (uuid : string) (running_loop : nat) (loop_closed : bool)
    (d : Driver) : py_result (Driver * bool) :=
  if is_registered uuid (core d) then
    match connection_states (core d) !! uuid with
    | None => Raise "KeyError"
    | Some connected => Ok (d, true)
    | Some _ =>
        if decide (uuid ∈ connection_tasks d) then Ok (d, true)
        else if other_loop (main_loop d) running_loop then
          if loop_closed then Raise "RuntimeError"
          else Ok (create_task uuid d, true)
        else
          Ok (with_tasks ({[uuid]} ∪ connection_tasks d) (create_task uuid d),
              true)
    end
  else Ok (with_core (emit (log_error "connection not found") (core d)) d, false).

(** The second step of [disconnect], on the tables. *)
Definition disconnect_tables (uuid : string) (drv : ClientNetworkDriver)
  : ClientNetworkDriver :=
  if decide (uuid ∈ active_connections drv) then
    set_active (active_connections drv ∖ {[uuid]})
      (set_state uuid disconnected drv)
  else drv.

(** [disconnect]; [task_done] is [task.done()]. *)
Definition disconnect (uuid : string) (task_done : bool) (d : Driver)
  : Driver * bool :=
  if is_registered uuid (core d) then
    let d := if decide (uuid ∈ connection_tasks d) then
               with_tasks (connection_tasks d ∖ {[uuid]})
                 (if task_done then d else cancel [uuid] d)
             else d in
    (with_core (disconnect_tables uuid (core d)) d, true)
  else (with_core (emit (log_warning "connection not found") (core d)) d, false).

(** [start]: the worker thread it launches takes the queue, creates its
    event loop [worker_loop] and sets [running] while [start] sleeps. *)
Definition start (queue : option (list NetworkEvent)) (worker_loop : nat)
    (d : Driver) : py_result Driver :=
  if running (core d) then
    Ok (with_core (emit (log_warning "network driver already running") (core d)) d)
  else
    match (match queue with
           | Some q => Some q
           | None => event_queue (core d)
           end) with
    | None => Raise "ValueError"
    | Some q =>
        Ok {| core := {| connections := connections (core d);
                         active_connections := active_connections (core d);
                         connection_states := connection_states (core d);
                         event_queue := Some q;
                         running := true;
                         shutdown := shutdown (core d);
                         stats := stats (core d);
                         effects := effects (core d) |};
              connection_tasks := connection_tasks d;
              main_loop := Some worker_loop;
              tasks_created := tasks_created d;
              tasks_cancelled := tasks_cancelled d;
              sockets_closed := sockets_closed d |}
    end.

(** [self._shutdown_event.set(); self.running = False] *)
Definition signal_shutdown (drv : ClientNetworkDriver) : ClientNetworkDriver :=
  {| connections := connections drv;
     active_connections := active_connections drv;
     connection_states := connection_states drv;
     event_queue := event_queue drv; running := false;
     shutdown := true; stats := stats drv; effects := effects drv |}.

(** The three [clear()] calls on the tables of the core. *)
Definition clear_tables (drv : ClientNetworkDriver) : ClientNetworkDriver :=
  {| connections := []; active_connections := ∅; connection_states := ∅;
     event_queue := event_queue drv; running := running drv;
     shutdown := shutdown drv; stats := stats drv; effects := effects drv |}.

(** The statistics [stop] installs: [reconnect_attempts] is not among
    them. *)
Definition reset_stats : gmap string Z :=
  list_to_map [("total_connections", 0%Z); ("current_connections", 0%Z);
               ("messages_received", 0%Z); ("messages_sent", 0%Z);
               ("bytes_received", 0%Z); ("bytes_sent", 0%Z)].

Definition with_stats (stats : gmap string Z) (drv : ClientNetworkDriver)
  : ClientNetworkDriver :=
  {| connections := connections drv;
     active_connections := active_connections drv;
     connection_states := connection_states drv;
     event_queue := event_queue drv; running := running drv;
     shutdown := shutdown drv; stats := stats; effects := effects drv |}.

(** [stop].  [task_done] is [task.done()] for the recorded tasks;
    [during_cancel] is what happens while the cancelled tasks are awaited,
    [during_join] what the worker thread does while it is joined. *)
Definition stop (task_done : string → bool)
    (during_cancel during_join : Interference) (d : Driver) : Driver :=
  if running (core d) then
    let pending :=
      filter (λ uuid, task_done uuid = false) (elements (connection_tasks d)) in
    let drv := during_cancel (signal_shutdown (core d)) in
    let drv := during_join (clear_tables drv) in
    {| core := with_stats reset_stats drv;
       connection_tasks := ∅;
       main_loop := main_loop d;
       tasks_created := tasks_created d;
       tasks_cancelled := tasks_cancelled d ++ pending;
       sockets_closed := sockets_closed d |}
  else d.

(** No code of the driver clears [_shutdown_event], whichever task runs
    it; this says so of what other tasks do in the meantime. *)
Definition keeps_shutdown (f : Interference) : Prop :=
  ∀ drv, shutdown drv = true → shutdown (f drv) = true.

End Control.

(** ** The client's business layer ([client_ws_api.py]) *)

Module Api.
Import Client.

(** [WebSocketClient]: the configuration, the tables of its network
    driver, and the state the dispatcher keeps. *)
Record WebSocketClient := mkClient {
  config : WsConfig.ClientConfig;
  network_driver : ClientNetworkDriver;
  running : bool;
  connected : bool;
  last_error : option string;
  stats : gmap string Z
}.

(** [__init__]: a configuration that does not validate raises
    [ValueError]; otherwise the defaults are written into the
    configuration's header dictionary. *)
Definition init (config : WsConfig.ClientConfig) (σ : store)
  : py_result (WebSocketClient * store) :=
  if WsConfig.validate config then
    Ok ({| config := config; network_driver := Client.init;
           running := false; connected := false; last_error := None;
           stats := list_to_map
             [("connect_attempts", 0%Z); ("successful_connects", 0%Z);
              ("failed_connects", 0%Z); ("messages_received", 0%Z);
              ("messages_sent", 0%Z); ("custom_messages_processed", 0%Z);
              ("reconnect_attempts", 0%Z)] |},
        WsConfig.ensure_defaults config σ)
  else Raise "ValueError".

Definition with_driver (drv : ClientNetworkDriver) (cl : WebSocketClient)
  : WebSocketClient :=
  {| config := config cl; network_driver := drv; running := running cl;
     connected := connected cl; last_error := last_error cl;
     stats := stats cl |}.

(** [self.stats[key] += 1] *)
Definition count (key : string) (cl : WebSocketClient) : WebSocketClient :=
  {| config := config cl; network_driver := network_driver cl;
     running := running cl; connected := connected cl;
     last_error := last_error cl;
     stats := alter (Z.add 1) key (stats cl) |}.

(** [_handle_connect_event]; the callback [on_connect] cannot touch the
    client's own state, and what it raises is logged. *)
Definition _handle_connect_event (cl : WebSocketClient) (event : NetworkEvent)
  : WebSocketClient :=
  count "successful_connects"
    {| config := config cl; network_driver := network_driver cl;
       running := running cl; connected := true; last_error := None;
       stats := stats cl |}.

(** [_handle_disconnect_event] *)
Definition _handle_disconnect_event (cl : WebSocketClient)
    (event : NetworkEvent) : WebSocketClient :=
  {| config := config cl; network_driver := network_driver cl;
     running := running cl; connected := false;
     last_error := event_error event;
     stats := stats cl |}.

(** The branches of the client's [_handle_message_event]. *)
Definition route (message_data : list (string * json)) : Server.Route :=
  match default (JStr "unknown") (dict_get "type" message_data) with
  | JStr message_type =>
      if String.prefix "sys_" message_type then
        if String.eqb message_type "sys_std" then Server.to_on_message
        else Server.ignored
      else if String.prefix "custom_" message_type then
        Server.to_custom message_type
      else Server.unknown_type message_type
  | _ => Server.handling_error
  end.

(** [_handle_message_event] with [_handle_custom_message]; an event
    without payload ends in the [except] clause. *)
Definition _handle_message_event (cl : WebSocketClient) (event : NetworkEvent)
  : WebSocketClient :=
  let cl := count "messages_received" cl in
  match payload event with
  | Some message_data =>
      match route message_data with
      | Server.to_custom _ => count "custom_messages_processed" cl
      | _ => cl
      end
  | None => cl
  end.

(** One turn of [_dispatcher_loop]. *)
Definition dispatch (cl : WebSocketClient) (event : NetworkEvent)
  : WebSocketClient :=
  match event_type event with
  | CONNECT => _handle_connect_event cl event
  | DISCONNECT => _handle_disconnect_event cl event
  | MESSAGE => _handle_message_event cl event
  end.

Definition run (cl : WebSocketClient) (events : list NetworkEvent)
  : WebSocketClient :=
  foldl dispatch cl events.

Section Sending.

(** The length of the UTF-8 encoding of [json.dumps], the text of
    [int(t * 1000)] and [message.to_dict()]. *)
Variable dumps_size : json → Z.
Variable millis : float → string.
Variable to_dict : Server.APIMessageBase → json.

(** The envelope both send operations build; [stamp] and [now] are the two
    readings of [time.time()]. *)
Definition package (cl : WebSocketClient) (msg_id message_type : string)
    (now : float) (payload : json) : json :=
  JDict [("ver", JInt 1);
         ("msg_id", JStr msg_id);
         ("type", JStr message_type);
         ("meta", JDict [("sender_user", JStr (WsConfig.api_key (config cl)));
                         ("platform", JStr (WsConfig.platform (config cl)));
                         ("timestamp", JFloat now)]);
         ("payload", payload)].

(** The tail of both send operations: the driver's [send_message], and the
    client's own counter on success. *)
Definition deliver (cl : WebSocketClient) (connection_uuid : string)
    (message_package : json) (w : World) : WebSocketClient * bool :=
  let '(drv, success) :=
    _send_raw_message dumps_size connection_uuid message_package w
      (network_driver cl) in
  let cl := with_driver drv cl in
  if success then (count "messages_sent" cl, true) else (cl, false).

(** [send_message] *)
Definition send_message (cl : WebSocketClient) (message : Server.APIMessageBase)
    (stamp now : float) (w : World) : WebSocketClient * bool :=
  match Server.opt_truthy
          (_find_connection_for_target (network_driver cl)
             (Server.get_api_key message) (Server.get_platform message)) with
  | None => (cl, false)
  | Some connection_uuid =>
      deliver cl connection_uuid
        (package cl ("msg_" +:+ millis stamp) "sys_std" now (to_dict message)) w
  end.

(** [send_custom_message] *)
Definition send_custom_message (cl : WebSocketClient) (message_type : string)
    (payload : json) (stamp now : float) (w : World) : WebSocketClient * bool :=
  if connected cl then
    match Server.opt_truthy (WsConfig.connection_uuid (config cl)) with
    | None => (cl, false)
    | Some connection_uuid =>
        deliver cl connection_uuid
          (package cl ("custom_" +:+ millis stamp)
             (WsConfig.custom_type message_type) now payload) w
    end
  else (cl, false).

End Sending.

End Api.

(** ** Sample configurations, frames and runs *)

Definition connect_event (c k p : string) : Server.NetworkEvent :=
  Server.mkEvent Server.CONNECT (Server.mkMeta c k p).

Definition disconnect_event (c k p : string) : Server.NetworkEvent :=
  Server.mkEvent Server.DISCONNECT (Server.mkMeta c k p).

(** The dispatcher with the callbacks of an application that accepts a
    handshake with an API key and names the user by the key. *)
Definition default_run (srv : Server.WebSocketServer)
    (events : list Server.NetworkEvent) : Server.WebSocketServer :=
  Server.run Server.default_auth Server.default_extract_user srv events.

(** Two users on two platforms, one of them leaving again. *)
Definition sample_events : list Server.NetworkEvent :=
  [connect_event "c1" "u1" "qq"; connect_event "c2" "u1" "wechat";
   connect_event "c3" "u2" "qq"; disconnect_event "c1" "u1" "qq";
   connect_event "c1" "u1" "qq"].

(** A configuration whose user-supplied headers carry stale identity
    entries of their own. *)
Definition sample_config : Client.ConnectionConfig :=
  Client.mkConfig "ws://localhost:18040/ws" "key-1" "qq" "uuid-1" 0 5 1 30.

Definition sample_store : store :=
  {[ 0 := {[ "x-apikey" := "stale-key"; "x-uuid" := "stale-uuid";
             "user-agent" := "bot" ]} ]}.

(** The double quote character. *)
Definition dq : string := String "034"%char "".

(** The text [{"msg_id": "m-1", "type": "sys_std"}]. *)
Definition standard_frame : string :=
  String.concat "" ["{"; dq; "msg_id"; dq; ": "; dq; "m-1"; dq; ", ";
                    dq; "type"; dq; ": "; dq; "sys_std"; dq; "}"].

(** The text [{"msg_id": "a-1", "type": "sys_ack"}]. *)
Definition ack_frame : string :=
  String.concat "" ["{"; dq; "msg_id"; dq; ": "; dq; "a-1"; dq; ", ";
                    dq; "type"; dq; ": "; dq; "sys_ack"; dq; "}"].

(** A thousand opening brackets, on which [json.loads] raises
    [RecursionError]. *)
Definition deep_text : string :=
  String.concat "" (replicate 1000 "[").

(** The text [{"msg_id": "m-2", "n": 11...1}] with an integer of 4301
    digits, one more than the interpreter converts: [json.loads] raises a
    plain [ValueError]. *)
Definition huge_frame : string :=
  String.concat "" ["{"; dq; "msg_id"; dq; ": "; dq; "m-2"; dq; ", ";
                    dq; "n"; dq; ": "; String.concat "" (replicate 4301 "1");
                    "}"].

(** [json.loads] on the sample frames; any other text stands for a text
    that is not JSON. *)
Definition sample_loads (s : string) : Loaded :=
  if String.eqb s standard_frame then
    loaded (JDict [("msg_id", JStr "m-1"); ("type", JStr "sys_std")])
  else if String.eqb s ack_frame then
    loaded (JDict [("msg_id", JStr "a-1"); ("type", JStr "sys_ack")])
  else if String.eqb s "[1, 2]" then loaded (JList [JInt 1; JInt 2])
  else if String.eqb s deep_text then loads_raises "RecursionError"
  else if String.eqb s huge_frame then loads_raises "ValueError"
  else not_json.

Definition sample_size (message : json) : Z := 120.

(** A running driver with the connection [uuid-1] established. *)
Definition sample_driver : Client.ClientNetworkDriver :=
  {| Client.connections := [("uuid-1", sample_config)];
     Client.active_connections := {["uuid-1"]};
     Client.connection_states := {["uuid-1" := Client.connected]};
     Client.event_queue := Some [];
     Client.running := true;
     Client.shutdown := false;
     Client.stats := Client.stats Client.init;
     Client.effects := [] |}.

(** A world in which the write to the socket fails. *)
Definition failing_world : Client.World :=
  Client.mkWorld "ack-1" 1700000000 (Client.send_raises "broken pipe").

(** A turn in which the server refuses the connection and no other task
    touches the driver. *)
Definition refused : Client.Iteration :=
  Client.mkIteration id (Client.connect_raises "connection refused")
                     1700000000 id.

(** A turn in which the connection is established, one frame arrives and
    the peer closes, again with no other task at work. *)
Definition served : Client.Iteration :=
  Client.mkIteration id
    (Client.established
       [Client.mkReception id (Client.text standard_frame) failing_world]
       Client.closed_ok)
    1700000000 id.

(** A started driver that holds one connection, not yet connected. *)
Definition idle_driver (config : Client.ConnectionConfig)
  : Client.ClientNetworkDriver :=
  {| Client.connections := [(Client.connection_uuid config, config)];
     Client.active_connections := ∅;
     Client.connection_states :=
       {[Client.connection_uuid config := Client.disconnected]};
     Client.event_queue := Some [];
     Client.running := true;
     Client.shutdown := false;
     Client.stats := Client.stats Client.init;
     Client.effects := [] |}.


Definition sample_loop (config : Client.ConnectionConfig)
    (env : list Client.Iteration) : Client.Run :=
  Client.connection_loop sample_loads sample_size config "uuid-1" env
    (Client.initial_locals config) (idle_driver config).


(** ** Measures of a run of the server *)

(** The number of [CONNECT] events among the events dispatched. *)
Definition connects (events : list Server.NetworkEvent) : nat :=
  length (omap (λ ev, match Server.event_type ev with
                      | Server.CONNECT => Some ev
                      | _ => None
                      end) events).

(** The statistics agree with the tables they summarise. *)
Definition counters_in_step (srv : Server.WebSocketServer) : Prop :=
  Server.current_users (Server.stats srv) = size (Server.user_connections srv) ∧
  Server.current_connections (Server.stats srv)
  = size (Server.connection_users srv) ∧
  dom (Server.connection_metadata srv) = dom (Server.connection_users srv).

(** A connected client with the sample driver sends the custom message
    [ping]; the server registered its handler as [custom_ping]. *)
Definition sample_client : Api.WebSocketClient :=
  {| Api.config := WsConfig.mkClientConfig "ws://localhost:18040/ws" "key-1"
                     "qq" (Some "uuid-1") 5 1 30 0;
     Api.network_driver := sample_driver;
     Api.running := true;
     Api.connected := true;
     Api.last_error := None;
     Api.stats := {["messages_sent" := 0%Z]} |}.

Definition sample_world : Client.World :=
  Client.mkWorld "id-1" 1700000000 Client.sent.


(** *** One connection seen from outside *)

(** The events of one connection in the queue, oldest first. *)
Definition events_of (uuid : string) (drv : Client.ClientNetworkDriver)
  : list Client.NetworkEvent :=
  filter (λ ev, Client.event_uuid ev = uuid)
         (default [] (Client.event_queue drv)).

(** The frames written to the socket of one connection, oldest first. *)
Definition frames_to (uuid : string) (drv : Client.ClientNetworkDriver)
  : list json :=
  omap (λ item : string * json,
          if String.eqb item.1 uuid then Some item.2 else None)
       (Client.sent_frames drv).

(** What the loop of a connection and the callers of the driver can see of
    that connection. *)
Record View := mkView {
  seen_running : bool;
  seen_shutdown : bool;
  seen_config : option Client.ConnectionConfig;
  seen_active : bool;
  seen_state : option Client.State;
  seen_queue : bool;
  seen_events : list Client.NetworkEvent;
  seen_frames : list json;
  seen_loop : list Client.Effect
}.

Definition view (uuid : string) (drv : Client.ClientNetworkDriver) : View :=
  {| seen_running := Client.running drv;
     seen_shutdown := Client.shutdown drv;
     seen_config := Client.lookup_connection uuid (Client.connections drv);
     seen_active := bool_decide (uuid ∈ Client.active_connections drv);
     seen_state := Client.connection_states drv !! uuid;
     seen_queue := bool_decide (is_Some (Client.event_queue drv));
     seen_events := events_of uuid drv;
     seen_frames := frames_to uuid drv;
     seen_loop := Client.loop_effects uuid drv |}.

(** Other tasks that leave the connection alone: the loops of other
    connections, sends on other connections, calls for other
    connections. *)
Definition leaves_alone (uuid : string) (f : Client.Interference) : Prop :=
  ∀ drv, view uuid (f drv) = view uuid drv.

(** Other tasks that leave the shared counters as they are. *)
Definition keeps_stats (f : Client.Interference) : Prop :=
  ∀ drv, Client.stats (f drv) = Client.stats drv.

(** The [MESSAGE] event a received frame gives rise to; none for a frame
    the handler cannot decode: JSON that is not an object, or a text on
    which [json.loads] raises something other than [JSONDecodeError]. *)
Definition message_event (json_loads : string → Loaded) (uuid : string)
    (config : Client.ConnectionConfig) (r : Client.Reception)
  : option Client.NetworkEvent :=
  match Client.decode json_loads (Client.frame r) with
  | Ok data =>
      Some (Client.mkEvent Client.MESSAGE uuid config (Some data) None
              (Client.time (Client.world r)))
  | Raise _ => None
  end.

(** The driver a turn of the loop leaves behind, whether the loop goes on
    or not. *)
Definition turn_driver (outcome : Client.Run + Client.Locals * Client.ClientNetworkDriver)
  : Client.ClientNetworkDriver :=
  match outcome with
  | inl run => Client.driver run
  | inr (_, drv) => drv
  end.

(** [n] calls of [connect] for the same connection, one after the other,
    from tasks of the event loop [running_loop]. *)
Fixpoint connect_times (n : nat) (uuid : string) (running_loop : nat)
    (d : Control.Driver) : py_result Control.Driver :=
  match n with
  | 0 => Ok d
  | S n =>
      match Control.connect uuid running_loop false d with
      | Ok (d, _) => connect_times n uuid running_loop d
      | Raise e => Raise e
      end
  end.

(** The acknowledgement a received frame is answered with, if any. *)
Definition ack_of (json_loads : string → Loaded) (uuid : string)
    (r : Client.Reception) : option json :=
  match Client.decode json_loads (Client.frame r) with
  | Ok data =>
      match Client.ack_due data with
      | Some msg_id => Some (Client.ack_message uuid msg_id (Client.world r))
      | None => None
      end
  | Raise _ => None
  end.

(** A turn of the loop during which other tasks leave the connection
    alone. *)
Definition left_alone (uuid : string) (it : Client.Iteration) : Prop :=
  leaves_alone uuid (Client.during_handshake it) ∧
  leaves_alone uuid (Client.during_wait it) ∧
  match Client.attempt it with
  | Client.connect_raises _ => True
  | Client.established frames _ =>
      Forall (λ r, leaves_alone uuid (Client.before_frame r)) frames
  end.

(** A turn of the loop during which other tasks leave the counters as
    they are. *)
Definition stats_kept (it : Client.Iteration) : Prop :=
  keeps_stats (Client.during_handshake it) ∧
  keeps_stats (Client.during_wait it) ∧
  match Client.attempt it with
  | Client.connect_raises _ => True
  | Client.established frames _ =>
      Forall (λ r, keeps_stats (Client.before_frame r)) frames
  end.

(** The events a turn of the loop puts into the queue for a connection
    registered with [config]: the handshake, the frames, and the exception
    that ended the attempt or the session, if one did. *)
Definition turn_events (json_loads : string → Loaded) (uuid : string)
    (config : Client.ConnectionConfig) (it : Client.Iteration)
  : list Client.NetworkEvent :=
  match Client.attempt it with
  | Client.connect_raises e =>
      [Client.mkEvent Client.DISCONNECT uuid config None (Some e) (Client.clock it)]
  | Client.established frames ending =>
      Client.mkEvent Client.CONNECT uuid config None None (Client.clock it)
      :: omap (message_event json_loads uuid config) frames
      ++ match ending with
         | Client.session_raises e =>
             [Client.mkEvent Client.DISCONNECT uuid config None (Some e)
                             (Client.clock it)]
         | _ => []
         end
  end.

(** *** The three tiers of target resolution, in the specification's words *)

(** The state recorded for the connection is [connected]. *)
Definition state_connected (drv : Client.ClientNetworkDriver) (uuid : string)
  : Prop :=
  Client.connection_states drv !! uuid = Some Client.connected.

(** Tier 1: matching API key and platform and state connected. *)
Definition tier_exact (drv : Client.ClientNetworkDriver) (key pf : string)
    (uuid : string) (config : Client.ConnectionConfig) : Prop :=
  Client.api_key config = key ∧ Client.platform config = pf ∧
  state_connected drv uuid.

(** Tier 2: matching API key alone with state connected. *)
Definition tier_api_key (drv : Client.ClientNetworkDriver) (key : string)
    (uuid : string) (config : Client.ConnectionConfig) : Prop :=
  Client.api_key config = key ∧ state_connected drv uuid.

(** Tier 3: matching platform alone with state connected. *)
Definition tier_platform (drv : Client.ClientNetworkDriver) (pf : string)
    (uuid : string) (config : Client.ConnectionConfig) : Prop :=
  Client.platform config = pf ∧ state_connected drv uuid.

(** [uuid] is the first connection of the table, in its order, of which
    [P] holds. *)
Definition first_where (P : string → Client.ConnectionConfig → Prop)
    (items : list (string * Client.ConnectionConfig)) (uuid : string) : Prop :=
  ∃ before config after,
    items = before ++ (uuid, config) :: after ∧
    P uuid config ∧
    ∀ k c, (k, c) ∈ before → ¬ P k c.

(** [P] holds of no connection of the table. *)
Definition nowhere (P : string → Client.ConnectionConfig → Prop)
    (items : list (string * Client.ConnectionConfig)) : Prop :=
  ∀ k c, (k, c) ∈ items → ¬ P k c.

(** *** Samples for the client *)

(** A standard frame, then a text that is not JSON. *)
Definition sample_frames : list Client.Reception :=
  [Client.mkReception id (Client.text standard_frame) sample_world;
   Client.mkReception id (Client.text "not json") sample_world].

(** The sample driver started through its worker thread: the loop of
    [uuid-1] runs there and its task is not recorded. *)
Definition sample_control : Control.Driver :=
  Control.mkControl sample_driver ∅ (Some 1) ["uuid-1"] [] [].

(** A turn during which the connection is removed while the handshake is
    under way. *)
Definition removed_meanwhile : Client.Iteration :=
  Client.mkIteration (Control.forget "uuid-1")
    (Client.connect_raises "connection refused") 1700000000 id.

(** A refused attempt during whose wait [stop] signals the shutdown. *)
Definition stopped_meanwhile : Client.Iteration :=
  Client.mkIteration id (Client.connect_raises "connection refused")
    1700000000 Control.signal_shutdown.

(** A peer's [json.loads] on the text of an acknowledgement of [m-1]. *)
Definition loads_ack (s : string) : Loaded :=
  loaded (Client.ack_message "uuid-1" (JStr "m-1") sample_world).
(** * Properties *)

(** ** The set-valued indexes *)

Lemma str_truthy_spec s : str_truthy s = true ↔ s ≠ "".
Proof.
  unfold str_truthy. destruct (String.eqb_spec s ""); simpl; split; congruence.
Qed.

Lemma holds_add_to k c m k' c' :
  holds (add_to k c m) k' c' ↔ holds m k' c' ∨ (k' = k ∧ c' = c).
Proof.
  unfold holds, add_to. destruct (decide (k' = k)) as [->|Hne].
  - rewrite lookup_insert_eq. split.
    + intros (s & [= <-] & Hin). apply elem_of_union in Hin as [Hin|Hin].
      * apply elem_of_singleton in Hin. auto.
      * left. destruct (m !! k) as [s0|] eqn:E; simpl in Hin; [eauto|set_solver].
    + intros [(s & Hs & Hin)|[_ ->]]; eexists; split; eauto.
      * rewrite Hs. simpl. set_solver.
      * set_solver.
  - rewrite lookup_insert_ne by done. naive_solver.
Qed.

Lemma no_empty_sets_add_to k c m :
  no_empty_sets m → no_empty_sets (add_to k c m).
Proof.
  intros Hm k' s. unfold add_to. destruct (decide (k' = k)) as [->|Hne].
  - rewrite lookup_insert_eq. intros [= <-]. set_solver.
  - rewrite lookup_insert_ne by done. apply Hm.
Qed.

Lemma holds_discard_prune k c m k' c' :
  holds (discard_prune k c m) k' c' ↔ holds m k' c' ∧ ¬ (k' = k ∧ c' = c).
Proof.
  unfold holds, discard_prune. destruct (m !! k) as [s|] eqn:E.
  - destruct (decide (s ∖ {[c]} = ∅)) as [He|He].
    + destruct (decide (k' = k)) as [->|Hne].
      * rewrite lookup_delete_eq. split; [naive_solver|].
        intros ((s' & Hs' & Hin) & Hno). rewrite E in Hs'. simplify_eq.
        assert (c' ∈ s' ∖ {[c]}) as Hc by (set_solver). rewrite He in Hc.
        set_solver.
      * rewrite lookup_delete_ne by done. naive_solver.
    + destruct (decide (k' = k)) as [->|Hne].
      * rewrite lookup_insert_eq, E. split.
        -- intros (s' & [= <-] & Hin). split; [exists s|]; set_solver.
        -- intros ((s' & [= <-] & Hin) & Hno). eexists; split; eauto.
           set_solver.
      * rewrite lookup_insert_ne by done. naive_solver.
  - split; [|naive_solver]. intros (s & Hs & Hin). split; [eauto|].
    intros [-> _]. congruence.
Qed.

Lemma no_empty_sets_discard_prune k c m :
  no_empty_sets m → no_empty_sets (discard_prune k c m).
Proof.
  intros Hm k' s. unfold discard_prune. destruct (m !! k) as [s0|] eqn:E.
  - destruct (decide (s0 ∖ {[c]} = ∅)) as [He|He].
    + intros Hl. apply lookup_delete_Some in Hl as [_ Hl]. eauto.
    + destruct (decide (k' = k)) as [->|Hne].
      * rewrite lookup_insert_eq. congruence.
      * rewrite lookup_insert_ne by done. apply Hm.
  - apply Hm.
Qed.


(** ** The server registry *)

Section ServerRegistry.

Import Server.

Variable on_auth : gmap string string → py_result bool.
Variable on_auth_extract_user : gmap string string → py_result string.

Local Abbreviation auth := (auth_user on_auth on_auth_extract_user).
Local Abbreviation step := (dispatch on_auth on_auth_extract_user).

Lemma to_dict_platform md : to_dict md !! "platform" = Some (platform md).
Proof. reflexivity. Qed.

Lemma to_dict_api_key md : to_dict md !! "api_key" = Some (api_key md).
Proof. reflexivity. Qed.

Lemma auth_user_truthy md u : auth md = Some u → u ≠ "".
Proof.
  unfold auth_user. destruct (on_auth md) as [[]|]; try discriminate.
  destruct (on_auth_extract_user md) as [v|]; try discriminate.
  destruct (str_truthy v) eqn:E; try discriminate.
  intros [= <-]. by apply str_truthy_spec.
Qed.

Lemma well_formed_same_tables a b :
  same_tables a b → well_formed a → well_formed b.
Proof.
  destruct a, b. unfold same_tables, well_formed, registered, recorded_platform,
    platform_index_is_union, pruned, registered. simpl.
  intros (-> & -> & -> & ->). done.
Qed.

Lemma well_formed_invariant srv : well_formed srv → registry_invariant srv.
Proof.
  intros (H1 & H2 & H3 & H4). split; [|done].
  intros c u. split.
  - intros Hc. by apply H2.
  - intros (p & _ & Hr). by apply H1 in Hr as [? _].
Qed.

Lemma well_formed_init : well_formed init.
Proof.
  unfold well_formed, registered, recorded_platform, platform_index_is_union,
    pruned, registered, holds, no_empty_sets. simpl.
  split_and!; intros; simplify_map_eq; naive_solver.
Qed.

(** *** What the handlers do to the tables *)

Lemma connect_accepted srv event u :
  auth (to_dict (metadata event)) = Some u →
  let c := uuid (metadata event) in
  let p := platform (metadata event) in
  let srv' := _handle_connect_event on_auth on_auth_extract_user srv event in
  user_connections srv' =
    <[u := add_to p c (default ∅ (user_connections srv !! u))]>
      (user_connections srv) ∧
  platform_connections srv' = add_to p c (platform_connections srv) ∧
  connection_users srv' = <[c := u]> (connection_users srv) ∧
  connection_metadata srv' =
    <[c := to_dict (metadata event)]> (connection_metadata srv).
Proof.
  intros Hu. unfold _handle_connect_event, _authenticate_connection.
  rewrite Hu. simpl. done.
Qed.

Lemma connect_rejected srv event :
  auth (to_dict (metadata event)) = None →
  same_tables srv (_handle_connect_event on_auth on_auth_extract_user srv event).
Proof.
  intros Hu. unfold _handle_connect_event, _authenticate_connection.
  rewrite Hu. simpl. done.
Qed.

Lemma registered_after_insert srv srv' u p c u' p' c' :
  user_connections srv' =
    <[u := add_to p c (default ∅ (user_connections srv !! u))]>
      (user_connections srv) →
  registered srv' u' p' c' ↔
  registered srv u' p' c' ∨ (u' = u ∧ p' = p ∧ c' = c).
Proof.
  intros Huc. unfold registered. rewrite Huc.
  destruct (decide (u' = u)) as [->|Hne].
  - rewrite lookup_insert_eq. split.
    + intros (per & [= <-] & Hh). apply holds_add_to in Hh as [Hh|[-> ->]]; [|auto].
      left. destruct (user_connections srv !! u) as [per|]; simpl in Hh; [eauto|].
      destruct Hh as (s & Hs & _). by rewrite lookup_empty in Hs.
    + intros [(per & Hper & Hh)|(_ & -> & ->)]; eexists; (split; [done|]);
        apply holds_add_to; [|auto].
      left. by rewrite Hper.
  - rewrite lookup_insert_ne by done. naive_solver.
Qed.

Lemma recorded_after_insert srv srv' c md c' :
  connection_metadata srv' = <[c := to_dict md]> (connection_metadata srv) →
  recorded_platform srv' c' =
    if decide (c' = c) then Some (platform md) else recorded_platform srv c'.
Proof.
  intros Hcm. unfold recorded_platform. rewrite Hcm.
  destruct (decide (c' = c)) as [->|Hne].
  - by rewrite lookup_insert_eq.
  - by rewrite lookup_insert_ne.
Qed.

Lemma connect_preserves srv event :
  admissible on_auth on_auth_extract_user srv event = true →
  event_type event = CONNECT →
  well_formed srv →
  well_formed (_handle_connect_event on_auth on_auth_extract_user srv event).
Proof.
  intros Hadm Hty Hwf.
  destruct (auth (to_dict (metadata event))) as [u|] eqn:Hu;
    [|by eapply well_formed_same_tables; [apply connect_rejected|]].
  pose proof (auth_user_truthy _ _ Hu) as Hne.
  destruct (connect_accepted srv event u Hu) as (Huc & Hpc & Hcu & Hcm).
  set (srv' := _handle_connect_event _ _ srv event) in *. clearbody srv'.
  set (c := uuid (metadata event)) in *.
  set (p := platform (metadata event)) in *.
  assert (Hold : ∀ u', connection_users srv !! c = Some u' →
                       u' = u ∧ recorded_platform srv c = Some p).
  { intros u' Hc. unfold admissible in Hadm. rewrite Hty in Hadm.
    fold c in Hadm. rewrite Hc, Hu in Hadm.
    apply andb_true_iff in Hadm as [?%bool_decide_eq_true ?%bool_decide_eq_true].
    done. }
  destruct Hwf as (H1 & H2 & H3 & H4a & H4b).
  unfold well_formed, pruned. split_and!.
  - intros u' p' c' Hr. rewrite (recorded_after_insert _ _ _ _ _ Hcm), Hcu.
    apply (registered_after_insert _ _ _ _ _ _ _ _ Huc) in Hr
      as [Hr|(-> & -> & ->)].
    + destruct (H1 _ _ _ Hr) as [Ha Hb].
      destruct (decide (c' = c)) as [->|Hc].
      * rewrite lookup_insert_eq. destruct (Hold _ Ha) as [-> Hp].
        simpl. split; [done|]. unfold p in Hp. congruence.
      * by rewrite lookup_insert_ne.
    + rewrite lookup_insert_eq. by rewrite decide_True.
  - intros c' u'. rewrite Hcu. intros Hc'.
    destruct (decide (c' = c)) as [->|Hc].
    + rewrite lookup_insert_eq in Hc'. injection Hc' as <-. split; [done|].
      exists p. rewrite (recorded_after_insert _ _ _ _ _ Hcm), decide_True by done.
      split; [done|]. apply (registered_after_insert _ _ _ _ _ _ _ _ Huc). auto.
    + rewrite lookup_insert_ne in Hc' by done.
      destruct (H2 _ _ Hc') as (? & p' & ? & ?). split; [done|]. exists p'.
      rewrite (recorded_after_insert _ _ _ _ _ Hcm), decide_False by done.
      split; [done|]. apply (registered_after_insert _ _ _ _ _ _ _ _ Huc). auto.
  - intros p' c'. rewrite Hpc, holds_add_to, (H3 p' c'). split.
    + intros [[u' Hr]|[-> ->]].
      * exists u'. apply (registered_after_insert _ _ _ _ _ _ _ _ Huc). auto.
      * exists u. apply (registered_after_insert _ _ _ _ _ _ _ _ Huc). auto.
    + intros [u' Hr].
      apply (registered_after_insert _ _ _ _ _ _ _ _ Huc) in Hr
        as [Hr|(-> & -> & ->)]; eauto.
  - intros u' per. rewrite Huc. destruct (decide (u' = u)) as [->|Hu'].
    + rewrite lookup_insert_eq. intros [= <-]. split.
      * unfold add_to. apply insert_non_empty.
      * apply no_empty_sets_add_to.
        destruct (user_connections srv !! u) as [per|] eqn:E; simpl.
        -- by apply (H4a u).
        -- intros k s. by rewrite lookup_empty.
    + rewrite lookup_insert_ne by done. apply H4a.
  - rewrite Hpc. by apply no_empty_sets_add_to.
Qed.

Lemma disconnect_unknown srv event :
  connection_users srv !! uuid (metadata event) = None →
  _handle_disconnect_event srv event = srv.
Proof. intros Hc. unfold _handle_disconnect_event. by rewrite Hc. Qed.

Lemma disconnect_known srv event u p per :
  connection_users srv !! uuid (metadata event) = Some u →
  u ≠ "" →
  user_connections srv !! u = Some per →
  recorded_platform srv (uuid (metadata event)) = Some p →
  let c := uuid (metadata event) in
  let srv' := _handle_disconnect_event srv event in
  user_connections srv' =
    (if decide (discard_prune p c per = ∅)
     then delete u (user_connections srv)
     else <[u := discard_prune p c per]> (user_connections srv)) ∧
  platform_connections srv' =
    discard_prune (platform (metadata event)) c (platform_connections srv) ∧
  connection_users srv' = delete c (connection_users srv) ∧
  connection_metadata srv' = delete c (connection_metadata srv).
Proof.
  intros Hc Hu Hper Hp. unfold _handle_disconnect_event.
  rewrite Hc. apply str_truthy_spec in Hu. rewrite Hu, Hper.
  unfold recorded_platform in Hp.
  destruct (connection_metadata srv !! uuid (metadata event)) as [md|];
    simpl in Hp; [|done].
  simpl. rewrite Hp. simpl. done.
Qed.

Lemma registered_after_discard srv srv' u p c per u' p' c' :
  user_connections srv !! u = Some per →
  user_connections srv' =
    (if decide (discard_prune p c per = ∅)
     then delete u (user_connections srv)
     else <[u := discard_prune p c per]> (user_connections srv)) →
  registered srv' u' p' c' ↔
  registered srv u' p' c' ∧ ¬ (u' = u ∧ p' = p ∧ c' = c).
Proof.
  intros Hper Huc. unfold registered. rewrite Huc.
  pose proof (holds_discard_prune p c per p' c') as Hh.
  destruct (decide (discard_prune p c per = ∅)) as [He|He].
  - rewrite He in Hh.
    assert (¬ holds (∅ : gmap string (gset string)) p' c') as Hno.
    { intros (s & Hs & _). by rewrite lookup_empty in Hs. }
    destruct (decide (u' = u)) as [->|Hne].
    + rewrite lookup_delete_eq. split; [by intros (? & ? & _)|].
      intros ((per' & Hper' & Hin) & Hneq). rewrite Hper in Hper'.
      injection Hper' as <-. destruct Hno. apply Hh. split; [done|].
      intros [-> ->]. by apply Hneq.
    + rewrite lookup_delete_ne by done. naive_solver.
  - destruct (decide (u' = u)) as [->|Hne].
    + rewrite lookup_insert_eq, Hper. split.
      * intros (per' & [= <-] & Hin). apply Hh in Hin as [Hin Hneq].
        split; [eauto|]. intros (_ & -> & ->). by apply Hneq.
      * intros ((per' & [= <-] & Hin) & Hneq). eexists; split; [done|].
        apply Hh. split; [done|]. intros [-> ->]. by apply Hneq.
    + rewrite lookup_insert_ne by done. naive_solver.
Qed.

Lemma recorded_after_delete srv srv' c c' :
  connection_metadata srv' = delete c (connection_metadata srv) →
  recorded_platform srv' c' =
    if decide (c' = c) then None else recorded_platform srv c'.
Proof.
  intros Hcm. unfold recorded_platform. rewrite Hcm.
  destruct (decide (c' = c)) as [->|Hne].
  - by rewrite lookup_delete_eq.
  - by rewrite lookup_delete_ne.
Qed.

Lemma disconnect_preserves srv event :
  admissible on_auth on_auth_extract_user srv event = true →
  event_type event = DISCONNECT →
  well_formed srv →
  well_formed (_handle_disconnect_event srv event).
Proof.
  intros Hadm Hty Hwf.
  destruct (connection_users srv !! uuid (metadata event)) as [u|] eqn:Hc;
    [|by rewrite disconnect_unknown].
  pose proof Hwf as (H1 & H2 & H3 & H4a & H4b).
  destruct (H2 _ _ Hc) as (Hu & p & Hp & Hreg).
  pose proof Hreg as (per & Hper & Hin).
  assert (platform (metadata event) = p) as Hev.
  { unfold admissible in Hadm. rewrite Hty, Hp in Hadm.
    by apply bool_decide_eq_true in Hadm. }
  destruct (disconnect_known srv event u p per Hc Hu Hper Hp)
    as (Huc & Hpc & Hcu & Hcm).
  rewrite Hev in Hpc.
  set (srv' := _handle_disconnect_event srv event) in *. clearbody srv'.
  set (c := uuid (metadata event)) in *. clearbody c.
  unfold well_formed, pruned. split_and!.
  - intros u' p' c' Hr.
    apply (registered_after_discard _ _ _ _ _ _ _ _ _ Hper Huc) in Hr
      as [Hr Hneq].
    destruct (H1 _ _ _ Hr) as [Ha Hb].
    assert (c' ≠ c) as Hne.
    { intros ->. apply Hneq. split_and!; congruence. }
    rewrite Hcu, (recorded_after_delete _ _ _ _ Hcm), decide_False by done.
    by rewrite lookup_delete_ne.
  - intros c' u'. rewrite Hcu. intros [Hne Hc']%lookup_delete_Some.
    destruct (H2 _ _ Hc') as (? & p' & ? & ?). split; [done|]. exists p'.
    rewrite (recorded_after_delete _ _ _ _ Hcm), decide_False by done.
    split; [done|].
    apply (registered_after_discard _ _ _ _ _ _ _ _ _ Hper Huc).
    split; [done|]. intros (_ & _ & ->). done.
  - intros p' c'. rewrite Hpc, holds_discard_prune, (H3 p' c'). split.
    + intros [[u' Hr] Hneq]. exists u'.
      apply (registered_after_discard _ _ _ _ _ _ _ _ _ Hper Huc).
      split; [done|]. intros (_ & -> & ->). by apply Hneq.
    + intros [u' Hr].
      apply (registered_after_discard _ _ _ _ _ _ _ _ _ Hper Huc) in Hr
        as [Hr Hneq].
      split; [eauto|]. intros [-> ->]. apply Hneq.
      destruct (H1 _ _ _ Hr) as [Ha _]. split_and!; congruence.
  - intros u' per'. rewrite Huc.
    destruct (decide (discard_prune p c per = ∅)) as [He|He].
    + intros [_ Hl]%lookup_delete_Some. by apply (H4a u').
    + destruct (decide (u' = u)) as [->|Hne].
      * rewrite lookup_insert_eq. intros [= <-]. split; [done|].
        apply no_empty_sets_discard_prune. by apply (H4a u).
      * rewrite lookup_insert_ne by done. apply H4a.
  - rewrite Hpc. by apply no_empty_sets_discard_prune.
Qed.

Lemma dispatch_preserves srv event :
  admissible on_auth on_auth_extract_user srv event = true →
  well_formed srv → well_formed (step srv event).
Proof.
  intros Hadm Hwf. unfold dispatch.
  destruct (event_type event) eqn:Hty.
  - by apply connect_preserves.
  - by apply disconnect_preserves.
  - eapply well_formed_same_tables; [|done]. by destruct srv.
Qed.

Lemma run_preserves events : ∀ srv,
  admissible_run on_auth on_auth_extract_user srv events = true →
  well_formed srv →
  well_formed (run on_auth on_auth_extract_user srv events).
Proof.
  induction events as [|event rest IH]; intros srv Hadm Hwf; [done|].
  simpl in Hadm. apply andb_true_iff in Hadm as [Hev Hrest].
  apply (IH _ Hrest). by apply dispatch_preserves.
Qed.

Lemma admissible_run_take events : ∀ srv n,
  admissible_run on_auth on_auth_extract_user srv events = true →
  admissible_run on_auth on_auth_extract_user srv (take n events) = true.
Proof.
  induction events as [|event rest IH]; intros srv [|n] Hadm; try done.
  simpl in *. apply andb_true_iff in Hadm as [Hev Hrest].
  rewrite Hev. simpl. by apply IH.
Qed.

(** *** Sending *)

Section Sending.

Variable net_send : string → bool.

Lemma send_loop_spec targets : ∀ srv (results : gmap string bool),
  (∀ c, (send_loop net_send targets (srv, results)).2 !! c =
        if decide (c ∈ targets) then Some (net_send c) else results !! c) ∧
  driver_calls (send_loop net_send targets (srv, results)).1 =
    driver_calls srv ++ (driver_send <$> targets) ∧
  same_tables srv (send_loop net_send targets (srv, results)).1.
Proof.
  induction targets as [|t targets IH]; intros srv results.
  - simpl. split_and!; [done|by rewrite app_nil_r|done].
  - destruct (IH (call_driver (driver_send t) srv) (<[t := net_send t]> results))
      as (Hl & Hc & Ht).
    split_and!.
    + intros c. unfold send_loop in *. simpl. rewrite Hl.
      destruct (decide (c ∈ targets)) as [Hin|Hin].
      * rewrite decide_True; [done|]. apply elem_of_cons. by right.
      * destruct (decide (c = t)) as [->|Hne].
        -- rewrite lookup_insert_eq, decide_True; [done|]. apply elem_of_cons. by left.
        -- rewrite lookup_insert_ne by done. rewrite decide_False; [done|].
           intros [?|?]%elem_of_cons; done.
    + unfold send_loop in *. simpl. rewrite Hc. simpl. by rewrite <- app_assoc.
    + unfold send_loop in *. simpl. destruct Ht as (? & ? & ? & ?). by split_and!.
Qed.

Lemma send_to_spec targets srv :
  (∀ c, (send_to net_send targets srv).2 !! c =
        if decide (c ∈ targets) then Some (net_send c) else None) ∧
  driver_calls (send_to net_send targets srv).1 =
    driver_calls srv ++ (driver_send <$> targets) ∧
  same_tables srv (send_to net_send targets srv).1.
Proof.
  destruct (send_loop_spec targets srv ∅) as (Hl & Hc & Ht).
  split_and!; [|done|done]. intros c. unfold send_to. rewrite Hl.
  by rewrite lookup_empty.
Qed.

(** C2. [send_message] resolves the target user with [on_auth_extract_user]
    and looks up [user_connections[user][platform]].  When the user has no
    entry, or no connection set on the message's platform (or the callback
    raises), the call returns an empty result map without raising and sends
    nothing.  Otherwise it returns normally with a map whose keys are
    exactly the connections of that set, each mapped to the outcome of its
    send, after one send to each of them. *)
Theorem send_message_by_identity srv message :
  let result := send_message on_auth_extract_user net_send srv message in
  match on_auth_extract_user {["api_key" := get_api_key message]} with
  | Raise _ => result = (srv, Ok ∅)
  | Ok user =>
      match user_connections srv !! user ≫= (.!! get_platform message) with
      | None => result = (srv, Ok ∅)
      | Some targets =>
          ∃ results,
            result.2 = Ok results ∧
            dom results = targets ∧
            (∀ c, c ∈ targets → results !! c = Some (net_send c)) ∧
            driver_calls result.1 =
              driver_calls srv ++ (driver_send <$> elements targets) ∧
            same_tables srv result.1
      end
  end.
Proof.
  unfold send_message.
  destruct (on_auth_extract_user _) as [user|e]; [|done].
  destruct (user_connections srv !! user) as [per|]; simpl; [|done].
  destruct (per !! get_platform message) as [targets|]; simpl; [|done].
  destruct (send_to_spec (elements targets) srv) as (Hl & Hc & Ht).
  destruct (send_to net_send (elements targets) srv) as [srv' results].
  simpl in *. exists results. split_and!; try done.
  - apply set_eq. intros c. rewrite elem_of_dom, Hl.
    destruct (decide (c ∈ elements targets)) as [Hin|Hin].
    + split; [intros _; by apply elem_of_elements|eauto].
    + split; [by intros [? ?]|]. intros Hin'. by apply elem_of_elements in Hin'.
  - intros c Hin. rewrite Hl, decide_True; [done|]. by apply elem_of_elements.
Qed.

Lemma custom_send_spec srv u p c targets :
  custom_targets srv u p c = Ok targets →
  ∃ results,
    send_custom_message net_send srv u p c =
      ((send_to net_send (py_iter targets) srv).1, Ok results) ∧
    (∀ k, results !! k =
          if decide (k ∈ py_iter targets) then Some (net_send k) else None).
Proof.
  intros Ht. unfold send_custom_message. rewrite Ht.
  destruct (send_to_spec (py_iter targets) srv) as (Hl & _).
  destruct (send_to net_send (py_iter targets) srv) as [srv' results].
  by exists results.
Qed.

End Sending.

(** C1 (amended).  Starting from the empty registry, take any sequence of
    dispatched events in which no [CONNECT] arrives for a connection id
    that is still registered under another user or platform, and every
    [DISCONNECT] of a registered connection names the platform it
    registered with.  Then after each event [connection_users[c] == u]
    holds exactly when [c ∈ user_connections[u][p]] for the platform [p]
    recorded in [connection_metadata[c]], [platform_connections[p]] is the
    union over all users of [user_connections[u][p]], and no empty user
    entry, connection set or platform entry is left. *)
Theorem registry_invariant_after_each_event events n :
  admissible_run on_auth on_auth_extract_user init events = true →
  registry_invariant (run on_auth on_auth_extract_user init (take n events)).
Proof.
  intros Hadm. apply well_formed_invariant, run_preserves.
  - by apply admissible_run_take.
  - apply well_formed_init.
Qed.

End ServerRegistry.

(** *** Concrete runs of the server *)

(** The invariant after the first four of the sample events. *)
Lemma registry_invariant_after_each_event_witness :
  Server.registry_invariant (default_run Server.init (take 4 sample_events)).
Proof.
  apply (registry_invariant_after_each_event
           Server.default_auth Server.default_extract_user sample_events 4).
  vm_compute. reflexivity.
Defined.

(** C1, as stated, fails: a second handshake that presents the id of a
    connection registered for another user leaves that id in the first
    user's set while [connection_users] names the second user. *)
Lemma registry_invariant_broken_by_reused_uuid :
  ¬ Server.registry_invariant
      (default_run Server.init
         [connect_event "c" "u1" "qq"; connect_event "c" "u2" "qq"]).
Proof.
  intros (Hcons & _).
  assert (Server.connection_users
            (default_run Server.init
               [connect_event "c" "u1" "qq"; connect_event "c" "u2" "qq"])
            !! "c" = Some "u1") as Hc.
  { apply Hcons. exists "qq". split; [vm_compute; reflexivity|].
    exists {["qq" := {["c"]}]}. split; [vm_compute; reflexivity|].
    exists {["c"]}. split; [vm_compute; reflexivity|].
    by apply elem_of_singleton. }
  vm_compute in Hc. discriminate.
Qed.

(** The second proviso is needed as well: a [DISCONNECT] naming another
    platform than the one registered leaves the connection in the platform
    index. *)
Example registry_invariant_broken_by_platform_mismatch :
  ¬ Server.registry_invariant
      (default_run Server.init
         [connect_event "c" "u1" "qq"; disconnect_event "c" "u1" "wechat"]).
Proof.
  intros (_ & Hidx & _).
  destruct (Hidx "qq" "c") as [Hreg _].
  destruct Hreg as (u & per & Hper & _).
  - exists {["c"]}. split; [vm_compute; reflexivity|].
    by apply elem_of_singleton.
  - assert (Server.user_connections
              (default_run Server.init
                 [connect_event "c" "u1" "qq"; disconnect_event "c" "u1" "wechat"])
            = ∅) as He by (vm_compute; reflexivity).
    rewrite He in Hper. by rewrite lookup_empty in Hper.
Qed.

(** The scenario of the specification: [u1] connected on [qq] and on
    [wechat]; a message for [u1] on [qq] goes to that connection alone. *)
Example send_message_reaches_one_platform :
  let srv := default_run Server.init
               [connect_event "c1" "u1" "qq"; connect_event "c2" "u1" "wechat"] in
  let result := Server.send_message Server.default_extract_user (λ _, true) srv
                  (Server.mkMessage "u1" "qq") in
  result.2 = Ok {["c1" := true]} ∧
  Server.driver_calls result.1 = [Server.driver_send "c1"].
Proof. vm_compute. done. Qed.

(** C3.  Of the addressing modes of [send_custom_message], two behave as
    stated: an explicit [connection_uuid] is the only target, and without
    [connection_uuid] and [target_user] nothing is sent.  The two modes that
    go through [target_user] do not: the per-user entry the connect handler
    stores is a dictionary from platform to connections, so a send by user
    alone iterates over its keys and addresses the platform names, and a
    send by user and platform raises [TypeError] on [dict & set].  The last
    conjunct runs both on a server with the single connection [c1] of user
    [u1] on platform [qq]. *)
Theorem send_custom_message_addressing :
  (∀ net_send srv u p c, c ≠ "" →
     (Server.send_custom_message net_send srv u p (Some c)).2
     = Ok {[c := net_send c]}) ∧
  (∀ net_send srv p,
     Server.send_custom_message net_send srv None p None = (srv, Ok ∅)) ∧
  (∀ net_send srv u per, u ≠ "" →
     Server.user_connections srv !! u = Some per →
     ∃ results,
       (Server.send_custom_message net_send srv (Some u) None None).2 = Ok results ∧
       dom results = dom per) ∧
  (∀ net_send srv u p per, u ≠ "" → p ≠ "" →
     Server.user_connections srv !! u = Some per →
     (Server.send_custom_message net_send srv (Some u) (Some p) None).2
     = Raise "TypeError") ∧
  (let srv := default_run Server.init [connect_event "c1" "u1" "qq"] in
   (Server.send_custom_message (λ _, true) srv (Some "u1") None None).2
   = Ok {["qq" := true]} ∧
   Server.driver_calls
     (Server.send_custom_message (λ _, true) srv (Some "u1") None None).1
   = [Server.driver_send "qq"] ∧
   (Server.send_custom_message (λ _, true) srv (Some "u1") (Some "qq") None).2
   = Raise "TypeError").
Proof.
  split_and!.
  - intros net_send srv u p c Hc. apply str_truthy_spec in Hc.
    destruct (custom_send_spec net_send srv u p (Some c) (Server.PySet {[c]}))
      as (results & -> & Hl).
    { unfold Server.custom_targets. simpl. by rewrite Hc. }
    simpl. f_equal. apply map_eq. intros k. rewrite Hl. simpl.
    rewrite elements_singleton.
    destruct (decide (k = c)) as [->|Hne].
    + rewrite lookup_singleton_eq, decide_True; [done|]. by apply list_elem_of_singleton.
    + rewrite lookup_singleton_ne by done. rewrite decide_False; [done|].
      by intros ?%list_elem_of_singleton.
  - intros net_send srv p. unfold Server.send_custom_message, Server.custom_targets.
    simpl. by rewrite elements_empty.
  - intros net_send srv u per Hu Hper. apply str_truthy_spec in Hu.
    destruct (custom_send_spec net_send srv (Some u) None None (Server.PyDict per))
      as (results & -> & Hl).
    { unfold Server.custom_targets. simpl. by rewrite Hu, Hper. }
    exists results. split; [done|]. apply set_eq. intros k.
    rewrite !elem_of_dom, Hl. simpl.
    destruct (decide (k ∈ (map_to_list per).*1)) as [Hin|Hin].
    + split; [intros _|eauto]. apply list_elem_of_fmap in Hin as ([k' v] & -> & Hin).
      apply elem_of_map_to_list in Hin. eauto.
    + split; [by intros [? ?]|]. intros [v Hv]. destruct Hin.
      apply list_elem_of_fmap. exists (k, v). split; [done|].
      by apply elem_of_map_to_list.
  - intros net_send srv u p per Hu Hp Hper.
    apply str_truthy_spec in Hu. apply str_truthy_spec in Hp.
    unfold Server.send_custom_message, Server.custom_targets. simpl.
    by rewrite Hu, Hp, Hper.
  - vm_compute. done.
Qed.

(** C8.  [stop] on a started server with two registered connections: the
    three tables it clears are empty and [get_connection_count] is zero,
    but [connection_metadata] still holds both connections and the
    [current_connections] counter of the statistics still reads two. *)
Theorem stop_leaves_metadata_and_counter :
  let srv := Server.stop
               (default_run (Server.start Server.init)
                  [connect_event "c1" "u1" "qq"; connect_event "c2" "u2" "qq"]) in
  Server.user_connections srv = ∅ ∧
  Server.platform_connections srv = ∅ ∧
  Server.connection_users srv = ∅ ∧
  Server.get_connection_count srv = 0 ∧
  Server.running srv = false ∧
  Server.recorded_platform srv "c1" = Some "qq" ∧
  size (Server.connection_metadata srv) = 2 ∧
  Server.current_connections (Server.stats srv) = 2.
Proof. vm_compute. done. Qed.

(** [stop] in general: the metadata table and the statistics are not
    touched, whatever was registered. *)
Lemma stop_running srv :
  Server.running srv = true →
  Server.user_connections (Server.stop srv) = ∅ ∧
  Server.platform_connections (Server.stop srv) = ∅ ∧
  Server.connection_users (Server.stop srv) = ∅ ∧
  Server.connection_metadata (Server.stop srv) = Server.connection_metadata srv ∧
  Server.stats (Server.stop srv) = Server.stats srv.
Proof. intros Hr. unfold Server.stop. rewrite Hr. done. Qed.

(** The handlers keep [current_connections] equal to the size of
    [connection_users]; [stop] is where the two part. *)
Lemma disconnect_updates_counter srv event u :
  Server.connection_users srv !! Server.uuid (Server.metadata event) = Some u →
  u ≠ "" →
  let srv' := Server._handle_disconnect_event srv event in
  Server.current_connections (Server.stats srv') =
    size (Server.connection_users srv') ∧
  Server.connection_metadata srv' !! Server.uuid (Server.metadata event) = None.
Proof.
  intros Hc Hu. unfold Server._handle_disconnect_event. rewrite Hc.
  apply str_truthy_spec in Hu. rewrite Hu. simpl.
  split; [done|]. apply lookup_delete_eq.
Qed.

(** ** The client: identity headers *)

Section ClientHeaders.

Import Client.

(** C10.  For a [ConnectionConfig] whose [headers] is a dictionary,
    [get_headers] returns a new dictionary in which [x-uuid], [x-apikey] and
    [x-platform] are the configuration's [connection_uuid], [api_key] and
    [platform], whatever the stored headers hold under these keys; every
    other key is as stored; and the stored dictionary, like every
    dictionary that existed before the call, is left as it was. *)
Theorem get_headers_identity_wins (config : ConnectionConfig) (σ : store)
    (h : gmap string string) :
  σ !! headers config = Some h →
  ∃ r σ' h',
    get_headers config σ = Ok (r, σ') ∧
    σ' !! r = Some h' ∧
    h' !! "x-uuid" = Some (connection_uuid config) ∧
    h' !! "x-apikey" = Some (api_key config) ∧
    h' !! "x-platform" = Some (platform config) ∧
    (∀ k, k ≠ "x-uuid" → k ≠ "x-apikey" → k ≠ "x-platform" →
          h' !! k = h !! k) ∧
    r ≠ headers config ∧
    σ' !! headers config = Some h ∧
    (∀ r0, r0 ∈ dom σ → σ' !! r0 = σ !! r0).
Proof.
  intros Hh. unfold get_headers. rewrite Hh.
  set (r := fresh (dom σ)).
  assert (r ∉ dom σ) as Hfresh by apply is_fresh.
  assert (r ≠ headers config) as Hne.
  { intros ->. apply Hfresh. apply elem_of_dom. eauto. }
  set (h' := <["x-platform" := platform config]>
               (<["x-apikey" := api_key config]>
                 (<["x-uuid" := connection_uuid config]> h))).
  exists r, (<[r := h']> (<[r := h]> σ)), h'. split.
  { cbv zeta. fold r. f_equal. f_equal. apply map_eq. intros r0.
    destruct (decide (r0 = r)) as [->|Hr0].
    - by rewrite lookup_alter_eq, !lookup_insert_eq.
    - by rewrite lookup_alter_ne, !lookup_insert_ne. }
  split; [by rewrite lookup_insert_eq|]. unfold h'.
  split_and!.
  - by rewrite lookup_insert_ne, lookup_insert_ne, lookup_insert_eq.
  - by rewrite lookup_insert_ne, lookup_insert_eq.
  - by rewrite lookup_insert_eq.
  - intros k H1 H2 H3. by rewrite !lookup_insert_ne.
  - done.
  - by rewrite !lookup_insert_ne.
  - intros r0 Hr0. assert (r ≠ r0) by (intros ->; done).
    by rewrite !lookup_insert_ne.
Qed.

End ClientHeaders.

(** The headers of the sample configuration: the stale entries of the
    stored dictionary are overridden in the copy and kept in the original. *)
Lemma get_headers_identity_wins_witness :
  ∃ r σ' h',
    Client.get_headers sample_config sample_store = Ok (r, σ') ∧
    σ' !! r = Some h' ∧
    h' !! "x-uuid" = Some "uuid-1" ∧
    h' !! "x-apikey" = Some "key-1" ∧
    h' !! "x-platform" = Some "qq" ∧
    (∀ k, k ≠ "x-uuid" → k ≠ "x-apikey" → k ≠ "x-platform" →
          h' !! k = ({[ "x-apikey" := "stale-key"; "x-uuid" := "stale-uuid";
                        "user-agent" := "bot" ]} : gmap string string) !! k) ∧
    r ≠ 0 ∧
    σ' !! 0 = Some {[ "x-apikey" := "stale-key"; "x-uuid" := "stale-uuid";
                      "user-agent" := "bot" ]} ∧
    (∀ r0, r0 ∈ dom sample_store → σ' !! r0 = sample_store !! r0).
Proof.
  apply (get_headers_identity_wins sample_config sample_store).
  reflexivity.
Defined.

(** The defaults that [ClientConfig.ensure_defaults] writes into the shared
    header dictionary do not outlive a later change of the API key: the
    handshake carries the key of the configuration. *)
Example get_headers_after_ensure_defaults :
  let client_config :=
    WsConfig.mkClientConfig "ws://localhost:18040/ws" "old-key" "qq"
                            (Some "uuid-1") 5 1 30 0 in
  let σ := WsConfig.ensure_defaults client_config {[ 0 := ∅ ]} in
  let renewed :=
    WsConfig.mkClientConfig "ws://localhost:18040/ws" "new-key" "qq"
                            (Some "uuid-1") 5 1 30 0 in
  σ !! 0 = Some {[ "x-apikey" := "old-key"; "x-platform" := "qq" ]} ∧
  ∃ r σ',
    Client.get_headers (Client.of_client_config renewed "uuid-1") σ = Ok (r, σ') ∧
    (σ' !! r ≫= (.!! "x-apikey")) = Some "new-key" ∧
    (σ' !! 0 ≫= (.!! "x-apikey")) = Some "old-key".
Proof.
  split; [vm_compute; reflexivity|].
  eexists _, _. split; [reflexivity|]. split; vm_compute; reflexivity.
Qed.

(** ** The client: target resolution *)

Section TargetResolution.

Import Client.

Lemma first_connection_spec test items :
  match first_connection test items with
  | Some uuid => first_satisfying test items uuid
  | None => none_satisfying test items
  end.
Proof.
  induction items as [|[k c] items IH]; simpl.
  - intros k c Hin. by apply elem_of_nil in Hin.
  - destruct (test k c) eqn:Ht.
    + exists [], c, items. split_and!; [done|done|].
      intros k' c' Hin. by apply elem_of_nil in Hin.
    + destruct (first_connection test items) as [uuid|].
      * destruct IH as (before & config & after & -> & Hu & Hb).
        exists ((k, c) :: before), config, after. split_and!; [done|done|].
        intros k' c' [[= -> ->]|Hin]%elem_of_cons; [done|by apply Hb].
      * intros k' c' [[= -> ->]|Hin]%elem_of_cons; [done|by apply IH].
Qed.

Lemma is_connected_spec drv uuid :
  is_connected drv uuid = true ↔ connection_states drv !! uuid = Some connected.
Proof.
  unfold is_connected.
  destruct (connection_states drv !! uuid) as [[]|]; split; congruence.
Qed.

Lemma exact_match_spec drv key pf uuid config :
  exact_match drv key pf uuid config = true ↔
  api_key config = key ∧ platform config = pf ∧
  connection_states drv !! uuid = Some connected.
Proof.
  unfold exact_match.
  rewrite !andb_true_iff, !String.eqb_eq, is_connected_spec. tauto.
Qed.

Lemma api_key_match_spec drv key uuid config :
  api_key_match drv key uuid config = true ↔
  api_key config = key ∧ connection_states drv !! uuid = Some connected.
Proof.
  unfold api_key_match.
  rewrite !andb_true_iff, !String.eqb_eq, is_connected_spec. tauto.
Qed.

Lemma platform_match_spec drv pf uuid config :
  platform_match drv pf uuid config = true ↔
  platform config = pf ∧ connection_states drv !! uuid = Some connected.
Proof.
  unfold platform_match.
  rewrite !andb_true_iff, !String.eqb_eq, is_connected_spec. tauto.
Qed.

(** A first match of a test is the first connection of which the property
    the test decides holds, and the loop finds nothing exactly when the
    property holds nowhere in the table. *)
Lemma first_connection_where test (P : string → ConnectionConfig → Prop) items :
  (∀ k c, test k c = true ↔ P k c) →
  (∀ uuid, first_connection test items = Some uuid ↔ first_where P items uuid) ∧
  (first_connection test items = None ↔ nowhere P items).
Proof.
  intros Htest. induction items as [|[k c] items [IH1 IH2]]; simpl.
  - split.
    + intros uuid. split; [done|].
      intros (before & config & after & Heq & _). by destruct before.
    + split; [|done]. intros _ k c Hin. by apply elem_of_nil in Hin.
  - destruct (test k c) eqn:Ht.
    + assert (P k c) as Hp by by apply Htest.
      split.
      * intros uuid. split.
        -- intros [= <-]. exists [], c, items. split_and!; [done|done|].
           intros k' c' Hin. by apply elem_of_nil in Hin.
        -- intros (before & config & after & Heq & _ & Hb).
           destruct before as [|[k' c'] before]; simpl in Heq.
           ++ by injection Heq as -> _ _.
           ++ injection Heq as -> -> _. destruct (Hb k' c'); [by left|done].
      * split; [done|]. intros Hn. destruct (Hn k c); [by left|done].
    + assert (¬ P k c) as Hp.
      { intros Hp%Htest. congruence. }
      split.
      * intros uuid. rewrite IH1. split.
        -- intros (before & config & after & -> & Hu & Hb).
           exists ((k, c) :: before), config, after. split_and!; [done|done|].
           intros k' c' [[= -> ->]|Hin]%elem_of_cons; [done|by apply Hb].
        -- intros (before & config & after & Heq & Hu & Hb).
           destruct before as [|[k' c'] before]; simpl in Heq.
           ++ injection Heq as -> -> _. done.
           ++ injection Heq as -> -> ->.
              exists before, config, after. split_and!; [done|done|].
              intros k0 c0 Hin. apply Hb. by right.
      * rewrite IH2. split.
        -- intros Hn k' c' [[= -> ->]|Hin]%elem_of_cons; [done|by apply Hn].
        -- intros Hn k' c' Hin. apply Hn. by right.
Qed.

(** C6.  [_find_connection_for_target] answers with a connection exactly
    when it is the first connection of the table, in table order, whose
    API key and platform are both the target's and whose state is
    [connected]; or, there being none such, the first whose API key is the
    target's and whose state is [connected]; or, there being none such
    either, the first whose platform is the target's and whose state is
    [connected].  It answers [None] exactly when no connection of the
    table is in any of the three tiers. *)
Theorem find_connection_three_tiers drv key pf :
  let table := connections drv in
  let found := _find_connection_for_target drv key pf in
  (∀ uuid,
     found = Some uuid ↔
     first_where (tier_exact drv key pf) table uuid ∨
     (nowhere (tier_exact drv key pf) table ∧
      first_where (tier_api_key drv key) table uuid) ∨
     (nowhere (tier_exact drv key pf) table ∧
      nowhere (tier_api_key drv key) table ∧
      first_where (tier_platform drv pf) table uuid)) ∧
  (found = None ↔
   nowhere (tier_exact drv key pf) table ∧
   nowhere (tier_api_key drv key) table ∧
   nowhere (tier_platform drv pf) table).
Proof.
  cbv zeta. unfold _find_connection_for_target.
  destruct (first_connection_where (exact_match drv key pf)
              (tier_exact drv key pf) (connections drv)) as [E1 E2];
    [intros k c; apply exact_match_spec|].
  destruct (first_connection_where (api_key_match drv key)
              (tier_api_key drv key) (connections drv)) as [A1 A2];
    [intros k c; apply api_key_match_spec|].
  destruct (first_connection_where (platform_match drv pf)
              (tier_platform drv pf) (connections drv)) as [P1 P2];
    [intros k c; apply platform_match_spec|].
  destruct (first_connection (exact_match drv key pf) _) as [u1|].
  { split.
    - intros uuid. rewrite E1. split; [by left|].
      intros [Hf|[[Hn _]|[Hn _]]]; [done|by apply E2 in Hn..].
    - split; [done|]. intros [Hn _]. by apply E2 in Hn. }
  assert (nowhere (tier_exact drv key pf) (connections drv)) as N1
    by by apply E2.
  destruct (first_connection (api_key_match drv key) _) as [u2|].
  { split.
    - intros uuid. rewrite A1. split; [by right; left|].
      intros [Hf|[[_ Hf]|(_ & Hn & _)]];
        [by apply E1 in Hf|done|by apply A2 in Hn].
    - split; [done|]. intros (_ & Hn & _). by apply A2 in Hn. }
  assert (nowhere (tier_api_key drv key) (connections drv)) as N2
    by by apply A2.
  split.
  - intros uuid. rewrite P1. split; [by right; right|].
    intros [Hf|[[_ Hf]|(_ & _ & Hf)]];
      [by apply E1 in Hf|by apply A1 in Hf|done].
  - rewrite P2. split; [done|]. by intros (_ & _ & Hn).
Qed.

End TargetResolution.

(** Two connections share the API key [u1]; only the [wechat] one is
    connected, so a message for [u1] on [qq] falls back to it, and a
    message for an unknown key on [qq] finds nothing. *)
Example find_connection_falls_back :
  let drv :=
    {| Client.connections :=
         [("a", Client.mkConfig "ws://h" "u1" "qq" "a" 0 5 1 30);
          ("b", Client.mkConfig "ws://h" "u1" "wechat" "b" 0 5 1 30);
          ("c", Client.mkConfig "ws://h" "u2" "wechat" "c" 0 5 1 30)];
       Client.active_connections := {["b"; "c"]};
       Client.connection_states :=
         {["a" := Client.disconnected; "b" := Client.connected;
           "c" := Client.connected]};
       Client.event_queue := Some [];
       Client.running := true; Client.shutdown := false;
       Client.stats := Client.stats Client.init;
       Client.effects := [] |} in
  Client._find_connection_for_target drv "u1" "wechat" = Some "b" ∧
  Client._find_connection_for_target drv "u1" "qq" = Some "b" ∧
  Client._find_connection_for_target drv "u3" "wechat" = Some "b" ∧
  Client._find_connection_for_target drv "u2" "qq" = Some "c" ∧
  Client._find_connection_for_target drv "u3" "qq" = None.
Proof. vm_compute. done. Qed.

(** ** The client: handling a received frame *)

Section Frames.

Import Client.

Variable json_loads : string → Loaded.
Variable dumps_size : json → Z.

Local Abbreviation handle := (_handle_message json_loads dumps_size).
Local Abbreviation send_ack := (_send_ack dumps_size).




Lemma send_event_enqueues ty uuid data err now drv q config :
  event_queue drv = Some q →
  lookup_connection uuid (connections drv) = Some config →
  event_queue (_send_event ty uuid data err now drv) =
    Some (q ++ [mkEvent ty uuid config data err now]).
Proof.
  intros Hq Hc. unfold _send_event. rewrite Hq, Hc. simpl. by rewrite Hq.
Qed.

Lemma send_event_sent_frames ty uuid data err now drv :
  sent_frames (_send_event ty uuid data err now drv) = sent_frames drv.
Proof.
  unfold _send_event, sent_frames.
  destruct (event_queue drv); [destruct (lookup_connection _ _)|]; simpl;
    rewrite ?omap_app; simpl; by rewrite ?app_nil_r.
Qed.






(** A frame whose decoded data is not acknowledgeable leaves the journal of
    effects of an event-ready driver alone. *)
Lemma handle_wrapped uuid s w drv q config :
  json_loads s = not_json →
  event_queue drv = Some q →
  lookup_connection uuid (connections drv) = Some config →
  let drv' := handle uuid (text s) w drv in
  event_queue drv' =
    Some (q ++ [mkEvent MESSAGE uuid config
                        (Some [("raw_message", JStr s)]) None (time w)]) ∧
  effects drv' = effects drv ∧
  running drv' = running drv ∧
  connections drv' = connections drv.
Proof.
  intros Hl Hq Hc. unfold _handle_message, decode. rewrite Hl.
  unfold ack_due. simpl. unfold _send_event. simpl. rewrite Hq, Hc. simpl.
  by rewrite Hq.
Qed.

(** A text on which [json.loads] raises something other than
    [JSONDecodeError] ends in the [except] clause of the handler: no
    event, two log records. *)
Lemma handle_undecodable uuid s w drv e :
  json_loads s = loads_raises e →
  let drv' := handle uuid (text s) w drv in
  event_queue drv' = event_queue drv ∧
  effects drv' =
    effects drv ++ [log_info e; log_error "message handling error"] ∧
  running drv' = running drv ∧
  connections drv' = connections drv.
Proof.
  intros Hl. unfold _handle_message, decode. rewrite Hl. simpl.
  by rewrite <- app_assoc.
Qed.

(** C9, corrected.  When a text frame arrives on a connection that is
    still registered, with the driver running and its event queue in
    place, and [json.loads] rejects the text with [JSONDecodeError], the
    read loop neither stops nor drops the frame: a [MESSAGE] event whose
    payload is [{"raw_message": <the text>}] is appended to the event
    queue, nothing is written to the socket or the log, and the loop goes
    on with the frames that follow.  When [json.loads] raises another
    exception on the text, the frame is dropped: the queue stays as it
    was, the exception is logged, and the loop goes on as well. *)
Theorem unparsable_text_is_wrapped uuid r rest s drv q config :
  frame r = text s →
  running (before_frame r drv) = true →
  lookup_connection uuid (connections (before_frame r drv)) = Some config →
  event_queue (before_frame r drv) = Some q →
  let drv' := handle uuid (text s) (world r) (before_frame r drv) in
  (json_loads s = not_json →
   event_queue drv' =
     Some (q ++ [mkEvent MESSAGE uuid config
                         (Some [("raw_message", JStr s)]) None
                         (time (world r))]) ∧
   effects drv' = effects (before_frame r drv)) ∧
  (∀ e, json_loads s = loads_raises e →
   event_queue drv' = Some q ∧
   effects drv' =
     effects (before_frame r drv)
     ++ [log_info e; log_error "message handling error"]) ∧
  read_loop json_loads dumps_size uuid (r :: rest) drv =
    read_loop json_loads dumps_size uuid rest drv'.
Proof.
  intros Hf Hrun Hc Hq drv'. split_and!.
  - intros Hl.
    destruct (handle_wrapped uuid s (world r) _ q config Hl Hq Hc)
      as (Hq' & He & _).
    done.
  - intros e Hl.
    destruct (handle_undecodable uuid s (world r) (before_frame r drv) e Hl)
      as (Hq' & He & _).
    split; [by rewrite <- Hq|done].
  - simpl. rewrite Hrun. unfold is_registered. rewrite Hc. simpl.
    by rewrite Hf.
Qed.

End Frames.

(** *** The handler on sample frames *)



(** A frame of type [sys_ack] is not acknowledged, and neither is JSON that
    is not an object, which is dropped with a log record. *)
Example no_ack_for_ack_frames :
  Client.sent_frames
    (Client._handle_message sample_loads sample_size "uuid-1"
       (Client.text ack_frame) failing_world sample_driver) = [] ∧
  Client.sent_frames
    (Client._handle_message sample_loads sample_size "uuid-1"
       (Client.text "[1, 2]") failing_world sample_driver) = [] ∧
  Client.event_queue
    (Client._handle_message sample_loads sample_size "uuid-1"
       (Client.text "[1, 2]") failing_world sample_driver) = Some [].
Proof. vm_compute. done. Qed.

(** A text that is not JSON, followed by a standard frame. *)
Lemma unparsable_text_is_wrapped_witness :
  let r := Client.mkReception id (Client.text "not json") failing_world in
  let drv' := Client._handle_message sample_loads sample_size "uuid-1"
                (Client.text "not json") failing_world sample_driver in
  Client.event_queue drv' =
    Some [Client.mkEvent Client.MESSAGE "uuid-1" sample_config
            (Some [("raw_message", JStr "not json")]) None 1700000000] ∧
  Client.effects drv' = [] ∧
  Client.read_loop sample_loads sample_size "uuid-1"
    [r; Client.mkReception id (Client.text standard_frame) failing_world]
    sample_driver =
  Client.read_loop sample_loads sample_size "uuid-1"
    [Client.mkReception id (Client.text standard_frame) failing_world] drv'.
Proof.
  destruct (unparsable_text_is_wrapped sample_loads sample_size "uuid-1"
              (Client.mkReception id (Client.text "not json") failing_world)
              [Client.mkReception id (Client.text standard_frame) failing_world]
              "not json" sample_driver [] sample_config)
    as (Hwrapped & _ & Hloop); [reflexivity..|].
  destruct Hwrapped as [Hq He]; [reflexivity|].
  split_and!; [exact Hq|exact He|exact Hloop].
Defined.

(** C9, as stated, fails.  On a thousand opening brackets [json.loads]
    raises [RecursionError], which is not a [JSONDecodeError]: the handler
    drops the frame with two log records, and neither a wrapped payload
    nor any other event reaches the queue.  The same holds of a frame
    with an integer of 4301 digits, on which [json.loads] raises a plain
    [ValueError]. *)
Lemma deep_text_is_dropped :
  let drv' := Client._handle_message sample_loads sample_size "uuid-1"
                (Client.text deep_text) failing_world sample_driver in
  let drv'' := Client._handle_message sample_loads sample_size "uuid-1"
                 (Client.text huge_frame) failing_world sample_driver in
  sample_loads deep_text = loads_raises "RecursionError" ∧
  Client.event_queue drv' ≠
    Some [Client.mkEvent Client.MESSAGE "uuid-1" sample_config
            (Some [("raw_message", JStr deep_text)]) None 1700000000] ∧
  Client.event_queue drv' = Some [] ∧
  Client.logged drv' = ["RecursionError"; "message handling error"] ∧
  sample_loads huge_frame = loads_raises "ValueError" ∧
  Client.event_queue drv'' = Some [] ∧
  Client.logged drv'' = ["ValueError"; "message handling error"].
Proof.
  cbv zeta.
  assert (Client.event_queue
            (Client._handle_message sample_loads sample_size "uuid-1"
               (Client.text deep_text) failing_world sample_driver) = Some [])
    as Hq by (vm_compute; reflexivity).
  split_and!; try (vm_compute; reflexivity).
  rewrite Hq. discriminate.
Qed.

(** ** The client: the connection loop *)

Section ConnectionLoop.

Import Client.

Variable json_loads : string → Loaded.
Variable dumps_size : json → Z.

Local Abbreviation loop := (connection_loop json_loads dumps_size).
Local Abbreviation one_turn := (turn json_loads dumps_size).

(** *** Steadiness of the driver's own operations *)

Lemma steady_refl uuid drv : steady uuid drv drv.
Proof. by split. Qed.

Lemma steady_trans uuid a b c :
  steady uuid a b → steady uuid b c → steady uuid a c.
Proof. intros [H1 H2] [H3 H4]. split; [auto|congruence]. Qed.

Ltac steady_step :=
  split; [intros H; exact H
         |unfold loop_effects; simpl; rewrite ?omap_app; simpl;
          rewrite ?app_nil_r; reflexivity].

Lemma steady_set_state uuid u st drv : steady uuid drv (set_state u st drv).
Proof. steady_step. Qed.

Lemma steady_set_active uuid act drv : steady uuid drv (set_active act drv).
Proof. steady_step. Qed.

Lemma steady_add_stat uuid key n drv : steady uuid drv (add_stat key n drv).
Proof. steady_step. Qed.

Lemma steady_enqueue uuid ev drv : steady uuid drv (enqueue ev drv).
Proof. steady_step. Qed.

Lemma steady_emit uuid e drv :
  loop_effect uuid e = None → steady uuid drv (emit e drv).
Proof.
  intros He. split; [intros H; exact H|].
  unfold loop_effects. simpl. rewrite omap_app. simpl. rewrite He.
  by rewrite app_nil_r.
Qed.

Lemma steady_send_event uuid ty u data err now drv :
  steady uuid drv (_send_event ty u data err now drv).
Proof.
  unfold _send_event.
  destruct (event_queue drv); [destruct (lookup_connection _ _)|];
    auto using steady_enqueue, steady_emit.
Qed.

Lemma steady_on_exception uuid u e now drv :
  steady uuid drv (on_exception u e now drv).
Proof.
  unfold on_exception. eapply steady_trans; [apply steady_add_stat|].
  apply steady_send_event.
Qed.

Lemma steady_cleanup uuid u drv : steady uuid drv (cleanup u drv).
Proof. steady_step. Qed.

Lemma steady_send_raw uuid u message w drv :
  steady uuid drv (_send_raw_message dumps_size u message w drv).1.
Proof.
  unfold _send_raw_message. destruct (decide _); [|by apply steady_emit].
  destruct (on_send w); simpl; steady_step.
Qed.

Lemma steady_handle_message uuid u message w drv :
  steady uuid drv (_handle_message json_loads dumps_size u message w drv).
Proof.
  unfold _handle_message.
  set (drv0 := match message with text _ => _ | binary _ => _ end).
  assert (steady uuid drv drv0) as H0.
  { unfold drv0. destruct message; steady_step. }
  eapply steady_trans; [exact H0|].
  destruct (decode json_loads message) as [data|e].
  - eapply steady_trans; [|apply steady_send_event].
    destruct (ack_due data); [apply steady_send_raw|apply steady_refl].
  - steady_step.
Qed.

Lemma alive_flags uuid drv :
  alive uuid drv = true →
  running drv = true ∧ is_registered uuid drv = true ∧ shutdown drv = false.
Proof.
  unfold alive. intros H.
  apply andb_true_iff in H as [[H1 H2]%andb_true_iff H3].
  by apply negb_true_iff in H3.
Qed.

Lemma steady_read_loop uuid frames : ∀ drv,
  Forall (λ r, undisturbed uuid (before_frame r)) frames →
  alive uuid drv = true →
  steady uuid drv (read_loop json_loads dumps_size uuid frames drv).1.
Proof.
  induction frames as [|r frames IH]; intros drv Hf Halive; simpl.
  - apply steady_refl.
  - apply Forall_cons in Hf as [Hr Hf].
    destruct (Hr drv) as [Ha He].
    destruct (alive_flags _ _ (Ha Halive)) as (-> & -> & _). simpl.
    eapply steady_trans; [exact (Hr drv)|].
    eapply steady_trans; [apply steady_handle_message|].
    apply IH; [done|]. apply steady_handle_message. auto.
Qed.

(** The [try] statement of an undisturbed turn leaves the loop alive and
    its journal as it was, and sets the locals as [turn_locals] says. *)
Lemma session_steady config uuid it loc drv :
  undisturbed_iteration uuid it →
  alive uuid drv = true →
  steady uuid drv (session json_loads dumps_size config uuid it loc drv).1 ∧
  (session json_loads dumps_size config uuid it loc drv).2 =
    turn_locals config it loc.
Proof.
  intros (_ & _ & Hfr) Halive. unfold session, turn_locals.
  destruct (attempt it) as [e|frames ending].
  - split; [apply steady_on_exception|done].
  - set (drv1 := _send_event CONNECT uuid None None (clock it) _).
    assert (steady uuid drv drv1) as H1.
    { unfold drv1. eapply steady_trans; [|apply steady_send_event]. steady_step. }
    pose proof (steady_read_loop uuid frames drv1 Hfr (proj1 H1 Halive)) as H2.
    destruct (read_loop json_loads dumps_size uuid frames drv1) as [drv2 broke].
    simpl in *. split; [|done].
    eapply steady_trans; [exact H1|]. eapply steady_trans; [exact H2|].
    destruct broke; [apply steady_refl|].
    destruct ending; [apply steady_refl|by apply steady_emit
                     |apply steady_on_exception].
Qed.

(** *** One turn *)

Lemma loop_effects_emit uuid e drv :
  loop_effect uuid e = Some e →
  loop_effects uuid (emit e drv) = loop_effects uuid drv ++ [e].
Proof.
  intros He. unfold loop_effects. simpl. rewrite omap_app. simpl. by rewrite He.
Qed.

(** The driver when the reconnect decision of a turn is taken. *)
Lemma turn_reaches_decision config uuid it loc drv :
  undisturbed_iteration uuid it →
  alive uuid drv = true →
  ∃ drv1,
    alive uuid drv1 = true ∧
    loop_effects uuid drv1 = loop_effects uuid drv ++ [ws_connect uuid] ∧
    connection_states drv1 !! uuid = Some disconnected ∧
    one_turn config uuid it loc drv =
      let loc1 := turn_locals config it loc in
      if (reconnect_attempts loc1 <? max_reconnect_attempts config)%Z then
        let drv2 := during_wait it
                      (emit (wait_for_sleep uuid (next_delay loc1) 30) drv1) in
        if shutdown drv2
        then inl (mkRun drv2 (mkLocals (reconnect_attempts loc1 + 1)
                                       (next_delay loc1)) stopped_waiting)
        else inr (mkLocals (reconnect_attempts loc1 + 1)
                           (py_min (max_reconnect_delay config)
                                   (next_delay loc1 * 2)%float), drv2)
      else inl (mkRun (set_state uuid error drv1) loc1 gave_up).
Proof.
  intros Hit Halive. pose proof Hit as (Hhs & _ & _).
  unfold turn.
  set (drvA := during_handshake it _).
  assert (alive uuid drvA = true ∧
          loop_effects uuid drvA = loop_effects uuid drv ++ [ws_connect uuid])
    as [HaA HeA].
  { unfold drvA. destruct (Hhs (emit (ws_connect uuid)
                                  (set_state uuid connecting drv))) as [Ha He].
    split; [by apply Ha|]. rewrite He. rewrite loop_effects_emit.
    - by destruct (steady_set_state uuid uuid connecting drv) as [_ ->].
    - simpl. by rewrite String.eqb_refl. }
  destruct (session_steady config uuid it loc drvA Hit HaA) as [[HaB HeB] Hloc].
  destruct (session json_loads dumps_size config uuid it loc drvA)
    as [drvB loc1]. simpl in HaB, HeB, Hloc. subst loc1.
  destruct (steady_cleanup uuid uuid drvB) as [HaC HeC].
  exists (cleanup uuid drvB). split_and!.
  - auto.
  - congruence.
  - unfold cleanup. simpl. apply lookup_insert_eq.
  - destruct (alive_flags _ _ (HaC (HaB HaA))) as (Hr & Hreg & Hsh).
    cbv zeta. rewrite Hr, Hreg, Hsh. cbn [andb negb].
    destruct (_ <? _)%Z; reflexivity.
Qed.

Lemma turn_reconnects config uuid it loc drv :
  undisturbed_iteration uuid it →
  alive uuid drv = true →
  let loc1 := turn_locals config it loc in
  (reconnect_attempts loc1 < max_reconnect_attempts config)%Z →
  ∃ drv2,
    alive uuid drv2 = true ∧
    loop_effects uuid drv2 =
      loop_effects uuid drv ++
      [ws_connect uuid; wait_for_sleep uuid (next_delay loc1) 30] ∧
    one_turn config uuid it loc drv =
      inr (mkLocals (reconnect_attempts loc1 + 1)
                    (py_min (max_reconnect_delay config)
                            (next_delay loc1 * 2)%float), drv2).
Proof.
  intros Hit Halive loc1 Hlt. pose proof Hit as (_ & Hw & _).
  destruct (turn_reaches_decision config uuid it loc drv Hit Halive)
    as (drv1 & Ha1 & He1 & _ & ->).
  cbv zeta. fold loc1. apply Z.ltb_lt in Hlt. rewrite Hlt.
  set (drv2 := during_wait it _).
  destruct (Hw (emit (wait_for_sleep uuid (next_delay loc1) 30) drv1))
    as [Ha2 He2]. fold drv2 in Ha2, He2.
  specialize (Ha2 Ha1).
  destruct (alive_flags _ _ Ha2) as (_ & _ & ->).
  exists drv2. split_and!; [done| |done].
  rewrite He2, loop_effects_emit, He1.
  - by rewrite <- app_assoc.
  - simpl. by rewrite String.eqb_refl.
Qed.

Lemma turn_gives_up config uuid it loc drv :
  undisturbed_iteration uuid it →
  alive uuid drv = true →
  let loc1 := turn_locals config it loc in
  (max_reconnect_attempts config ≤ reconnect_attempts loc1)%Z →
  ∃ drv1,
    connection_states drv1 !! uuid = Some error ∧
    loop_effects uuid drv1 = loop_effects uuid drv ++ [ws_connect uuid] ∧
    one_turn config uuid it loc drv = inl (mkRun drv1 loc1 gave_up).
Proof.
  intros Hit Halive loc1 Hle.
  destruct (turn_reaches_decision config uuid it loc drv Hit Halive)
    as (drv1 & Ha1 & He1 & _ & ->).
  cbv zeta. fold loc1. apply Z.ltb_ge in Hle. rewrite Hle.
  exists (set_state uuid error drv1). split_and!; [|by rewrite <- He1|done].
  simpl. apply lookup_insert_eq.
Qed.

(** *** Runs of failing turns *)



Lemma failing_turns_cons uuid d ds :
  failing_turns uuid (d :: ds) =
    [ws_connect uuid; wait_for_sleep uuid d 30] ++ failing_turns uuid ds.
Proof. reflexivity. Qed.

Lemma requested_of_failing_turns uuid drv drv' ds :
  loop_effects uuid drv' = loop_effects uuid drv ++ failing_turns uuid ds →
  requested_delays uuid drv' = requested_delays uuid drv ++ ds ∧
  waited uuid drv' =
    waited uuid drv ++ ((λ d, suspended_for d 30) <$> ds) ∧
  attempts_made uuid drv' = (attempts_made uuid drv + length ds)%nat.
Proof.
  intros He. unfold requested_delays, waited, attempts_made. rewrite He.
  rewrite !omap_app, length_app.
  assert (omap (λ e, match e with wait_for_sleep _ d _ => Some d | _ => None end)
               (failing_turns uuid ds) = ds ∧
          omap (λ e, match e with
                     | wait_for_sleep _ d t => Some (suspended_for d t)
                     | _ => None end)
               (failing_turns uuid ds) = (λ d, suspended_for d 30) <$> ds ∧
          length (omap (λ e, match e with ws_connect u => Some u | _ => None end)
                       (failing_turns uuid ds)) = length ds) as (H1 & H2 & H3);
    [|by rewrite H1, H2, H3].
  clear He. induction ds as [|d ds IH]; [done|].
  destruct IH as (IH1 & IH2 & IH3).
  rewrite failing_turns_cons, !omap_app. simpl.
  by rewrite IH1, IH2, IH3.
Qed.

Lemma turn_locals_fails config it loc :
  fails it → turn_locals config it loc = loc.
Proof. intros [e He]. unfold turn_locals. by rewrite He. Qed.

Lemma loop_cons config uuid it env loc drv :
  alive uuid drv = true →
  loop config uuid (it :: env) loc drv =
    match one_turn config uuid it loc drv with
    | inl run => run
    | inr (loc, drv) => loop config uuid env loc drv
    end.
Proof. intros Ha. simpl. by rewrite Ha. Qed.



(** Once the attempts are used up, the next failing turn is the last:
    whatever else the environment holds in store is never looked at. *)
Lemma exhausted_run config uuid env rest : ∀ loc drv,
  alive uuid drv = true →
  Forall (failing_undisturbed uuid) env →
  (reconnect_attempts loc ≤ max_reconnect_attempts config)%Z →
  (reconnect_attempts loc + Z.of_nat (length env)
   = max_reconnect_attempts config + 1)%Z →
  let run := loop config uuid (env ++ rest) loc drv in
  exit run = gave_up ∧
  connection_states (driver run) !! uuid = Some error ∧
  attempts_made uuid (driver run) = (attempts_made uuid drv + length env)%nat ∧
  run = loop config uuid env loc drv.
Proof.
  induction env as [|it env IH]; intros loc drv Ha Hall Hle Heq run.
  - simpl in Heq. lia.
  - apply Forall_cons in Hall as [[Hf Hu] Hall].
    unfold run. simpl app. rewrite !loop_cons by done.
    destruct (Z.lt_ge_cases (reconnect_attempts loc)
                            (max_reconnect_attempts config)) as [Hlt|Hge].
    + destruct (turn_reconnects config uuid it loc drv Hu Ha)
        as (drv2 & Ha2 & He2 & ->).
      { by rewrite turn_locals_fails. }
      rewrite turn_locals_fails in * by done.
      destruct (IH (mkLocals (reconnect_attempts loc + 1)
                      (py_min (max_reconnect_delay config) (next_delay loc * 2)%float))
                   drv2 Ha2 Hall) as (Hx & Hst & Hat & Hrun).
      { simpl. lia. }
      { simpl in *. lia. }
      split_and!; [done|done| |done].
      rewrite Hat.
      destruct (requested_of_failing_turns uuid drv drv2 [next_delay loc])
        as (_ & _ & ->); [by rewrite He2|]. simpl. lia.
    + destruct (turn_gives_up config uuid it loc drv Hu Ha)
        as (drv1 & Hst & He1 & ->).
      { by rewrite turn_locals_fails. }
      assert (env = []) as -> by (destruct env; [done|simpl in Heq; lia]).
      simpl. split_and!; [done|done| |done].
      unfold attempts_made. rewrite He1, omap_app, length_app. done.
Qed.

Lemma turn_locals_first config it loc :
  (fails it ∧ loc = initial_locals config) ∨ succeeds it →
  turn_locals config it loc = initial_locals config.
Proof.
  unfold turn_locals. intros [[[e ->] ->]|(frames & ending & ->)]; done.
Qed.



(** C5 (amended).  Take a first turn that is either the failing first
    attempt of the loop or a session that was established and then lost,
    and let [max_reconnect_attempts] failing attempts follow it, while the
    driver runs, the connection stays registered and no shutdown is
    signalled.  Then the state of the connection is ["error"], the loop
    has returned, and it has made exactly these attempts, whatever the
    environment would have answered to further ones.  Counted from the
    start of the loop this takes [max_reconnect_attempts + 1] consecutive
    failures. *)
Theorem gives_up_after_max_reconnects config uuid it failures rest loc drv :
  alive uuid drv = true →
  undisturbed_iteration uuid it →
  (fails it ∧ loc = initial_locals config) ∨ succeeds it →
  Forall (failing_undisturbed uuid) failures →
  Z.of_nat (length failures) = max_reconnect_attempts config →
  let run := loop config uuid (it :: failures ++ rest) loc drv in
  exit run = gave_up ∧
  connection_states (driver run) !! uuid = Some error ∧
  attempts_made uuid (driver run) =
    (attempts_made uuid drv + 1 + length failures)%nat ∧
  run = loop config uuid (it :: failures) loc drv.
Proof.
  intros Ha Hu Hfirst Hall Hlen run. unfold run.
  rewrite !loop_cons by done.
  pose proof (turn_locals_first config it loc Hfirst) as Hloc.
  destruct failures as [|it' failures].
  - destruct (turn_gives_up config uuid it loc drv Hu Ha)
      as (drv1 & Hst & He1 & ->).
    { rewrite Hloc. simpl in *. lia. }
    simpl. split_and!; [done|done| |done].
    unfold attempts_made. rewrite He1, omap_app, length_app. simpl. lia.
  - destruct (turn_reconnects config uuid it loc drv Hu Ha)
      as (drv2 & Ha2 & He2 & ->).
    { rewrite Hloc. simpl in *. lia. }
    rewrite Hloc in *.
    destruct (exhausted_run config uuid (it' :: failures) rest
                (mkLocals (reconnect_attempts (initial_locals config) + 1)
                   (py_min (max_reconnect_delay config)
                      (next_delay (initial_locals config) * 2)%float))
                drv2 Ha2 Hall) as (Hx & Hst & Hat & Hrun).
    { simpl in *. lia. }
    { simpl in *. lia. }
    split_and!; [done|done| |done].
    rewrite Hat.
    destruct (requested_of_failing_turns uuid drv drv2
                [next_delay (initial_locals config)] He2) as (_ & _ & ->).
    simpl. lia.
Qed.

End ConnectionLoop.

(** *** Sample runs of the loop *)

Lemma undisturbed_id uuid : Client.undisturbed uuid id.
Proof. intros drv. by split. Qed.

Lemma refused_undisturbed uuid : Client.failing_undisturbed uuid refused.
Proof.
  split; [by eexists|]. split_and!; [apply undisturbed_id..|done].
Qed.

Lemma all_refused_undisturbed uuid n :
  Forall (Client.failing_undisturbed uuid) (replicate n refused).
Proof.
  induction n as [|n IH]; simpl; [apply Forall_nil_2|].
  apply Forall_cons_2; [apply refused_undisturbed|exact IH].
Qed.

Lemma served_undisturbed uuid : Client.undisturbed_iteration uuid served.
Proof.
  split_and!; [apply undisturbed_id..|].
  simpl. apply Forall_cons_2; [apply undisturbed_id|apply Forall_nil_2].
Qed.


(** The run of the scenario in which a success comes between failures: the
    delays start again at [d0] after the session. *)
Example delays_restart_after_success :
  let run := sample_loop sample_config
               [refused; refused; served; refused; refused] in
  Client.requested_delays "uuid-1" (Client.driver run)
  = [1; 2; 1; 2; 4]%float ∧
  Client.reconnect_attempts (Client.locals run) = 3%Z ∧
  Client.exit run = Client.pending.
Proof. vm_compute. done. Qed.


(** A refused first attempt and five refused reconnects end the loop; the
    two turns that the environment still offers are never taken. *)
Lemma gives_up_after_max_reconnects_witness :
  let run := sample_loop sample_config
               (refused :: replicate 5 refused ++ [served; refused]) in
  Client.exit run = Client.gave_up ∧
  Client.connection_states (Client.driver run) !! "uuid-1"
  = Some Client.error ∧
  Client.attempts_made "uuid-1" (Client.driver run)
  = (Client.attempts_made "uuid-1" (idle_driver sample_config) + 1
     + length (replicate 5 refused))%nat ∧
  run = sample_loop sample_config (refused :: replicate 5 refused).
Proof.
  apply (gives_up_after_max_reconnects sample_loads sample_size sample_config
           "uuid-1" refused (replicate 5 refused) [served; refused]
           (Client.initial_locals sample_config) (idle_driver sample_config)).
  - reflexivity.
  - apply refused_undisturbed.
  - left. split; [by eexists|reflexivity].
  - apply (all_refused_undisturbed "uuid-1" 5).
  - reflexivity.
Defined.

(** After a session the counter starts again: [max_reconnect_attempts]
    failures after the lost connection end the loop. *)
Example gives_up_after_lost_session :
  let run := sample_loop sample_config
               (refused :: served :: replicate 5 refused) in
  Client.exit run = Client.gave_up ∧
  Client.connection_states (Client.driver run) !! "uuid-1"
  = Some Client.error ∧
  Client.attempts_made "uuid-1" (Client.driver run) = 7%nat.
Proof. vm_compute. done. Qed.

(** C5, as stated, fails: after [max_reconnect_attempts] = 5 consecutive
    failures from the start of the loop the state is ["disconnected"], the
    loop has not returned, and a sixth attempt is made; it is the sixth
    failure that ends the loop. *)
Lemma five_failures_do_not_exhaust :
  ¬ (Client.exit (sample_loop sample_config (replicate 5 refused))
     = Client.gave_up ∧
     Client.connection_states
       (Client.driver (sample_loop sample_config (replicate 5 refused)))
       !! "uuid-1" = Some Client.error) ∧
  Client.exit (sample_loop sample_config (replicate 5 refused))
  = Client.pending ∧
  Client.connection_states
    (Client.driver (sample_loop sample_config (replicate 5 refused)))
    !! "uuid-1" = Some Client.disconnected ∧
  Client.attempts_made "uuid-1"
    (Client.driver (sample_loop sample_config (replicate 6 refused))) = 6%nat ∧
  Client.exit (sample_loop sample_config (replicate 6 refused))
  = Client.gave_up.
Proof.
  split; [|vm_compute; done].
  intros [H _]. vm_compute in H. discriminate.
Qed.

(** * Further properties of the server *)

Section ServerRuns.

Import Server.

Variable on_auth : gmap string string → py_result bool.
Variable on_auth_extract_user : gmap string string → py_result string.

Local Abbreviation auth := (auth_user on_auth on_auth_extract_user).
Local Abbreviation step := (dispatch on_auth on_auth_extract_user).
Local Abbreviation run_from := (run on_auth on_auth_extract_user).

Lemma dispatch_auth_counters srv event :
  let srv' := step srv event in
  let n := connects [event] in
  total_auth_requests (stats srv') = (total_auth_requests (stats srv) + n)%nat ∧
  (successful_auths (stats srv') + failed_auths (stats srv'))%nat
  = (successful_auths (stats srv) + failed_auths (stats srv) + n)%nat.
Proof.
  cbv zeta. unfold dispatch, connects. simpl.
  destruct (event_type event) eqn:Hty; simpl.
  - unfold _handle_connect_event, _authenticate_connection.
    destruct (auth _); simpl; lia.
  - unfold _handle_disconnect_event.
    destruct (connection_users srv !! _) as [u|]; [|simpl; lia].
    destruct (str_truthy u); simpl; lia.
  - lia.
Qed.

Lemma connects_cons event events :
  connects (event :: events) = (connects [event] + connects events)%nat.
Proof. unfold connects. simpl. by destruct (event_type event). Qed.

(** X1.  Every [CONNECT] event dispatched is one authentication request,
    and every request is counted as exactly one success or one failure:
    after any run from the initial state [total_auth_requests] is the
    number of [CONNECT] events and equals
    [successful_auths + failed_auths]. *)
Theorem auth_requests_are_counted events :
  let srv := run_from init events in
  total_auth_requests (stats srv) = connects events ∧
  (successful_auths (stats srv) + failed_auths (stats srv))%nat
  = total_auth_requests (stats srv).
Proof.
  cbv zeta.
  assert (∀ srv,
    total_auth_requests (stats (run_from srv events))
    = (total_auth_requests (stats srv) + connects events)%nat ∧
    (successful_auths (stats (run_from srv events))
     + failed_auths (stats (run_from srv events)))%nat
    = (successful_auths (stats srv) + failed_auths (stats srv)
       + connects events)%nat) as H.
  { induction events as [|event events IH]; intros srv.
    - unfold connects. simpl. lia.
    - rewrite connects_cons. simpl.
      destruct (IH (step srv event)) as [-> ->].
      destruct (dispatch_auth_counters srv event) as [-> ->]. lia. }
  destruct (H init) as [-> ->]. simpl. lia.
Qed.

Lemma dispatch_counters_in_step srv event :
  counters_in_step srv → counters_in_step (step srv event).
Proof.
  intros (Hu & Hc & Hd). unfold dispatch. destruct (event_type event).
  - unfold _handle_connect_event, _authenticate_connection.
    destruct (auth _); simpl; [|done].
    split_and!; [done|done|]. simpl. by rewrite !dom_insert_L, Hd.
  - unfold _handle_disconnect_event.
    destruct (connection_users srv !! _) as [u|]; [|done].
    destruct (str_truthy u); [|done].
    split_and!; [done|done|]. simpl. by rewrite !dom_delete_L, Hd.
  - done.
Qed.

Lemma run_counters_in_step events : ∀ srv,
  counters_in_step srv → counters_in_step (run_from srv events).
Proof.
  induction events as [|event events IH]; intros srv Hs; [done|].
  simpl. apply IH. by apply dispatch_counters_in_step.
Qed.

Lemma counters_in_step_init : counters_in_step init.
Proof.
  unfold counters_in_step. simpl. by rewrite !dom_empty_L, !map_size_empty.
Qed.

(** X2.  After any run from the initial state, of whatever events, the
    statistics [current_users] and [current_connections] are the sizes of
    [user_connections] and [connection_users], as [get_user_count] and
    [get_connection_count] report them, and [connection_metadata] has
    exactly the keys of [connection_users]. *)
Theorem counters_follow_tables events :
  let srv := run_from init events in
  current_users (stats srv) = get_user_count srv ∧
  current_connections (stats srv) = get_connection_count srv ∧
  dom (connection_metadata srv) = dom (connection_users srv).
Proof.
  cbv zeta. change (counters_in_step (run_from init events)).
  apply run_counters_in_step, counters_in_step_init.
Qed.

Lemma auth_user_inv md u :
  auth md = Some u →
  on_auth md = Ok true ∧ on_auth_extract_user md = Ok u ∧ u ≠ "".
Proof.
  unfold auth_user. destruct (on_auth md) as [[]|]; try done.
  destruct (on_auth_extract_user md) as [u'|]; [|done].
  destruct (str_truthy u') eqn:Hu; [|done]. intros [= ->].
  by apply str_truthy_spec in Hu.
Qed.

(** A connection is in [connection_users] after an event only if it was
    there before or the event is its accepted handshake. *)
Lemma dispatch_registers_authenticated srv event c u :
  connection_users (step srv event) !! c = Some u →
  connection_users srv !! c = Some u ∨
  (event_type event = CONNECT ∧ uuid (metadata event) = c ∧
   auth (to_dict (metadata event)) = Some u).
Proof.
  unfold dispatch. destruct (event_type event) eqn:He.
  - destruct (auth (to_dict (metadata event))) as [u'|] eqn:Hu.
    + destruct (connect_accepted on_auth on_auth_extract_user srv event u' Hu)
        as (_ & _ & -> & _).
      destruct (decide (c = uuid (metadata event))) as [->|Hne].
      * rewrite lookup_insert_eq. intros [= ->]. by right.
      * rewrite lookup_insert_ne by done. by left.
    + destruct (connect_rejected on_auth on_auth_extract_user srv event Hu)
        as (_ & _ & <- & _). by left.
  - unfold _handle_disconnect_event.
    destruct (connection_users srv !! uuid (metadata event)) as [user|]; [|by left].
    destruct (str_truthy user); [|by left]. simpl.
    intros [_ H]%lookup_delete_Some. by left.
  - by left.
Qed.

(** X3.  Nobody is registered without authenticating: after any run from
    the initial state, of whatever events, every entry
    [connection_users[c] == u] goes back to a [CONNECT] event of the run
    for the connection [c] on whose metadata [on_auth] answered true and
    [on_auth_extract_user] answered the non-empty user [u], neither
    raising. *)
Theorem registered_only_if_authenticated events c u :
  let srv := run_from init events in
  connection_users srv !! c = Some u →
  ∃ event,
    event ∈ events ∧
    event_type event = CONNECT ∧
    uuid (metadata event) = c ∧
    on_auth (to_dict (metadata event)) = Ok true ∧
    on_auth_extract_user (to_dict (metadata event)) = Ok u ∧
    u ≠ "".
Proof.
  cbv zeta.
  assert (∀ srv,
    connection_users (run_from srv events) !! c = Some u →
    connection_users srv !! c = Some u ∨
    ∃ event, event ∈ events ∧ event_type event = CONNECT ∧
             uuid (metadata event) = c ∧
             auth (to_dict (metadata event)) = Some u) as H.
  { induction events as [|event events IH]; intros srv; [by left|].
    simpl. intros Hc. apply IH in Hc as [Hc|(ev & Hin & Hev)].
    - apply dispatch_registers_authenticated in Hc as [Hc|(He & Hu & Ha)];
        [by left|].
      right. exists event. split; [by left|done].
    - right. exists ev. split; [by right|done]. }
  intros Hc. apply H in Hc as [Hc|(event & Hin & He & Hu & Ha)].
  - change (connection_users init) with (∅ : gmap string string) in Hc.
    by rewrite lookup_empty in Hc.
  - exists event. apply auth_user_inv in Ha as (? & ? & ?). done.
Qed.

(** *** Registering and leaving again *)

Lemma discard_prune_add_to k c (m : gmap string (gset string)) :
  no_empty_sets m → ¬ holds m k c →
  discard_prune k c (add_to k c m) = m.
Proof.
  intros Hm Hno. unfold discard_prune, add_to. rewrite lookup_insert_eq.
  assert (({[c]} ∪ default ∅ (m !! k)) ∖ {[c]} = default ∅ (m !! k)) as ->.
  { assert (c ∉ default ∅ (m !! k)); [|set_solver].
    intros Hin. apply Hno. destruct (m !! k) as [s|] eqn:E; simpl in Hin.
    - by exists s.
    - set_solver. }
  destruct (m !! k) as [s|] eqn:E; simpl.
  - rewrite decide_False by (by eapply Hm).
    apply map_eq. intros k'. destruct (decide (k' = k)) as [->|Hne].
    + by rewrite lookup_insert_eq.
    + by rewrite !lookup_insert_ne.
  - rewrite decide_True by done.
    apply map_eq. intros k'. destruct (decide (k' = k)) as [->|Hne].
    + by rewrite lookup_delete_eq.
    + by rewrite lookup_delete_ne, lookup_insert_ne.
Qed.

Lemma connect_then_disconnect srv md :
  well_formed srv →
  counters_in_step srv →
  connection_users srv !! uuid md = None →
  same_tables srv (run_from srv [mkEvent CONNECT md; mkEvent DISCONNECT md]).
Proof.
  intros Hwf (_ & _ & Hdom) Hc. simpl. unfold dispatch. simpl.
  set (event := mkEvent CONNECT md).
  destruct (auth (to_dict md)) as [u|] eqn:Hu.
  - destruct (connect_accepted on_auth on_auth_extract_user srv event u Hu)
      as (Huc & Hpc & Hcu & Hcm).
    set (srv1 := _handle_connect_event _ _ srv event) in *. simpl in *.
    pose proof (auth_user_truthy _ _ _ _ Hu) as Hne.
    destruct Hwf as (H1 & H2 & H3 & H4a & H4b).
    set (per0 := default ∅ (user_connections srv !! u)) in *.
    assert (no_empty_sets per0 ∧ ¬ holds per0 (platform md) (uuid md))
      as [Hper0 Hnot].
    { unfold per0. destruct (user_connections srv !! u) as [per|] eqn:E; simpl.
      - split; [by apply (H4a u)|]. intros Hh.
        destruct (H1 u (platform md) (uuid md)) as [Hcu' _]; [by exists per|].
        congruence.
      - split; [intros k s'; by rewrite lookup_empty|].
        intros (s' & Hs' & _). by rewrite lookup_empty in Hs'. }
    destruct (disconnect_known srv1 (mkEvent DISCONNECT md) u (platform md)
                (add_to (platform md) (uuid md) per0))
      as (Huc2 & Hpc2 & Hcu2 & Hcm2); simpl.
    { by rewrite Hcu, lookup_insert_eq. }
    { done. }
    { by rewrite Huc, lookup_insert_eq. }
    { rewrite (recorded_after_insert srv srv1 (uuid md) md (uuid md) Hcm).
      by rewrite decide_True. }
    simpl in *. unfold same_tables. rewrite Huc2, Hpc2, Hcu2, Hcm2.
    rewrite (discard_prune_add_to _ _ per0 Hper0 Hnot).
    rewrite Huc, Hpc, Hcu, Hcm. split_and!.
    + unfold per0. destruct (user_connections srv !! u) as [per|] eqn:E; simpl.
      * rewrite decide_False by (by apply (H4a u)).
        apply map_eq. intros k. destruct (decide (k = u)) as [->|Hk].
        -- by rewrite lookup_insert_eq.
        -- by rewrite !lookup_insert_ne.
      * rewrite decide_True by done.
        apply map_eq. intros k. destruct (decide (k = u)) as [->|Hk].
        -- by rewrite lookup_delete_eq.
        -- by rewrite lookup_delete_ne, lookup_insert_ne.
    + symmetry. apply discard_prune_add_to; [done|].
      intros Hh. apply (H3 (platform md) (uuid md)) in Hh as [u' Hr].
      destruct (H1 _ _ _ Hr) as [Hcu' _]. congruence.
    + apply map_eq. intros k. destruct (decide (k = uuid md)) as [->|Hk].
      * by rewrite lookup_delete_eq.
      * by rewrite lookup_delete_ne, lookup_insert_ne.
    + apply map_eq. intros k. destruct (decide (k = uuid md)) as [->|Hk].
      * rewrite lookup_delete_eq. apply not_elem_of_dom.
        rewrite Hdom. by apply not_elem_of_dom.
      * by rewrite lookup_delete_ne, lookup_insert_ne.
  - pose proof (connect_rejected on_auth on_auth_extract_user srv event Hu)
      as (Huc & Hpc & Hcu & Hcm).
    set (srv1 := _handle_connect_event _ _ srv event) in *.
    rewrite disconnect_unknown; [done|]. simpl. by rewrite <- Hcu.
Qed.

(** X4.  In any state reached by a run the handlers are prepared for, a
    connection id that is not registered can connect and disconnect again
    and leave no trace: after the [CONNECT] and the [DISCONNECT] of the
    same handshake the four tables are what they were, whether the
    handshake authenticated or not. *)
Theorem connect_disconnect_leaves_no_trace events md :
  admissible_run on_auth on_auth_extract_user init events = true →
  let srv := run_from init events in
  connection_users srv !! uuid md = None →
  same_tables srv (run_from srv [mkEvent CONNECT md; mkEvent DISCONNECT md]).
Proof.
  intros Hadm srv Hc. apply connect_then_disconnect; [| |done].
  - apply run_preserves; [done|apply well_formed_init].
  - apply run_counters_in_step, counters_in_step_init.
Qed.

(** In a well-formed registry a connection is in [user_connections[u][p]]
    exactly when the reverse tables say so. *)
Lemma registered_iff_reverse srv u p c :
  well_formed srv →
  registered srv u p c ↔
  connection_users srv !! c = Some u ∧ recorded_platform srv c = Some p.
Proof.
  intros (H1 & H2 & _). split; [apply H1|].
  intros [Hc Hp]. destruct (H2 _ _ Hc) as (_ & p' & Hp' & Hr). congruence.
Qed.

(** X26.  In any state reached by a run the handlers are prepared for,
    the platform sets partition the registered connections: a connection
    [get_connection_user] knows is in [get_platform_connections] of exactly
    one platform, the one its metadata records, and a connection it does
    not know is in none. *)
Theorem platform_sets_partition_connections events c :
  admissible_run on_auth on_auth_extract_user init events = true →
  let srv := run_from init events in
  match get_connection_user srv c with
  | Some u =>
      ∃ p, recorded_platform srv c = Some p ∧
           ∀ p', c ∈ get_platform_connections srv p' ↔ p' = p
  | None => ∀ p', c ∉ get_platform_connections srv p'
  end.
Proof.
  intros Hadm srv.
  assert (well_formed srv) as Hwf
    by (apply run_preserves; [done|apply well_formed_init]).
  assert (∀ p', c ∈ get_platform_connections srv p' ↔
                ∃ u, connection_users srv !! c = Some u ∧
                     recorded_platform srv c = Some p') as Hin.
  { intros p'. pose proof Hwf as (_ & _ & H3 & _).
    assert (c ∈ get_platform_connections srv p' ↔
            holds (platform_connections srv) p' c) as ->.
    { unfold get_platform_connections, holds.
      destruct (platform_connections srv !! p') as [s|];
        simpl; [naive_solver|]. split; [set_solver|by intros (? & ? & _)]. }
    rewrite (H3 p' c). split.
    - intros [u Hr]. exists u. by apply registered_iff_reverse.
    - intros (u & Hu & Hp). exists u. by apply registered_iff_reverse. }
  unfold get_connection_user.
  destruct (connection_users srv !! c) as [u|] eqn:Hu.
  - pose proof Hwf as (_ & H2 & _).
    destruct (H2 _ _ Hu) as (_ & p & Hp & _).
    exists p. split; [done|]. intros p'. rewrite Hin. split.
    + intros (u' & _ & Hp'). congruence.
    + intros ->. by exists u.
  - intros p'. rewrite Hin. by intros (u & ? & _).
Qed.

Section Delivery.

Variable net_send : string → bool.

(** X5.  In any state reached by a run the handlers are prepared for,
    [send_message] delivers to exactly the connections that registered as
    the resolved user on the message's platform: it writes once to each
    connection [c] with [connection_users[c]] the user and the platform
    recorded in [connection_metadata[c]] the target platform, these are
    the keys of its result, and no connection of another user or of the
    same user on another platform is written to. *)
Theorem send_message_reaches_exactly events message user :
  admissible_run on_auth on_auth_extract_user init events = true →
  on_auth_extract_user {["api_key" := get_api_key message]} = Ok user →
  let srv := run_from init events in
  ∃ results targets,
    (send_message on_auth_extract_user net_send srv message).2 = Ok results ∧
    driver_calls (send_message on_auth_extract_user net_send srv message).1
    = driver_calls srv ++ (driver_send <$> targets) ∧
    NoDup targets ∧
    (∀ c, c ∈ targets ↔ is_Some (results !! c)) ∧
    (∀ c, c ∈ targets ↔
          connection_users srv !! c = Some user ∧
          recorded_platform srv c = Some (get_platform message)).
Proof.
  intros Hadm Hu srv.
  assert (well_formed srv) as Hwf
    by (apply run_preserves; [done|apply well_formed_init]).
  assert (∀ c, connection_users srv !! c = Some user ∧
               recorded_platform srv c = Some (get_platform message) ↔
               registered srv user (get_platform message) c) as Hrev.
  { intros c. symmetry. by apply registered_iff_reverse. }
  unfold send_message. rewrite Hu.
  destruct (user_connections srv !! user) as [per|] eqn:Hper.
  - destruct (per !! get_platform message) as [s|] eqn:Hs.
    + destruct (send_to_spec net_send (elements s) srv) as (Hl & Hc & _).
      destruct (send_to net_send (elements s) srv) as [srv' results].
      simpl in *. exists results, (elements s).
      split_and!; [done|done|apply NoDup_elements| |].
      * intros c. rewrite Hl. destruct (decide (c ∈ elements s)); [|split; [done|]].
        -- split; eauto.
        -- by intros [? ?].
      * intros c. rewrite Hrev, elem_of_elements. unfold registered, holds.
        split.
        -- intros Hin. exists per. split; [done|]. by exists s.
        -- intros (per' & Hper' & s' & Hs' & Hin). congruence.
    + exists ∅, []. simpl. split_and!; [done|by rewrite app_nil_r|constructor| |].
      * intros c. rewrite lookup_empty. split; [by intros ?%elem_of_nil|].
        by intros [? ?].
      * intros c. rewrite Hrev. unfold registered, holds.
        split; [by intros ?%elem_of_nil|].
        intros (per' & Hper' & s' & Hs' & Hin). congruence.
  - exists ∅, []. simpl. split_and!; [done|by rewrite app_nil_r|constructor| |].
    + intros c. rewrite lookup_empty. split; [by intros ?%elem_of_nil|].
      by intros [? ?].
    + intros c. rewrite Hrev. unfold registered.
      split; [by intros ?%elem_of_nil|].
      intros (per' & Hper' & _). congruence.
Qed.

(** X6.  In any state reached by a run the handlers are prepared for, a
    broadcast to a platform writes once to each registered connection whose
    metadata records that platform, whoever its user is, and to no other;
    the result maps each of them to the outcome of its send.  Without a
    platform the server sends nothing itself and leaves the broadcast to
    the driver. *)
Theorem broadcast_reaches_platform events platform :
  admissible_run on_auth on_auth_extract_user init events = true →
  platform ≠ "" →
  let srv := run_from init events in
  (∃ results targets,
     broadcast_message net_send srv (Some platform)
     = ((send_to net_send targets srv).1, sent_to_each results) ∧
     driver_calls (send_to net_send targets srv).1
     = driver_calls srv ++ (driver_send <$> targets) ∧
     NoDup targets ∧
     (∀ c, results !! c = if decide (c ∈ targets) then Some (net_send c)
                          else None) ∧
     (∀ c, c ∈ targets ↔
           is_Some (connection_users srv !! c) ∧
           recorded_platform srv c = Some platform)) ∧
  broadcast_message net_send srv None = (srv, driver_broadcast) ∧
  broadcast_message net_send srv (Some "") = (srv, driver_broadcast).
Proof.
  intros Hadm Hp srv.
  assert (well_formed srv) as Hwf
    by (apply run_preserves; [done|apply well_formed_init]).
  split; [|done].
  unfold broadcast_message. simpl. apply str_truthy_spec in Hp. rewrite Hp.
  set (targets := elements (default ∅ (platform_connections srv !! platform))).
  destruct (send_to_spec net_send targets srv) as (Hl & Hc & _).
  destruct (send_to net_send targets srv) as [srv' results] eqn:Hsend.
  simpl in *. exists results, targets. rewrite Hsend. simpl.
  split_and!; [done|done|apply NoDup_elements|done|].
  intros c. unfold targets. rewrite elem_of_elements.
  pose proof Hwf as (_ & H2 & H3 & _).
  assert (c ∈ default ∅ (platform_connections srv !! platform) ↔
          holds (platform_connections srv) platform c) as ->.
  { unfold holds. destruct (platform_connections srv !! platform) as [s|];
      simpl; [naive_solver|]. split; [set_solver|by intros (? & ? & _)]. }
  rewrite (H3 platform c). split.
  - intros [u Hr]. apply registered_iff_reverse in Hr as [Hcu Hrec]; eauto.
  - intros [[u Hcu] Hrec]. exists u. by apply registered_iff_reverse.
Qed.

End Delivery.

End ServerRuns.

(** After the sample run [c3] is registered for [u2]: by its [CONNECT]. *)
Lemma registered_only_if_authenticated_witness :
  ∃ event,
    event ∈ sample_events ∧
    Server.event_type event = Server.CONNECT ∧
    Server.uuid (Server.metadata event) = "c3" ∧
    Server.default_auth (Server.to_dict (Server.metadata event)) = Ok true ∧
    Server.default_extract_user (Server.to_dict (Server.metadata event)) = Ok "u2" ∧
    "u2" ≠ "".
Proof.
  apply (registered_only_if_authenticated Server.default_auth
           Server.default_extract_user sample_events "c3" "u2").
  vm_compute. reflexivity.
Defined.

(** The sample run, then a new connection that comes and goes. *)
Lemma connect_disconnect_leaves_no_trace_witness :
  let srv := default_run Server.init sample_events in
  Server.same_tables srv
    (default_run srv [connect_event "c9" "u3" "wechat";
                      disconnect_event "c9" "u3" "wechat"]).
Proof.
  apply (connect_disconnect_leaves_no_trace Server.default_auth
           Server.default_extract_user sample_events
           (Server.mkMeta "c9" "u3" "wechat")).
  - vm_compute. reflexivity.
  - vm_compute. reflexivity.
Defined.

(** After the sample run a message for [u1] on [qq] reaches [c1] alone,
    although [u1] is also connected on [wechat] and [u2] on [qq]. *)
Lemma send_message_reaches_exactly_witness :
  let srv := default_run Server.init sample_events in
  ∃ results targets,
    (Server.send_message Server.default_extract_user (λ _, true) srv
       (Server.mkMessage "u1" "qq")).2 = Ok results ∧
    Server.driver_calls
      (Server.send_message Server.default_extract_user (λ _, true) srv
         (Server.mkMessage "u1" "qq")).1
    = Server.driver_calls srv ++ (Server.driver_send <$> targets) ∧
    NoDup targets ∧
    (∀ c, c ∈ targets ↔ is_Some (results !! c)) ∧
    (∀ c, c ∈ targets ↔
          Server.connection_users srv !! c = Some "u1" ∧
          Server.recorded_platform srv c = Some "qq").
Proof.
  apply (send_message_reaches_exactly Server.default_auth
           Server.default_extract_user (λ _, true) sample_events
           (Server.mkMessage "u1" "qq") "u1").
  - vm_compute. reflexivity.
  - reflexivity.
Defined.

(** After the sample run a broadcast to [qq] reaches the connections of
    both users on that platform. *)
Lemma broadcast_reaches_platform_witness :
  let srv := default_run Server.init sample_events in
  (∃ results targets,
     Server.broadcast_message (λ _, true) srv (Some "qq")
     = ((Server.send_to (λ _, true) targets srv).1,
        Server.sent_to_each results) ∧
     Server.driver_calls (Server.send_to (λ _, true) targets srv).1
     = Server.driver_calls srv ++ (Server.driver_send <$> targets) ∧
     NoDup targets ∧
     (∀ c, results !! c = if decide (c ∈ targets) then Some true else None) ∧
     (∀ c, c ∈ targets ↔
           is_Some (Server.connection_users srv !! c) ∧
           Server.recorded_platform srv c = Some "qq")) ∧
  Server.broadcast_message (λ _, true) srv None = (srv, Server.driver_broadcast) ∧
  Server.broadcast_message (λ _, true) srv (Some "")
  = (srv, Server.driver_broadcast).
Proof.
  apply (broadcast_reaches_platform Server.default_auth
           Server.default_extract_user (λ _, true) sample_events "qq").
  - vm_compute. reflexivity.
  - discriminate.
Defined.

(** The broadcast of the scenario, computed: [c1] and [c3]. *)
Example broadcast_to_qq :
  (Server.broadcast_message (λ _, true)
     (default_run Server.init sample_events) (Some "qq")).2
  = Server.sent_to_each {["c1" := true; "c3" := true]}.
Proof. vm_compute. reflexivity. Qed.

(** After the sample run [c1], registered again on [qq], is in the set of
    [qq] alone. *)
Lemma platform_sets_partition_connections_witness :
  let srv := default_run Server.init sample_events in
  match Server.get_connection_user srv "c1" with
  | Some u =>
      ∃ p, Server.recorded_platform srv "c1" = Some p ∧
           ∀ p', "c1" ∈ Server.get_platform_connections srv p' ↔ p' = p
  | None => ∀ p', "c1" ∉ Server.get_platform_connections srv p'
  end.
Proof.
  apply (platform_sets_partition_connections Server.default_auth
           Server.default_extract_user sample_events "c1").
  vm_compute. reflexivity.
Defined.

(** ** Message types, custom handlers and configurations *)

Section Routing.

Import WsConfig.

Lemma prefix_cons a s b t :
  String.prefix (String a s) (String b t)
  = if ascii_dec a b then String.prefix s t else false.
Proof. reflexivity. Qed.

Lemma prefix_append s t : String.prefix s (s +:+ t) = true.
Proof.
  induction s as [|a s IH]; [by destruct t|].
  change (String a s +:+ t) with (String a (s +:+ t)).
  rewrite prefix_cons. by destruct (ascii_dec a a).
Qed.

Lemma custom_prefix_not_sys t :
  String.prefix "custom_" t = true → String.prefix "sys_" t = false.
Proof.
  destruct t as [|a t]; [done|]. rewrite !prefix_cons.
  destruct (ascii_dec "c" a) as [<-|]; [|done]. by intros _.
Qed.

Lemma custom_prefix_not_std t :
  String.prefix "custom_" t = true → String.eqb t "sys_std" = false.
Proof.
  intros Hc. destruct (String.eqb_spec t "sys_std") as [->|]; [|done].
  by vm_compute in Hc.
Qed.

Lemma custom_type_prefix name : String.prefix "custom_" (custom_type name) = true.
Proof.
  unfold custom_type. destruct (String.prefix "custom_" name) eqn:Hp; [done|].
  apply prefix_append.
Qed.

Lemma custom_type_idempotent name : custom_type (custom_type name) = custom_type name.
Proof. unfold custom_type at 1. by rewrite custom_type_prefix. Qed.

(** A dictionary's type, where it is a string with the prefix, takes the
    message to the custom handlers, on the server and on the client. *)
Lemma custom_route message_data t :
  dict_get "type" message_data = Some (JStr t) →
  String.prefix "custom_" t = true →
  Server.route message_data = Server.to_custom t ∧
  Api.route message_data = Server.to_custom t.
Proof.
  intros Ht Hc. unfold Server.route, Api.route. rewrite Ht. simpl.
  by rewrite Hc, (custom_prefix_not_sys _ Hc), (custom_prefix_not_std _ Hc).
Qed.

(** X7.  The server and the client take every message the same way: the
    two dispatchers test the type in a different order ([sys_std] first on
    the server, the prefix [sys_] first on the client), yet for every
    payload they choose the same branch: [on_message] for [sys_std] alone,
    the custom handlers for a type that starts with [custom_], nothing for
    the other types that start with [sys_], the warning about an unknown
    type for every other string, and the [except] clause for a type that
    is not a string. *)
Theorem routing_agrees message_data :
  Api.route message_data = Server.route message_data ∧
  (Server.route message_data = Server.to_on_message ↔
   default (JStr "unknown") (dict_get "type" message_data) = JStr "sys_std") ∧
  (∀ t, Server.route message_data = Server.to_custom t ↔
        default (JStr "unknown") (dict_get "type" message_data) = JStr t ∧
        String.prefix "custom_" t = true) ∧
  (Server.route message_data = Server.ignored ↔
   ∃ t, default (JStr "unknown") (dict_get "type" message_data) = JStr t ∧
        String.prefix "sys_" t = true ∧ t ≠ "sys_std") ∧
  (∀ t, Server.route message_data = Server.unknown_type t ↔
        default (JStr "unknown") (dict_get "type" message_data) = JStr t ∧
        String.prefix "sys_" t = false ∧
        String.prefix "custom_" t = false) ∧
  (Server.route message_data = Server.handling_error ↔
   ∀ t, default (JStr "unknown") (dict_get "type" message_data) ≠ JStr t).
Proof.
  unfold Api.route, Server.route.
  destruct (default (JStr "unknown") (dict_get "type" message_data))
    as [| | | |t| |]; try (split_and!; [done|split; done|
      intros t; split; [done|by intros [? _]]|
      split; [done|by intros (t & ? & _)]|
      intros t; split; [done|by intros [? _]]|
      split; [congruence|done]]).
  assert (String.prefix "sys_" "sys_std" = true) as Hstd by reflexivity.
  assert (String.prefix "custom_" "sys_std" = false) as Hstd' by reflexivity.
  pose proof (custom_prefix_not_sys t) as Hcs.
  destruct (String.eqb t "sys_std") eqn:He.
  { apply String.eqb_eq in He. subst t. rewrite Hstd.
    split_and!; [done|done| | | |].
    - intros t. split; [done|]. intros [[= <-] Hc]. congruence.
    - split; [done|]. by intros (t & [= <-] & _ & Hne).
    - intros t. split; [done|]. intros ([= <-] & Hs & _). congruence.
    - split; [done|]. intros H. by destruct (H "sys_std"). }
  apply String.eqb_neq in He.
  destruct (String.prefix "custom_" t) eqn:Hc.
  { rewrite Hcs by done. split_and!; [done| | | | |].
    - split; [done|]. by intros [= ->].
    - intros t'. split; [by intros [= <-]|by intros [[= <-] _]].
    - split; [done|]. intros (t' & [= <-] & Hs & _).
      rewrite Hcs in Hs by done. done.
    - intros t'. split; [done|]. intros ([= <-] & _ & Hc'). congruence.
    - split; [done|]. intros H. by destruct (H t). }
  destruct (String.prefix "sys_" t) eqn:Hs.
  { split_and!; [done| | | | |].
    - split; [done|]. by intros [= ->].
    - intros t'. split; [done|]. intros [[= <-] Hc']. congruence.
    - split; [|done]. intros _. by exists t.
    - intros t'. split; [done|]. intros ([= <-] & Hs' & _). congruence.
    - split; [done|]. intros H. by destruct (H t). }
  split_and!; [done| | | | |].
  - split; [done|]. by intros [= ->].
  - intros t'. split; [done|]. intros [[= <-] Hc']. congruence.
  - split; [done|]. intros (t' & [= <-] & Hs' & _). congruence.
  - intros t'. split; [by intros [= <-]|by intros ([= <-] & _)].
  - split; [done|]. intros H. by destruct (H t).
Qed.

Section Handlers.

Context {H : Type}.

Lemma registration_keys (custom_handlers : gmap string H) call t :
  is_Some (registration custom_handlers call !! t) →
  is_Some (custom_handlers !! t) ∨ String.prefix "custom_" t = true.
Proof.
  destruct call as [name handler|name]; simpl;
    unfold register_custom_handler, unregister_custom_handler.
  - destruct (decide (t = custom_type name)) as [->|Hne].
    + intros _. right. apply custom_type_prefix.
    + rewrite lookup_insert_ne by done. by left.
  - destruct (decide (t = custom_type name)) as [->|Hne].
    + rewrite lookup_delete_eq. by intros [? ?].
    + rewrite lookup_delete_ne by done. by left.
Qed.

Lemma registered_keys (calls : list (Registration H)) :
  ∀ custom_handlers t,
    is_Some (foldl registration custom_handlers calls !! t) →
    is_Some (custom_handlers !! t) ∨ String.prefix "custom_" t = true.
Proof.
  induction calls as [|call calls IH]; intros custom_handlers t; simpl; [by left|].
  intros [Hs|Hp]%IH; [|by right]. by apply registration_keys in Hs.
Qed.

(** X8.  Whatever calls of [register_custom_handler] and
    [unregister_custom_handler] built the table of custom handlers, every
    handler in it can be reached: its key starts with [custom_], so a
    message of that type is taken to the custom handlers by the server and
    by the client, where [_handle_custom_message] finds this handler. *)
Theorem registered_handlers_are_reachable (calls : list (Registration H))
    t handler message_data :
  registered_handlers calls !! t = Some handler →
  dict_get "type" message_data = Some (JStr t) →
  Server.route message_data = Server.to_custom t ∧
  Api.route message_data = Server.to_custom t ∧
  Server._handle_custom_message (registered_handlers calls) t = Some handler.
Proof.
  intros Ht Hd.
  assert (String.prefix "custom_" t = true) as Hp.
  { destruct (registered_keys calls ∅ t) as [[? Hs]|Hp]; [by eexists| |done].
    by rewrite lookup_empty in Hs. }
  destruct (custom_route message_data t Hd Hp) as [-> ->]. done.
Qed.

(** X9.  A handler can be registered and unregistered under its type with
    or without the prefix [custom_]: both spellings name the same entry.
    After [register_custom_handler] the handler is found under the
    prefixed type, a later registration under either spelling replaces it,
    [unregister_custom_handler] under either spelling removes it, and the
    entries of all other types are left alone. *)
Theorem custom_handler_spellings (custom_handlers : gmap string H) name handler :
  let t := custom_type name in
  let registered := register_custom_handler name handler custom_handlers in
  register_custom_handler t handler custom_handlers = registered ∧
  Server._handle_custom_message registered t = Some handler ∧
  (∀ handler',
     Server._handle_custom_message
       (register_custom_handler t handler' registered) t = Some handler' ∧
     Server._handle_custom_message
       (register_custom_handler name handler' registered) t = Some handler') ∧
  Server._handle_custom_message (unregister_custom_handler name registered) t = None ∧
  Server._handle_custom_message (unregister_custom_handler t registered) t = None ∧
  (∀ t', t' ≠ t →
     Server._handle_custom_message registered t'
     = Server._handle_custom_message custom_handlers t' ∧
     Server._handle_custom_message (unregister_custom_handler name registered) t'
     = Server._handle_custom_message custom_handlers t').
Proof.
  cbv zeta. unfold register_custom_handler, unregister_custom_handler,
    Server._handle_custom_message.
  rewrite !custom_type_idempotent. split_and!.
  - done.
  - by rewrite lookup_insert_eq.
  - intros handler'. by rewrite !lookup_insert_eq.
  - by rewrite lookup_delete_eq.
  - by rewrite lookup_delete_eq.
  - intros t' Hne.
    by rewrite lookup_delete_ne, !lookup_insert_ne.
Qed.

End Handlers.

End Routing.

(** ** Configurations *)

Section Configurations.

Import WsConfig.

Lemma lookup_set_default_eq k v (g : gmap string string) :
  set_default k v g !! k = Some (default v (g !! k)).
Proof.
  unfold set_default. destruct (g !! k) eqn:Hk; simpl; [done|].
  by rewrite lookup_insert_eq.
Qed.

Lemma lookup_set_default_ne k k' v (g : gmap string string) :
  k' ≠ k → set_default k v g !! k' = g !! k'.
Proof.
  intros Hne. unfold set_default. destruct (g !! k); [done|].
  by rewrite lookup_insert_ne.
Qed.

Lemma ws_prefix_truthy u :
  String.prefix "ws://" u || String.prefix "wss://" u = true → str_truthy u = true.
Proof. by destruct u. Qed.

(** X10.  [ClientConfig.validate] accepts exactly the configurations with
    a non-empty API key and a URL that starts with [ws://] or [wss://];
    [get_missing_fields] names [url] exactly when the URL is empty and
    [api_key] exactly when the key is, and the constructor of
    [WebSocketClient] raises [ValueError] for every other configuration. *)
Theorem client_config_validation config σ :
  (validate config = true ↔
   api_key config ≠ "" ∧
   (String.prefix "ws://" (url config) = true ∨
    String.prefix "wss://" (url config) = true)) ∧
  ("url" ∈ get_missing_fields config ↔ url config = "") ∧
  ("api_key" ∈ get_missing_fields config ↔ api_key config = "") ∧
  (validate config = false ↔ Api.init config σ = Raise "ValueError").
Proof.
  assert ("url" ∈ get_missing_fields config ↔ url config = "") as Hu.
  { unfold get_missing_fields.
    pose proof (str_truthy_spec (url config)) as Hs.
    destruct (str_truthy (url config)), (str_truthy (api_key config));
      (split; [intros Hin|intros He]);
      try (apply dec_stable; intros Hne; apply Hs in Hne; done);
      try set_solver.
    all: destruct Hs as [Hs _]; specialize (Hs eq_refl); done. }
  assert ("api_key" ∈ get_missing_fields config ↔ api_key config = "") as Hk.
  { unfold get_missing_fields.
    pose proof (str_truthy_spec (api_key config)) as Hs.
    destruct (str_truthy (url config)), (str_truthy (api_key config));
      (split; [intros Hin|intros He]);
      try (apply dec_stable; intros Hne; apply Hs in Hne; done);
      try set_solver.
    all: destruct Hs as [Hs _]; specialize (Hs eq_refl); done. }
  split_and!; [|done|done|].
  - unfold validate. destruct (decide (get_missing_fields config = ∅)) as [He|Hne].
    + rewrite orb_true_iff. split; [|tauto]. intros Hp. split; [|done].
      intros Hk'. apply Hk in Hk'. set_solver.
    + split; [done|]. intros [Hkey Hp]. exfalso. apply Hne.
      apply set_eq. intros x. split; [|set_solver]. intros Hx.
      unfold get_missing_fields in Hx.
      assert (str_truthy (url config) = true) as Hut
        by (apply ws_prefix_truthy, orb_true_iff; tauto).
      apply str_truthy_spec in Hkey. rewrite Hut, Hkey in Hx. set_solver.
  - unfold Api.init. destruct (validate config); split; done.
Qed.

(** X11.  [ClientConfig.ensure_defaults] completes the header dictionary
    of the configuration in place and overwrites nothing: afterwards
    [x-apikey] and [x-platform] are present, every header the user had set
    keeps its value (also a user's own [x-apikey]), a missing one gets the
    configuration's value, no other dictionary changes, and a second call
    changes nothing. *)
Theorem ensure_defaults_completes_headers config (σ : store) h :
  σ !! headers config = Some h →
  ∃ h',
    ensure_defaults config σ !! headers config = Some h' ∧
    h' !! "x-apikey" = Some (default (api_key config) (h !! "x-apikey")) ∧
    h' !! "x-platform" = Some (default (platform config) (h !! "x-platform")) ∧
    (∀ k v, h !! k = Some v → h' !! k = Some v) ∧
    (∀ k, k ≠ "x-apikey" → k ≠ "x-platform" → h' !! k = h !! k) ∧
    (∀ r, r ≠ headers config → ensure_defaults config σ !! r = σ !! r) ∧
    ensure_defaults config (ensure_defaults config σ) = ensure_defaults config σ.
Proof.
  intros Hh. unfold ensure_defaults.
  set (f := λ h, set_default "x-platform" (platform config)
                   (set_default "x-apikey" (api_key config) h)).
  assert (∀ g, f g !! "x-apikey" = Some (default (api_key config) (g !! "x-apikey")))
    as Hkey.
  { intros g. unfold f.
    by rewrite lookup_set_default_ne, lookup_set_default_eq. }
  assert (∀ g, f g !! "x-platform" = Some (default (platform config) (g !! "x-platform")))
    as Hplat.
  { intros g. unfold f.
    by rewrite lookup_set_default_eq, lookup_set_default_ne. }
  assert (∀ g k, k ≠ "x-apikey" → k ≠ "x-platform" → f g !! k = g !! k) as Hother.
  { intros g k H1 H2. unfold f. by rewrite !lookup_set_default_ne. }
  assert (∀ g k v, g !! k = Some v → f g !! k = Some v) as Hkeep.
  { intros g k v Hk.
    destruct (decide (k = "x-apikey")) as [->|H1]; [by rewrite Hkey, Hk|].
    destruct (decide (k = "x-platform")) as [->|H2]; [by rewrite Hplat, Hk|].
    by rewrite Hother. }
  assert (∀ g, f (f g) = f g) as Hidem.
  { intros g. apply map_eq. intros k.
    destruct (decide (k = "x-apikey")) as [->|H1]; [by rewrite !Hkey|].
    destruct (decide (k = "x-platform")) as [->|H2]; [by rewrite !Hplat|].
    by rewrite !Hother. }
  exists (f h). split_and!.
  - by rewrite lookup_alter_eq, Hh.
  - apply Hkey.
  - apply Hplat.
  - apply Hkeep.
  - apply Hother.
  - intros r Hr. by rewrite lookup_alter_ne.
  - apply map_eq. intros r. destruct (decide (r = headers config)) as [->|Hr].
    + rewrite !lookup_alter_eq, Hh. simpl. by rewrite Hidem.
    + by rewrite !lookup_alter_ne.
Qed.

(** X12.  The constructor of [WebSocketServer] accepts exactly the
    configurations that supply [on_auth_extract_user]; without a
    configuration, or without that callback, it raises [ValueError].
    Where it succeeds all five callbacks are set, each supplied callback is
    the one the application gave, the others are the defaults, and the
    user extractor is never a default the constructor chose. *)
Theorem server_constructor_requires_extractor config :
  match server_init config with
  | Ok config' =>
      ∃ given extract,
        config = Some given ∧
        on_auth_extract_user given = Some extract ∧
        on_auth_extract_user config' = Some extract ∧
        on_auth config' = Some (default default_handler (on_auth given)) ∧
        on_message config' = Some (default default_handler (on_message given)) ∧
        on_connect config' = Some (default default_handler (on_connect given)) ∧
        on_disconnect config' = Some (default default_handler (on_disconnect given))
  | Raise e =>
      e = "ValueError" ∧
      (config = None ∨ ∃ given, config = Some given ∧ on_auth_extract_user given = None)
  end.
Proof.
  unfold server_init, server_init_config, server_validate.
  destruct config as [given|]; simpl.
  - destruct (on_auth_extract_user given) as [extract|] eqn:He.
    + exists given, extract. unfold server_ensure_defaults, or_default. simpl.
      rewrite He.
      by destruct (on_auth given), (on_message given), (on_connect given),
                  (on_disconnect given).
    + split; [done|]. right. by exists given.
  - split; [done|]. by left.
Qed.

End Configurations.

Lemma ensure_defaults_completes_headers_witness :
  ∃ h',
    WsConfig.ensure_defaults
      (WsConfig.mkClientConfig "ws://localhost:18040/ws" "key-1" "qq"
                               (Some "uuid-1") 5 1 30 0) sample_store !! 0
    = Some h' ∧
    h' !! "x-apikey" = Some "stale-key" ∧
    h' !! "x-platform" = Some "qq".
Proof.
  destruct (ensure_defaults_completes_headers
              (WsConfig.mkClientConfig "ws://localhost:18040/ws" "key-1" "qq"
                                       (Some "uuid-1") 5 1 30 0)
              sample_store
              {[ "x-apikey" := "stale-key"; "x-uuid" := "stale-uuid";
                 "user-agent" := "bot" ]})
    as (h' & H1 & H2 & H3 & _).
  - reflexivity.
  - exists h'. split; [exact H1|]. split; [exact H2|exact H3].
Defined.

(** A handler registered as [ping], reached by a message of type
    [custom_ping]. *)
Lemma registered_handlers_are_reachable_witness :
  Server.route [("type", JStr "custom_ping"); ("payload", JDict [])]
  = Server.to_custom "custom_ping" ∧
  Api.route [("type", JStr "custom_ping"); ("payload", JDict [])]
  = Server.to_custom "custom_ping" ∧
  Server._handle_custom_message
    (WsConfig.registered_handlers
       [WsConfig.registers "pong" 1; WsConfig.registers "ping" 2;
        WsConfig.unregisters "custom_pong"]) "custom_ping" = Some 2.
Proof.
  apply (registered_handlers_are_reachable
           [WsConfig.registers "pong" 1; WsConfig.registers "ping" 2;
            WsConfig.unregisters "custom_pong"]
           "custom_ping" 2
           [("type", JStr "custom_ping"); ("payload", JDict [])]).
  - vm_compute. reflexivity.
  - reflexivity.
Defined.

(** ** The client's send operations *)

Section ClientSending.

Import Client.

Variable dumps_size : json → Z.
Variable millis : float → string.
Variable to_dict : Server.APIMessageBase → json.

Lemma sent_frames_emit e drv :
  sent_frames (emit e drv)
  = sent_frames drv ++ match e with ws_send u m => [(u, m)] | _ => [] end.
Proof.
  unfold sent_frames, emit. simpl. rewrite omap_app. simpl.
  by destruct e.
Qed.

(** What [_find_connection_for_target] answers with is in the table,
    connected, and shares the key or the platform with the target. *)
Lemma found_connection_matches drv key pf uuid :
  _find_connection_for_target drv key pf = Some uuid →
  ∃ c, (uuid, c) ∈ connections drv ∧
       connection_states drv !! uuid = Some connected ∧
       (api_key c = key ∨ platform c = pf).
Proof.
  unfold _find_connection_for_target.
  pose proof (first_connection_spec (exact_match drv key pf) (connections drv)) as H1.
  pose proof (first_connection_spec (api_key_match drv key) (connections drv)) as H2.
  pose proof (first_connection_spec (platform_match drv pf) (connections drv)) as H3.
  destruct (first_connection (exact_match drv key pf) _) as [u|].
  { intros [= ->]. destruct H1 as (before & c & after & -> & Ht & _).
    apply exact_match_spec in Ht as (? & ? & ?). exists c.
    split_and!; [|done|by left]. apply elem_of_app. right. by left. }
  destruct (first_connection (api_key_match drv key) _) as [u|].
  { intros [= ->]. destruct H2 as (before & c & after & -> & Ht & _).
    apply api_key_match_spec in Ht as (? & ?). exists c.
    split_and!; [|done|by left]. apply elem_of_app. right. by left. }
  destruct (first_connection (platform_match drv pf) _) as [u|]; [|done].
  intros [= ->]. destruct H3 as (before & c & after & -> & Ht & _).
  apply platform_match_spec in Ht as (? & ?). exists c.
  split_and!; [|done|by right]. apply elem_of_app. right. by left.
Qed.

(** Without a connected connection of the key or the platform it answers
    [None]. *)
Lemma nothing_found drv key pf :
  (∀ uuid c, (uuid, c) ∈ connections drv →
             connection_states drv !! uuid = Some connected →
             api_key c ≠ key ∧ platform c ≠ pf) →
  _find_connection_for_target drv key pf = None.
Proof.
  intros Hno.
  destruct (_find_connection_for_target drv key pf) as [uuid|] eqn:Hf; [|done].
  apply found_connection_matches in Hf as (c & Hin & Hst & Hm).
  destruct (Hno _ _ Hin Hst). tauto.
Qed.

Lemma deliver_spec cl uuid message w :
  let result := Api.deliver dumps_size cl uuid message w in
  Api.config result.1 = Api.config cl ∧
  Api.connected result.1 = Api.connected cl ∧
  sent_frames (Api.network_driver result.1)
  = sent_frames (Api.network_driver cl)
    ++ (if decide (uuid ∈ active_connections (Api.network_driver cl))
        then [(uuid, message)] else []) ∧
  (result.2 = true ↔
   uuid ∈ active_connections (Api.network_driver cl) ∧ on_send w = sent) ∧
  Api.stats result.1
  = if result.2 then alter (Z.add 1) "messages_sent" (Api.stats cl)
    else Api.stats cl.
Proof.
  cbv zeta. unfold Api.deliver, _send_raw_message.
  destruct (decide (uuid ∈ active_connections (Api.network_driver cl))) as [Hin|Hout].
  - destruct (on_send w) eqn:Hw; simpl;
      unfold sent_frames; simpl; rewrite ?omap_app; simpl;
      rewrite ?app_nil_r, <- ?app_assoc; simpl;
      (split_and!; [done|done|done|split; [done|by intros [_ ?]]|done])
      || (split_and!; [done|done|done|done|done]).
  - simpl. unfold sent_frames. simpl. rewrite omap_app. simpl.
    split_and!; [done|done|done|split; [done|by intros [? _]]|done].
Qed.

(** X13.  The client's [Api.send_message] writes at most one frame, and only
    to a connection of the table that is in state [connected] and has the
    target's API key or the target's platform; the frame is the [sys_std]
    envelope around the message, which the server's dispatcher takes to
    [on_message].  It answers [True] only after the write
    succeeded, and counts [messages_sent] exactly then; when no connected
    connection has the key or the platform it answers [False] and touches
    nothing. *)
Theorem client_send_message_selects cl message stamp now w :
  let drv := Api.network_driver cl in
  let key := Server.get_api_key message in
  let pf := Server.get_platform message in
  let result := Api.send_message dumps_size millis to_dict cl message stamp now w in
  ∃ written,
    sent_frames (Api.network_driver result.1) = sent_frames drv ++ written ∧
    (∀ uuid frame, (uuid, frame) ∈ written →
       written = [(uuid, frame)] ∧
       frame = Api.package cl ("msg_" +:+ millis stamp) "sys_std" now (to_dict message) ∧
       (∃ message_data,
          frame = JDict message_data ∧
          Server.route message_data = Server.to_on_message) ∧
       uuid ∈ active_connections drv ∧
       ∃ c, (uuid, c) ∈ connections drv ∧
            connection_states drv !! uuid = Some connected ∧
            (api_key c = key ∨ platform c = pf)) ∧
    (result.2 = true ↔ written ≠ [] ∧ on_send w = sent) ∧
    Api.stats result.1
    = (if result.2 then alter (Z.add 1) "messages_sent" (Api.stats cl)
       else Api.stats cl) ∧
    ((∀ uuid c, (uuid, c) ∈ connections drv →
                connection_states drv !! uuid = Some connected →
                api_key c ≠ key ∧ platform c ≠ pf) →
     result = (cl, false)).
Proof.
  cbv zeta. unfold Api.send_message.
  destruct (_find_connection_for_target (Api.network_driver cl)
              (Server.get_api_key message) (Server.get_platform message))
    as [uuid|] eqn:Hf; simpl.
  - destruct (str_truthy uuid) eqn:Hu.
    + pose proof (deliver_spec cl uuid
        (Api.package cl ("msg_" +:+ millis stamp) "sys_std" now (to_dict message)) w)
        as (_ & _ & Hs & Hr & Hst).
      cbv zeta in Hs, Hr, Hst.
      eexists. split; [exact Hs|].
      apply found_connection_matches in Hf as Hm.
      split_and!.
      * intros u frame Hin.
        destruct (decide (uuid ∈ active_connections (Api.network_driver cl)));
          [|by apply elem_of_nil in Hin].
        apply list_elem_of_singleton in Hin as [= -> ->].
        split_and!; [done|done|by eexists|done|done].
      * rewrite Hr.
        destruct (decide (uuid ∈ active_connections (Api.network_driver cl)));
          [|split; intros [? ?]; done].
        split; intros [? ?]; done.
      * done.
      * intros Hno. destruct Hm as (c & Hin & Hc & Hm).
        destruct (Hno _ _ Hin Hc). tauto.
    + exists []. rewrite app_nil_r. split_and!; [done| | |done|done].
      * by intros ? ? ?%elem_of_nil.
      * split; [done|by intros [? _]].
  - exists []. rewrite app_nil_r. split_and!; [done| | |done|done].
    + by intros ? ? ?%elem_of_nil.
    + split; [done|by intros [? _]].
Qed.

(** X14.  A custom message the client sends reaches the handler the server
    registered under the same name, with or without the prefix on either
    side: when [Api.send_custom_message] answers [True], the client believed
    itself connected, it wrote one frame to the connection of its
    configuration, that frame carries the payload, and the server's
    dispatcher takes it to the handler that [register_custom_handler]
    stored for the name. *)
Theorem custom_message_reaches_its_handler {H : Type} cl name payload stamp now w
    (handler : H) (custom_handlers : gmap string H) :
  let result := Api.send_custom_message dumps_size millis cl name payload stamp now w in
  result.2 = true →
  ∃ uuid message_data,
    Api.connected cl = true ∧
    WsConfig.connection_uuid (Api.config cl) = Some uuid ∧
    sent_frames (Api.network_driver result.1)
    = sent_frames (Api.network_driver cl) ++ [(uuid, JDict message_data)] ∧
    dict_get "payload" message_data = Some payload ∧
    Server.route message_data = Server.to_custom (WsConfig.custom_type name) ∧
    Server._handle_custom_message
      (WsConfig.register_custom_handler name handler custom_handlers)
      (WsConfig.custom_type name) = Some handler ∧
    (∀ other, WsConfig.custom_type other = WsConfig.custom_type name →
       (Api.send_custom_message dumps_size millis cl other payload stamp now w) = result).
Proof.
  cbv zeta. unfold Api.send_custom_message.
  destruct (Api.connected cl) eqn:Hc; [|done].
  destruct (WsConfig.connection_uuid (Api.config cl)) as [uuid|] eqn:Hu; [|done].
  simpl. destruct (str_truthy uuid) eqn:Ht; [|done].
  set (message := Api.package cl ("custom_" +:+ millis stamp)
                    (WsConfig.custom_type name) now payload).
  pose proof (deliver_spec cl uuid message w) as (_ & _ & Hs & Hr & _).
  cbv zeta in Hs, Hr. intros Hok. apply Hr in Hok as Hin. destruct Hin as [Hin Hw].
  destruct (decide (uuid ∈ active_connections (Api.network_driver cl))); [|done].
  exists uuid. eexists. split_and!; [done|done|exact Hs|done| | |].
  - apply custom_route; [done|apply custom_type_prefix].
  - unfold WsConfig.register_custom_handler, Server._handle_custom_message.
    by rewrite lookup_insert_eq.
  - intros other Ho. by rewrite Ho.
Qed.

Lemma messages_change_no_belief events : ∀ cl,
  Forall (λ ev, event_type ev = MESSAGE) events →
  Api.connected (Api.run cl events) = Api.connected cl ∧
  Api.last_error (Api.run cl events) = Api.last_error cl.
Proof.
  induction events as [|ev events IH]; intros cl Hall; [done|].
  apply Forall_cons in Hall as [He Hall]. unfold Api.run in *. simpl.
  destruct (IH (Api.dispatch cl ev) Hall) as [-> ->].
  unfold Api.dispatch. rewrite He. unfold Api._handle_message_event.
  destruct (payload ev); [|done]. by destruct (Api.route _).
Qed.

Lemma run_keeps_driver events : ∀ cl,
  Api.network_driver (Api.run cl events) = Api.network_driver cl.
Proof.
  induction events as [|ev events IH]; intros cl; [done|].
  unfold Api.run in *. simpl. rewrite IH. unfold Api.dispatch.
  destruct (event_type ev); [done|done|].
  unfold Api._handle_message_event. destruct (payload ev); [|done].
  by destruct (Api.route _).
Qed.

(** X15.  The client believes what the last event told it, whichever
    connection the event came from: after the events the dispatcher
    handled, [connected] is true when the last event that is not a
    [MESSAGE] was a [CONNECT], false with [last_error] the error of the
    event when it was a [DISCONNECT], and unchanged when there was none;
    and as long as the belief is "not connected" [send_custom_message]
    refuses and writes nothing, whatever the driver's tables say. *)
Theorem client_believes_last_event cl events payload name stamp now w :
  let cl' := Api.run cl events in
  (Forall (λ ev, event_type ev = MESSAGE) events →
   Api.connected cl' = Api.connected cl) ∧
  (∀ earlier ev later,
     events = earlier ++ ev :: later →
     Forall (λ ev, event_type ev = MESSAGE) later →
     match event_type ev with
     | CONNECT => Api.connected cl' = true ∧ Api.last_error cl' = None
     | DISCONNECT =>
         Api.connected cl' = false ∧ Api.last_error cl' = event_error ev
     | MESSAGE => True
     end) ∧
  Api.network_driver cl' = Api.network_driver cl ∧
  (Api.connected cl' = false →
   Api.send_custom_message dumps_size millis cl' name payload stamp now w
   = (cl', false)).
Proof.
  cbv zeta. split_and!.
  - intros Hall. by apply messages_change_no_belief.
  - intros earlier ev later -> Hall. unfold Api.run.
    rewrite foldl_app. simpl.
    destruct (messages_change_no_belief later
                (Api.dispatch (foldl Api.dispatch cl earlier) ev) Hall)
      as [H1 H2].
    unfold Api.run in H1, H2. rewrite H1, H2. unfold Api.dispatch.
    by destruct (event_type ev).
  - apply run_keeps_driver.
  - intros Hc. unfold Api.send_custom_message. by rewrite Hc.
Qed.

Lemma first_connection_ext test1 test2 items :
  (∀ u c, test1 u c = test2 u c) →
  first_connection test1 items = first_connection test2 items.
Proof.
  intros Hext. induction items as [|[k c] items IH]; [done|].
  simpl. by rewrite Hext, IH.
Qed.

(** Target resolution reads the table of connections and their states,
    nothing else. *)
Lemma find_connection_ext drv drv' key pf :
  connections drv' = connections drv →
  connection_states drv' = connection_states drv →
  _find_connection_for_target drv' key pf = _find_connection_for_target drv key pf.
Proof.
  intros Hc Hs. unfold _find_connection_for_target. rewrite Hc.
  rewrite (first_connection_ext (exact_match drv' key pf) (exact_match drv key pf)),
          (first_connection_ext (api_key_match drv' key) (api_key_match drv key)),
          (first_connection_ext (platform_match drv' pf) (platform_match drv pf));
    [done|..];
    intros u c; unfold exact_match, api_key_match, platform_match, is_connected;
    by rewrite Hs.
Qed.

(** X27.  A connection whose socket turned out to be closed is not chosen
    again: when a write to an active connection meets [ConnectionClosed],
    [_send_raw_message] answers [False] and marks the connection
    [disconnected], so [_find_connection_for_target] skips it whatever the
    target; after any other failure of the write, as after a success, the
    states are as before and the same connection is chosen again. *)
Theorem closed_connection_is_skipped uuid message w drv key pf :
  uuid ∈ active_connections drv →
  let result := _send_raw_message dumps_size uuid message w drv in
  sent_frames result.1 = sent_frames drv ++ [(uuid, message)] ∧
  match on_send w with
  | connection_closed =>
      result.2 = false ∧
      connection_states result.1 !! uuid = Some disconnected ∧
      _find_connection_for_target result.1 key pf ≠ Some uuid
  | send_raises _ =>
      result.2 = false ∧
      connection_states result.1 = connection_states drv ∧
      _find_connection_for_target result.1 key pf
      = _find_connection_for_target drv key pf
  | sent =>
      result.2 = true ∧
      connection_states result.1 = connection_states drv ∧
      _find_connection_for_target result.1 key pf
      = _find_connection_for_target drv key pf
  end.
Proof.
  intros Hin. cbv zeta. unfold _send_raw_message. rewrite decide_True by done.
  destruct (on_send w) as [| |e]; cbn [fst snd].
  - split; [|split_and!; [done|done|by apply find_connection_ext]].
    unfold sent_frames. simpl. rewrite omap_app. done.
  - split; [|split_and!; [done|apply lookup_insert_eq|]].
    + unfold sent_frames. simpl. rewrite !omap_app. simpl. by rewrite app_nil_r.
    + intros Hf. apply found_connection_matches in Hf as (c & _ & Hst & _).
      simpl in Hst. by rewrite lookup_insert_eq in Hst.
  - split; [|split_and!; [done|done|by apply find_connection_ext]].
    unfold sent_frames. simpl. rewrite !omap_app. simpl. by rewrite !app_nil_r.
Qed.

End ClientSending.

Lemma custom_message_reaches_its_handler_witness :
  ∃ uuid message_data,
    Api.connected sample_client = true ∧
    WsConfig.connection_uuid (Api.config sample_client) = Some uuid ∧
    Client.sent_frames
      (Api.network_driver
         (Api.send_custom_message sample_size (λ _, "1700000000000")
            sample_client "ping" (JDict []) 1700000000 1700000000
            sample_world).1)
    = Client.sent_frames (Api.network_driver sample_client)
      ++ [(uuid, JDict message_data)] ∧
    dict_get "payload" message_data = Some (JDict []) ∧
    Server.route message_data = Server.to_custom (WsConfig.custom_type "ping") ∧
    Server._handle_custom_message
      (WsConfig.register_custom_handler "ping" 7
         (WsConfig.register_custom_handler "custom_ping" 3 ∅))
      (WsConfig.custom_type "ping") = Some 7 ∧
    (∀ other, WsConfig.custom_type other = WsConfig.custom_type "ping" →
       Api.send_custom_message sample_size (λ _, "1700000000000")
         sample_client other (JDict []) 1700000000 1700000000 sample_world
       = Api.send_custom_message sample_size (λ _, "1700000000000")
           sample_client "ping" (JDict []) 1700000000 1700000000 sample_world).
Proof.
  apply (custom_message_reaches_its_handler sample_size (λ _, "1700000000000")
           sample_client "ping" (JDict []) 1700000000 1700000000 sample_world
           7 (WsConfig.register_custom_handler "custom_ping" 3 ∅)).
  vm_compute. reflexivity.
Defined.

(** A write on the established sample connection that finds the socket
    closed. *)
Lemma closed_connection_is_skipped_witness :
  let result :=
    Client._send_raw_message sample_size "uuid-1" (JDict [])
      (Client.mkWorld "id-1" 1700000000 Client.connection_closed) sample_driver in
  Client.sent_frames result.1
  = Client.sent_frames sample_driver ++ [("uuid-1", JDict [])] ∧
  result.2 = false ∧
  Client.connection_states result.1 !! "uuid-1" = Some Client.disconnected ∧
  Client._find_connection_for_target result.1 "key-1" "qq" ≠ Some "uuid-1".
Proof.
  apply (closed_connection_is_skipped sample_size "uuid-1" (JDict [])
           (Client.mkWorld "id-1" 1700000000 Client.connection_closed)
           sample_driver "key-1" "qq").
  vm_compute. reflexivity.
Defined.

(** ** The client: sessions seen from outside *)

Section Sessions.

Import Client.

Variable json_loads : string → Loaded.
Variable dumps_size : json → Z.

Local Abbreviation handle_message := (_handle_message json_loads dumps_size).
Local Abbreviation reading := (read_loop json_loads dumps_size).

Lemma leaves_alone_inv uuid f drv :
  leaves_alone uuid f →
  running (f drv) = running drv ∧
  shutdown (f drv) = shutdown drv ∧
  lookup_connection uuid (connections (f drv))
  = lookup_connection uuid (connections drv) ∧
  (uuid ∈ active_connections (f drv) ↔ uuid ∈ active_connections drv) ∧
  connection_states (f drv) !! uuid = connection_states drv !! uuid ∧
  (is_Some (event_queue (f drv)) ↔ is_Some (event_queue drv)) ∧
  events_of uuid (f drv) = events_of uuid drv ∧
  frames_to uuid (f drv) = frames_to uuid drv ∧
  loop_effects uuid (f drv) = loop_effects uuid drv.
Proof.
  intros H. specialize (H drv).
  pose proof (f_equal seen_running H) as H1.
  pose proof (f_equal seen_shutdown H) as H2.
  pose proof (f_equal seen_config H) as H3.
  pose proof (f_equal seen_active H) as H4.
  pose proof (f_equal seen_state H) as H5.
  pose proof (f_equal seen_queue H) as H6.
  pose proof (f_equal seen_events H) as H7.
  pose proof (f_equal seen_frames H) as H8.
  pose proof (f_equal seen_loop H) as H9.
  simpl in *. split_and!; try done.
  - split; intros Hx.
    + apply (bool_decide_unpack (uuid ∈ active_connections drv)).
      rewrite <- H4. by apply bool_decide_pack.
    + apply (bool_decide_unpack (uuid ∈ active_connections (f drv))).
      rewrite H4. by apply bool_decide_pack.
  - split; intros Hx.
    + apply (bool_decide_unpack (is_Some (event_queue drv))).
      rewrite <- H6. by apply bool_decide_pack.
    + apply (bool_decide_unpack (is_Some (event_queue (f drv)))).
      rewrite H6. by apply bool_decide_pack.
Qed.

Lemma leaves_alone_id uuid : leaves_alone uuid id.
Proof. by intros drv. Qed.

Lemma leaves_alone_undisturbed uuid f : leaves_alone uuid f → undisturbed uuid f.
Proof.
  intros H drv. destruct (leaves_alone_inv uuid f drv H)
    as (H1 & H2 & H3 & _ & _ & _ & _ & _ & H9).
  split; [|done]. unfold alive, is_registered. by rewrite H1, H2, H3.
Qed.

Lemma events_of_enqueue uuid ev drv q :
  event_queue drv = Some q →
  events_of uuid (enqueue ev drv)
  = events_of uuid drv ++ (if decide (event_uuid ev = uuid) then [ev] else []).
Proof.
  intros Hq. unfold events_of, enqueue. simpl. rewrite Hq. simpl.
  by rewrite filter_app.
Qed.

Lemma frames_to_emit uuid e drv :
  frames_to uuid (emit e drv)
  = frames_to uuid drv
    ++ match e with
       | ws_send u m => if String.eqb u uuid then [m] else []
       | _ => []
       end.
Proof.
  unfold frames_to. rewrite sent_frames_emit, omap_app. f_equal.
  destruct e; try done. simpl. by destruct (String.eqb uuid0 uuid).
Qed.

(** What [_send_event] does to the queue of a registered connection. *)
Lemma send_event_view ty uuid data err now drv config :
  lookup_connection uuid (connections drv) = Some config →
  is_Some (event_queue drv) →
  let drv' := _send_event ty uuid data err now drv in
  running drv' = running drv ∧ shutdown drv' = shutdown drv ∧
  connections drv' = connections drv ∧
  active_connections drv' = active_connections drv ∧
  connection_states drv' = connection_states drv ∧
  stats drv' = stats drv ∧
  effects drv' = effects drv ∧
  is_Some (event_queue drv') ∧
  events_of uuid drv' = events_of uuid drv ++ [mkEvent ty uuid config data err now].
Proof.
  intros Hc [q Hq]. cbv zeta. unfold _send_event. rewrite Hq, Hc.
  split_and!; try done.
  - simpl. rewrite Hq. by eexists.
  - rewrite (events_of_enqueue _ _ _ q) by done. simpl.
    by rewrite decide_True.
Qed.

(** What [_send_event] does for a connection that is not registered:
    the event is dropped. *)
Lemma send_event_dropped ty uuid data err now drv :
  lookup_connection uuid (connections drv) = None →
  let drv' := _send_event ty uuid data err now drv in
  running drv' = running drv ∧ shutdown drv' = shutdown drv ∧
  connections drv' = connections drv ∧
  active_connections drv' = active_connections drv ∧
  connection_states drv' = connection_states drv ∧
  stats drv' = stats drv ∧
  event_queue drv' = event_queue drv.
Proof.
  intros Hc. cbv zeta. unfold _send_event. rewrite Hc.
  destruct (event_queue drv) eqn:Hq; simpl; by rewrite ?Hq.
Qed.

(** What [_send_raw_message] leaves as it was, and what it writes. *)
Lemma send_raw_view uuid message w drv :
  let drv' := (_send_raw_message dumps_size uuid message w drv).1 in
  running drv' = running drv ∧ shutdown drv' = shutdown drv ∧
  connections drv' = connections drv ∧
  active_connections drv' = active_connections drv ∧
  event_queue drv' = event_queue drv ∧
  (uuid ∉ active_connections drv →
   connection_states drv' = connection_states drv ∧ stats drv' = stats drv) ∧
  stats drv' !! "current_connections" = stats drv !! "current_connections" ∧
  stats drv' !! "total_connections" = stats drv !! "total_connections" ∧
  frames_to uuid drv'
  = frames_to uuid drv
    ++ (if decide (uuid ∈ active_connections drv) then [message] else []).
Proof.
  cbv zeta. unfold _send_raw_message.
  destruct (decide (uuid ∈ active_connections drv)) as [Hin|Hout].
  - destruct (on_send w); simpl;
      (split_and!; [done|done|done|done|done|done|
                    by rewrite ?lookup_alter_ne|by rewrite ?lookup_alter_ne|]);
      unfold frames_to, sent_frames; simpl; rewrite ?omap_app; simpl;
      rewrite String.eqb_refl; simpl; by rewrite ?app_nil_r.
  - simpl. split_and!; try done.
    unfold frames_to, sent_frames. simpl. rewrite !omap_app. simpl.
    by rewrite !app_nil_r.
Qed.

(** One received frame on a registered connection of a driver with a
    queue. *)
Lemma handle_message_view uuid r drv config :
  lookup_connection uuid (connections drv) = Some config →
  is_Some (event_queue drv) →
  let drv' := handle_message uuid (frame r) (world r) drv in
  running drv' = running drv ∧ shutdown drv' = shutdown drv ∧
  connections drv' = connections drv ∧
  active_connections drv' = active_connections drv ∧
  is_Some (event_queue drv') ∧
  events_of uuid drv'
  = events_of uuid drv ++ option_list (message_event json_loads uuid config r) ∧
  frames_to uuid drv'
  = frames_to uuid drv
    ++ (if decide (uuid ∈ active_connections drv)
        then option_list (ack_of json_loads uuid r) else []) ∧
  (uuid ∉ active_connections drv →
   connection_states drv' = connection_states drv) ∧
  stats drv' !! "current_connections" = stats drv !! "current_connections" ∧
  stats drv' !! "total_connections" = stats drv !! "total_connections" ∧
  loop_effects uuid drv' = loop_effects uuid drv.
Proof.
  intros Hc Hq. cbv zeta.
  assert (loop_effects uuid (handle_message uuid (frame r) (world r) drv)
          = loop_effects uuid drv) as Hloop
    by apply (steady_handle_message json_loads dumps_size).
  unfold _handle_message in *. unfold message_event, ack_of.
  set (drv0 := match frame r with text _ => _ | binary _ => _ end) in *.
  assert (running drv0 = running drv ∧ shutdown drv0 = shutdown drv ∧
          connections drv0 = connections drv ∧
          active_connections drv0 = active_connections drv ∧
          event_queue drv0 = event_queue drv ∧
          connection_states drv0 = connection_states drv ∧
          effects drv0 = effects drv ∧
          stats drv0 !! "current_connections" = stats drv !! "current_connections" ∧
          stats drv0 !! "total_connections" = stats drv !! "total_connections")
    as (R0 & S0 & C0 & A0 & Q0 & T0 & E0 & N0 & N0').
  { unfold drv0. destruct (frame r); simpl;
      by rewrite ?lookup_alter_ne. }
  assert (events_of uuid drv0 = events_of uuid drv) as Ev0
    by (unfold events_of; by rewrite Q0).
  assert (frames_to uuid drv0 = frames_to uuid drv) as Fr0
    by (unfold frames_to, sent_frames; by rewrite E0).
  destruct (decode json_loads (frame r)) as [data|e].
  - set (drv1 := match ack_due data with Some _ => _ | None => _ end) in *.
    assert (running drv1 = running drv ∧ shutdown drv1 = shutdown drv ∧
            connections drv1 = connections drv ∧
            active_connections drv1 = active_connections drv ∧
            event_queue drv1 = event_queue drv ∧
            (uuid ∉ active_connections drv →
             connection_states drv1 = connection_states drv) ∧
            stats drv1 !! "current_connections" = stats drv !! "current_connections" ∧
            stats drv1 !! "total_connections" = stats drv !! "total_connections" ∧
            frames_to uuid drv1
            = frames_to uuid drv
              ++ (if decide (uuid ∈ active_connections drv)
                  then option_list
                         (match ack_due data with
                          | Some msg_id => Some (ack_message uuid msg_id (world r))
                          | None => None
                          end)
                  else []))
      as (R1 & S1 & C1 & A1 & Q1 & T1 & N1 & N1' & F1).
    { unfold drv1. destruct (ack_due data) as [msg_id|].
      - unfold _send_ack.
        destruct (send_raw_view uuid (ack_message uuid msg_id (world r))
                    (world r) drv0) as (? & ? & ? & ? & ? & Hst & ? & ? & Hf).
        rewrite A0 in Hf, Hst.
        split_and!; try congruence.
        + intros Hout. destruct (Hst Hout). congruence.
        + rewrite Hf, Fr0. by destruct (decide _).
      - split_and!; try done. rewrite Fr0.
        destruct (decide _); simpl; by rewrite app_nil_r. }
    assert (events_of uuid drv1 = events_of uuid drv) as Ev1
      by (unfold events_of; by rewrite Q1).
    destruct (send_event_view MESSAGE uuid (Some data) None (time (world r))
                drv1 config) as (R2 & S2 & C2 & A2 & T2 & N2 & E2 & Q2 & Ev2).
    { by rewrite C1. }
    { by rewrite Q1. }
    split_and!; try congruence.
    + by rewrite Ev2, Ev1.
    + unfold frames_to, sent_frames in *. by rewrite E2.
    + intros Hout. rewrite T2. by apply T1.
  - simpl. split_and!; try done.
    + by rewrite Q0.
    + unfold events_of. simpl. rewrite Q0. by rewrite app_nil_r.
    + rewrite !frames_to_emit, Fr0. simpl. rewrite !app_nil_r.
      destruct (decide _); by rewrite app_nil_r.
Qed.

(** The read loop of a registered connection that other tasks leave
    alone. *)
Lemma read_loop_view uuid config frames : ∀ drv,
  running drv = true →
  lookup_connection uuid (connections drv) = Some config →
  is_Some (event_queue drv) →
  Forall (λ r, leaves_alone uuid (before_frame r)) frames →
  let result := reading uuid frames drv in
  result.2 = false ∧
  running result.1 = true ∧
  shutdown result.1 = shutdown drv ∧
  lookup_connection uuid (connections result.1) = Some config ∧
  is_Some (event_queue result.1) ∧
  (uuid ∈ active_connections result.1 ↔ uuid ∈ active_connections drv) ∧
  events_of uuid result.1
  = events_of uuid drv ++ omap (message_event json_loads uuid config) frames ∧
  frames_to uuid result.1
  = frames_to uuid drv
    ++ (if decide (uuid ∈ active_connections drv)
        then omap (ack_of json_loads uuid) frames else []) ∧
  (uuid ∉ active_connections drv →
   connection_states result.1 !! uuid = connection_states drv !! uuid) ∧
  loop_effects uuid result.1 = loop_effects uuid drv.
Proof.
  induction frames as [|r frames IH]; intros drv Hrun Hc Hq Hall; cbv zeta.
  - simpl. rewrite !app_nil_r. split_and!; try done.
    destruct (decide _); by rewrite app_nil_r.
  - apply Forall_cons in Hall as [Hr Hall]. simpl.
    destruct (leaves_alone_inv uuid (before_frame r) drv Hr)
      as (R1 & S1 & C1 & A1 & T1 & Q1 & E1 & F1 & L1).
    rewrite R1, Hrun. unfold is_registered. rewrite C1, Hc. simpl.
    destruct (handle_message_view uuid r (before_frame r drv) config)
      as (R2 & S2 & C2 & A2 & Q2 & E2 & F2 & T2 & _ & _ & L2).
    { by rewrite C1. }
    { by apply Q1. }
    destruct (IH (handle_message uuid (frame r) (world r) (before_frame r drv)))
      as (B3 & R3 & S3 & C3 & Q3 & A3 & E3 & F3 & T3 & L3).
    { by rewrite R2, R1. }
    { by rewrite C2, C1. }
    { done. }
    { done. }
    split_and!; try done.
    + congruence.
    + by rewrite A3, A2.
    + rewrite E3, E2, E1, <- app_assoc. f_equal.
      by destruct (message_event json_loads uuid config r).
    + rewrite F3, F2, F1, A2, <- app_assoc. f_equal.
      destruct (decide (uuid ∈ active_connections (before_frame r drv)))
        as [Hin|Hout].
      * rewrite decide_True by (by apply A1).
        by destruct (ack_of json_loads uuid r).
      * rewrite decide_False by (by rewrite <- A1). done.
    + intros Hout. rewrite T3.
      * rewrite T2; [done|]. by rewrite A1.
      * rewrite A2. by rewrite A1.
    + congruence.
Qed.



(** The [try] statement of a turn on a registered connection that other
    tasks leave alone. *)
Lemma session_view config registered uuid it loc drv :
  left_alone uuid it →
  running drv = true →
  lookup_connection uuid (connections drv) = Some registered →
  is_Some (event_queue drv) →
  let drv' := (session json_loads dumps_size config uuid it loc drv).1 in
  running drv' = true ∧
  shutdown drv' = shutdown drv ∧
  lookup_connection uuid (connections drv') = Some registered ∧
  is_Some (event_queue drv') ∧
  events_of uuid drv'
  = events_of uuid drv ++ turn_events json_loads uuid registered it.
Proof.
  intros (_ & _ & Hfr) Hrun Hc Hq. cbv zeta. unfold session, turn_events.
  destruct (attempt it) as [e|frames ending].
  - unfold on_exception. cbn [fst].
    destruct (send_event_view DISCONNECT uuid None (Some e) (clock it)
                (add_stat "reconnect_attempts" 1 drv) registered)
      as (R & S & C & _ & _ & _ & _ & Q & E); [done|done|].
    simpl in R, S, C.
    split_and!; [congruence|congruence|by rewrite C|done|exact E].
  - set (drv0 := add_stat _ _ _).
    destruct (send_event_view CONNECT uuid None None (clock it) drv0 registered)
      as (R1 & S1 & C1 & _ & _ & _ & _ & Q1 & E1); [done|done|].
    set (drv1 := _send_event CONNECT uuid None None (clock it) drv0) in *.
    destruct (read_loop_view uuid registered frames drv1)
      as (B & R2 & S2 & C2 & Q2 & _ & E2 & _);
      [rewrite R1; exact Hrun|rewrite C1; exact Hc|done|done|].
    destruct (reading uuid frames drv1) as [drv2 broke]. simpl in *. subst broke.
    assert (events_of uuid drv0 = events_of uuid drv) as E0 by done.
    assert (events_of uuid drv2
            = events_of uuid drv
              ++ mkEvent CONNECT uuid registered None None (clock it)
                 :: omap (message_event json_loads uuid registered) frames)
      as E2'.
    { rewrite E2, E1, E0. by rewrite <- app_assoc. }
    destruct ending as [|e|e].
    + rewrite app_nil_r. split_and!; [done|congruence|done|done|done].
    + rewrite app_nil_r. split_and!; [done|simpl; congruence|done|done|exact E2'].
    + unfold on_exception.
      destruct (send_event_view DISCONNECT uuid None (Some e) (clock it)
                  (add_stat "reconnect_attempts" 1 drv2) registered)
        as (R3 & S3 & C3 & _ & _ & _ & _ & Q3 & E3); [done|done|].
      simpl in R3, S3, C3.
      change (events_of uuid (add_stat "reconnect_attempts" 1 drv2))
        with (events_of uuid drv2) in E3.
      split_and!; [congruence|congruence|by rewrite C3|done|].
      rewrite E3, E2'. by rewrite <- app_assoc.
Qed.

(** A whole turn on a registered connection that other tasks leave
    alone. *)
Lemma turn_view config registered uuid it loc drv :
  left_alone uuid it →
  alive uuid drv = true →
  lookup_connection uuid (connections drv) = Some registered →
  is_Some (event_queue drv) →
  let drv' := turn_driver (turn json_loads dumps_size config uuid it loc drv) in
  events_of uuid drv'
  = events_of uuid drv ++ turn_events json_loads uuid registered it ∧
  (connection_states drv' !! uuid = Some disconnected ∨
   connection_states drv' !! uuid = Some error) ∧
  (uuid ∉ active_connections drv') ∧
  lookup_connection uuid (connections drv') = Some registered ∧
  is_Some (event_queue drv').
Proof.
  intros Hit Halive Hc Hq. pose proof Hit as (Hhs & Hw & _).
  destruct (alive_flags _ _ Halive) as (Hrun & _ & Hsh).
  cbv zeta. unfold turn.
  set (drvA := during_handshake it _).
  destruct (leaves_alone_inv uuid (during_handshake it)
              (emit (ws_connect uuid) (set_state uuid connecting drv)) Hhs)
    as (RA & SA & CA & _ & _ & QA & EA & _). fold drvA in RA, SA, CA, QA, EA.
  simpl in RA, SA, CA, QA.
  change (events_of uuid (emit (ws_connect uuid) (set_state uuid connecting drv)))
    with (events_of uuid drv) in EA.
  destruct (session_view config registered uuid it loc drvA Hit)
    as (RB & SB & CB & QB & EB); [congruence|congruence|by apply QA|].
  destruct (session json_loads dumps_size config uuid it loc drvA)
    as [drvB loc1]. simpl in RB, SB, CB, QB, EB.
  set (drvC := cleanup uuid drvB).
  assert (running drvC = true ∧ shutdown drvC = false ∧
          lookup_connection uuid (connections drvC) = Some registered ∧
          is_Some (event_queue drvC) ∧
          events_of uuid drvC = events_of uuid drvB ∧
          connection_states drvC !! uuid = Some disconnected ∧
          uuid ∉ active_connections drvC)
    as (RC & SC & CC & QC & EC & TC & AC).
  { unfold drvC, cleanup. simpl. split_and!; try done; try congruence.
    - apply lookup_insert_eq.
    - set_solver. }
  rewrite RC, SC. unfold is_registered. rewrite CC. cbn [andb negb].
  destruct (_ <? _)%Z; cbn [andb].
  - cbv zeta.
    match goal with
    | |- context [during_wait it ?d] =>
        destruct (leaves_alone_inv uuid (during_wait it) d Hw)
          as (RW & SW & CW & AW & TW & QW & EW & _);
        change (events_of uuid d) with (events_of uuid drvC) in EW;
        set (drvW := during_wait it d) in *
    end.
    simpl in RW, SW, CW, AW, TW, QW.
    assert (events_of uuid drvW = events_of uuid drv
                                  ++ turn_events json_loads uuid registered it
            ∧ (connection_states drvW !! uuid = Some disconnected
               ∨ connection_states drvW !! uuid = Some error)
            ∧ (uuid ∉ active_connections drvW)
            ∧ lookup_connection uuid (connections drvW) = Some registered
            ∧ is_Some (event_queue drvW)) as Hgoal.
    { split_and!.
      - by rewrite EW, EC, EB, EA.
      - left. by rewrite TW.
      - by rewrite AW.
      - by rewrite CW.
      - by apply QW. }
    by destruct (shutdown drvW).
  - simpl. split_and!.
    + change (events_of uuid (set_state uuid error drvC)) with (events_of uuid drvC).
      by rewrite EC, EB, EA.
    + right. apply lookup_insert_eq.
    + done.
    + done.
    + done.
Qed.

(** X18.  The driver tells the business layer of a lost connection only
    when the session ended with an exception other than
    [ConnectionClosedError].  After a turn of the loop on a registered
    connection that other tasks leave alone the tables say that the
    connection is not connected and not active, and the turn's events are
    the [CONNECT], the [MESSAGE]s of the frames and, only for such an
    exception or a failed attempt, a [DISCONNECT]: a client that
    dispatches them still believes itself connected after the peer closed
    the connection, normally or with an error. *)
Theorem closed_session_is_not_reported config registered uuid it loc drv cl :
  left_alone uuid it →
  alive uuid drv = true →
  lookup_connection uuid (connections drv) = Some registered →
  is_Some (event_queue drv) →
  let drv' := turn_driver (turn json_loads dumps_size config uuid it loc drv) in
  let news := turn_events json_loads uuid registered it in
  events_of uuid drv' = events_of uuid drv ++ news ∧
  connection_states drv' !! uuid ≠ Some connected ∧
  (uuid ∉ active_connections drv') ∧
  match attempt it with
  | established _ closed_ok | established _ (closed_error _) =>
      Api.connected (Api.run cl news) = true ∧
      Forall (λ ev, event_type ev ≠ DISCONNECT) news
  | established _ (session_raises e) | connect_raises e =>
      Api.connected (Api.run cl news) = false ∧
      Api.last_error (Api.run cl news) = Some e
  end.
Proof.
  intros Hit Halive Hc Hq.
  destruct (turn_view config registered uuid it loc drv Hit Halive Hc Hq)
    as (E & T & A & _).
  cbv zeta. split_and!; [done| |done|].
  { destruct T as [T|T]; rewrite T; done. }
  assert (∀ frames, Forall (λ ev, event_type ev = MESSAGE)
            (omap (message_event json_loads uuid registered) frames)) as Hmsg.
  { intros frames. apply Forall_forall. intros ev Hin.
    apply list_elem_of_omap in Hin as (r & _ & Hr).
    unfold message_event in Hr. destruct (decode _ _); by simplify_eq. }
  unfold turn_events. destruct (attempt it) as [e|frames ending]; [done|].
  destruct ending as [|e|e].
  - rewrite app_nil_r. split.
    + unfold Api.run. cbn [foldl].
      destruct (messages_change_no_belief _
                  (Api.dispatch cl (mkEvent CONNECT uuid registered None None (clock it)))
                  (Hmsg frames)) as [H1 _].
      unfold Api.run in H1. by rewrite H1.
    + apply Forall_cons. split; [done|].
      eapply Forall_impl; [apply Hmsg|]. intros ev ->. done.
  - rewrite app_nil_r. split.
    + unfold Api.run. cbn [foldl].
      destruct (messages_change_no_belief _
                  (Api.dispatch cl (mkEvent CONNECT uuid registered None None (clock it)))
                  (Hmsg frames)) as [H1 _].
      unfold Api.run in H1. by rewrite H1.
    + apply Forall_cons. split; [done|].
      eapply Forall_impl; [apply Hmsg|]. intros ev ->. done.
  - unfold Api.run. cbn [foldl]. rewrite foldl_app. by cbn [foldl].
Qed.

(** *** The connection counters *)

Lemma send_event_stats ty uuid data err now drv :
  stats (_send_event ty uuid data err now drv) = stats drv.
Proof.
  unfold _send_event. destruct (event_queue drv); [|done].
  by destruct (lookup_connection uuid (connections drv)).
Qed.

Lemma handle_message_counters uuid message w drv key :
  key = "current_connections" ∨ key = "total_connections" →
  stats (handle_message uuid message w drv) !! key = stats drv !! key.
Proof.
  intros Hkey. unfold _handle_message.
  set (drv0 := match message with text _ => _ | binary _ => _ end).
  assert (stats drv0 !! key = stats drv !! key) as H0.
  { unfold drv0. destruct message, Hkey as [-> | ->]; simpl;
      by rewrite ?lookup_alter_ne. }
  destruct (decode json_loads message) as [data|e]; [|done].
  rewrite send_event_stats. destruct (ack_due data) as [msg_id|]; [|done].
  unfold _send_ack.
  destruct (send_raw_view uuid (ack_message uuid msg_id w) w drv0)
    as (_ & _ & _ & _ & _ & _ & N1 & N2 & _).
  destruct Hkey as [-> | ->]; congruence.
Qed.

Lemma read_loop_counters uuid frames key : ∀ drv,
  key = "current_connections" ∨ key = "total_connections" →
  Forall (λ r, keeps_stats (before_frame r)) frames →
  stats (reading uuid frames drv).1 !! key = stats drv !! key.
Proof.
  induction frames as [|r frames IH]; intros drv Hkey Hall; [done|].
  apply Forall_cons in Hall as [Hr Hall]. simpl.
  destruct (negb (running (before_frame r drv)) || _); simpl.
  - by rewrite Hr.
  - rewrite IH, handle_message_counters by done. by rewrite Hr.
Qed.

(** One turn: only an established connection is counted in, every turn
    is counted out. *)
Lemma turn_counters config uuid it loc drv c t :
  stats_kept it →
  stats drv !! "current_connections" = Some c →
  stats drv !! "total_connections" = Some t →
  let drv' := turn_driver (turn json_loads dumps_size config uuid it loc drv) in
  let opened := match attempt it with
                | established _ _ => 1%Z
                | connect_raises _ => 0%Z
                end in
  stats drv' !! "current_connections" = Some (c + opened - 1)%Z ∧
  stats drv' !! "total_connections" = Some (t + opened)%Z.
Proof.
  intros (Hhs & Hw & Hfr) Hc Ht. cbv zeta. unfold turn.
  set (drvA := during_handshake it _).
  assert (stats drvA = stats drv) as HA by (unfold drvA; by rewrite Hhs).
  set (sess := session json_loads dumps_size config uuid it loc drvA).
  assert (stats sess.1 !! "current_connections"
          = Some (c + match attempt it with
                      | established _ _ => 1 | connect_raises _ => 0
                      end)%Z ∧
          stats sess.1 !! "total_connections"
          = Some (t + match attempt it with
                      | established _ _ => 1 | connect_raises _ => 0
                      end)%Z) as [HB1 HB2].
  { unfold sess, session. destruct (attempt it) as [e|frames ending].
    - cbn [fst]. unfold on_exception. rewrite send_event_stats. simpl.
      rewrite !lookup_alter_ne, HA, Hc, Ht, !Z.add_0_r by done. done.
    - set (drv1 := _send_event CONNECT uuid None None (clock it) _).
      assert (stats drv1 !! "current_connections" = Some (c + 1)%Z ∧
              stats drv1 !! "total_connections" = Some (t + 1)%Z) as [H1 H2].
      { unfold drv1. rewrite send_event_stats. simpl. split.
        - rewrite lookup_alter_eq, lookup_alter_ne by done.
          rewrite HA, Hc. simpl. f_equal. lia.
        - rewrite lookup_alter_ne by done.
          rewrite lookup_alter_eq, HA, Ht. simpl. f_equal. lia. }
      pose proof (read_loop_counters uuid frames "current_connections" drv1
                    (or_introl eq_refl) Hfr) as H3.
      pose proof (read_loop_counters uuid frames "total_connections" drv1
                    (or_intror eq_refl) Hfr) as H4.
      destruct (reading uuid frames drv1) as [drv2 broke]. cbn [fst] in *.
      rewrite H1 in H3. rewrite H2 in H4.
      destruct broke; [done|].
      destruct ending as [|e|e]; [done|done|].
      unfold on_exception. rewrite send_event_stats. simpl.
      by rewrite !lookup_alter_ne. }
  destruct sess as [drvB loc1]. cbn [fst] in HB1, HB2.
  set (drvC := cleanup uuid drvB).
  assert (stats drvC !! "current_connections"
          = Some (c + match attempt it with
                      | established _ _ => 1 | connect_raises _ => 0
                      end - 1)%Z ∧
          stats drvC !! "total_connections"
          = Some (t + match attempt it with
                      | established _ _ => 1 | connect_raises _ => 0
                      end)%Z) as [HC1 HC2].
  { unfold drvC, cleanup. simpl. split.
    - rewrite lookup_alter_eq, HB1. simpl. f_equal. lia.
    - by rewrite lookup_alter_ne. }
  destruct (running drvC && is_registered uuid drvC
            && (reconnect_attempts loc1 <? max_reconnect_attempts config)%Z
            && negb (shutdown drvC)).
  - cbv zeta.
    match goal with
    | |- context [during_wait it ?d] =>
        assert (stats (during_wait it d) = stats drvC) as HW
          by (by rewrite Hw);
        set (drvW := during_wait it d) in *
    end.
    destruct (shutdown drvW); cbn [turn_driver driver]; by rewrite HW.
  - cbn [turn_driver driver].
    destruct (is_registered uuid drvC); [|done].
    by destruct (shutdown drvC).
Qed.

(** One turn of an undisturbed loop is one more attempt in the journal. *)
Lemma turn_attempts config uuid it loc drv :
  undisturbed_iteration uuid it →
  alive uuid drv = true →
  let outcome := turn json_loads dumps_size config uuid it loc drv in
  attempts_made uuid (turn_driver outcome) = S (attempts_made uuid drv) ∧
  match outcome with
  | inl run => True
  | inr (_, drv') => alive uuid drv' = true
  end.
Proof.
  intros Hit Halive. cbv zeta.
  assert (∀ d es, loop_effects uuid d = loop_effects uuid drv ++ ws_connect uuid :: es →
                  (∀ e, e ∈ es → ∀ u, e ≠ ws_connect u) →
                  attempts_made uuid d = S (attempts_made uuid drv)) as Hcount.
  { intros d es He Hes. unfold attempts_made. rewrite He.
    set (g := λ e, match e with ws_connect u => Some u | _ => None end).
    assert (omap g es = []) as Hnone.
    { clear He. induction es as [|e es IH]; [done|].
      assert (g e = None) as Hg.
      { destruct e; try done. exfalso. eapply Hes; [by left|done]. }
      simpl. rewrite Hg. apply IH. intros e' Hin. apply Hes. by right. }
    rewrite omap_app. change (omap g (ws_connect uuid :: es))
      with (uuid :: omap g es).
    rewrite Hnone, length_app. simpl. lia. }
  set (loc1 := turn_locals config it loc).
  destruct (Z.lt_ge_cases (reconnect_attempts loc1) (max_reconnect_attempts config))
    as [Hlt|Hge].
  - destruct (turn_reconnects json_loads dumps_size config uuid it loc drv Hit Halive Hlt)
      as (drv2 & Ha2 & He2 & ->). simpl. split; [|done].
    apply (Hcount drv2 [wait_for_sleep uuid (next_delay loc1) 30]); [done|].
    intros e ->%list_elem_of_singleton u. done.
  - destruct (turn_gives_up json_loads dumps_size config uuid it loc drv Hit Halive Hge)
      as (drv1 & _ & He1 & ->). simpl. split; [|done].
    apply (Hcount drv1 []); [done|]. by intros e ?%elem_of_nil.
Qed.

(** X19.  [current_connections] counts every connection attempt out,
    established or not: over any run of the loop in which other tasks
    leave the loop and the counters alone, the counter falls by the
    number of attempts made and rises by the number of connections
    established, so each failed attempt leaves it one lower than before. *)
Theorem current_connections_counts_attempts config uuid env : ∀ loc drv c t,
  Forall (λ it, undisturbed_iteration uuid it ∧ stats_kept it) env →
  stats drv !! "current_connections" = Some c →
  stats drv !! "total_connections" = Some t →
  let run := connection_loop json_loads dumps_size config uuid env loc drv in
  ∃ t',
    stats (driver run) !! "total_connections" = Some t' ∧
    (t ≤ t')%Z ∧
    stats (driver run) !! "current_connections"
    = Some (c + (t' - t)
            - (Z.of_nat (attempts_made uuid (driver run))
               - Z.of_nat (attempts_made uuid drv)))%Z.
Proof.
  induction env as [|it env IH]; intros loc drv c t Hall Hc Ht; cbv zeta.
  - exists t. simpl. destruct (negb (alive uuid drv)); simpl;
      (split_and!; [done|lia|rewrite Hc; f_equal; lia]).
  - apply Forall_cons in Hall as [[Hit Hst] Hall]. simpl.
    destruct (alive uuid drv) eqn:Halive; simpl.
    2: { exists t. split_and!; [done|lia|rewrite Hc; f_equal; lia]. }
    destruct (turn_counters config uuid it loc drv c t Hst Hc Ht) as [H1 H2].
    destruct (turn_attempts config uuid it loc drv Hit Halive) as [H3 H4].
    cbv zeta in H1, H2, H3, H4.
    set (opened := match attempt it with
                   | established _ _ => 1%Z | connect_raises _ => 0%Z
                   end) in *.
    assert (0 ≤ opened)%Z as Hopen by (unfold opened; destruct (attempt it); lia).
    destruct (turn json_loads dumps_size config uuid it loc drv)
      as [run|[loc' drv']]; simpl in H1, H2, H3, H4.
    + exists (t + opened)%Z. split_and!; [done|lia|].
      rewrite H1, H3. f_equal. lia.
    + destruct (IH loc' drv' _ _ Hall H1 H2) as (t' & T1 & T2 & T3).
      exists t'. split_and!; [done|lia|].
      rewrite T3, H3. f_equal. lia.
Qed.

(** X20.  A connection that is removed while its loop is connecting, by
    a task that like [remove_connection] leaves the statistics as they
    are, ends the loop quietly and leaves a state behind: the turn is the
    last one, no event is queued for the connection, whatever became of
    the attempt, and no [error] is recorded; a failed attempt, or a
    session that raises before a frame is read, is still counted in
    [reconnect_attempts]; but the [finally] clause writes [disconnected]
    into [connection_states] for the connection that is no longer
    registered.  (After [stop], which installs statistics without
    [reconnect_attempts], the [except] branch raises [KeyError] instead:
    [stop] does not keep the statistics, and is not among the removals
    meant.) *)
Theorem removal_during_handshake_leaves_state config uuid it loc drv n :
  (∀ d, is_registered uuid (during_handshake it d) = false) →
  (∀ d, events_of uuid (during_handshake it d) = events_of uuid d) →
  match attempt it with
  | connect_raises _ => True
  | established frames _ =>
      Forall (λ r, leaves_alone uuid (before_frame r)) frames
  end →
  stats_kept it →
  stats drv !! "reconnect_attempts" = Some n →
  ∃ run,
    turn json_loads dumps_size config uuid it loc drv = inl run ∧
    exit run = gave_up ∧
    is_registered uuid (driver run) = false ∧
    connection_states (driver run) !! uuid = Some disconnected ∧
    (uuid ∉ active_connections (driver run)) ∧
    events_of uuid (driver run) = events_of uuid drv ∧
    stats (driver run) !! "reconnect_attempts"
    = Some (n + match attempt it with
                | connect_raises _ => 1
                | established [] (session_raises _) => 1
                | established _ _ => 0
                end)%Z.
Proof.
  intros Hgone Hev Hfr (Hhs & _ & Hst) Hn. unfold turn.
  set (drvA := during_handshake it _).
  assert (is_registered uuid drvA = false) as RA by apply Hgone.
  assert (events_of uuid drvA = events_of uuid drv) as EA.
  { unfold drvA. by rewrite Hev. }
  assert (stats drvA !! "reconnect_attempts" = Some n) as SA.
  { unfold drvA. by rewrite Hhs. }
  assert (lookup_connection uuid (connections drvA) = None) as CA.
  { unfold is_registered in RA. by destruct (lookup_connection _ _). }
  set (sess := session json_loads dumps_size config uuid it loc drvA).
  assert (is_registered uuid sess.1 = false ∧
          events_of uuid sess.1 = events_of uuid drv ∧
          stats sess.1 !! "reconnect_attempts"
          = Some (n + match attempt it with
                      | connect_raises _ => 1
                      | established [] (session_raises _) => 1
                      | established _ _ => 0
                      end)%Z) as (RB & EB & SB).
  { unfold sess, session. destruct (attempt it) as [e|frames ending].
    - cbn [fst]. unfold on_exception.
      destruct (send_event_dropped DISCONNECT uuid None (Some e) (clock it)
                  (add_stat "reconnect_attempts" 1 drvA) CA)
        as (_ & _ & C & _ & _ & S & Q).
      unfold is_registered, events_of. rewrite C, Q, S. simpl.
      fold (events_of uuid drvA). fold (is_registered uuid drvA).
      split_and!; [done|done|].
      rewrite lookup_alter_eq, SA. simpl. f_equal. lia.
    - set (drv0 := add_stat _ _ _).
      assert (stats drv0 !! "reconnect_attempts" = Some n) as S0.
      { unfold drv0. simpl. by rewrite !lookup_alter_ne. }
      destruct (send_event_dropped CONNECT uuid None None (clock it) drv0 CA)
        as (_ & _ & C1 & _ & _ & S1 & Q1).
      set (drv1 := _send_event CONNECT uuid None None (clock it) drv0) in *.
      assert (is_registered uuid drv1 = false ∧
              events_of uuid drv1 = events_of uuid drv) as [R1 E1].
      { unfold is_registered, events_of. rewrite C1, Q1. simpl.
        fold (events_of uuid drvA). fold (is_registered uuid drvA). done. }
      assert (lookup_connection uuid (connections drv1) = None) as L1.
      { rewrite C1. exact CA. }
      destruct frames as [|r frames].
      + simpl. destruct ending as [|e|e].
        * split_and!; [done|done|]. rewrite S1, S0. f_equal. lia.
        * split_and!; [done|done|].
          change (stats (emit (log_info "connection closed") drv1))
            with (stats drv1).
          rewrite S1, S0. f_equal. lia.
        * unfold on_exception.
          destruct (send_event_dropped DISCONNECT uuid None (Some e) (clock it)
                      (add_stat "reconnect_attempts" 1 drv1) L1)
            as (_ & _ & C & _ & _ & S & Q).
          unfold is_registered, events_of. rewrite C, Q, S. simpl.
          fold (events_of uuid drv1). fold (is_registered uuid drv1).
          split_and!; [done|done|].
          rewrite lookup_alter_eq, S1, S0. simpl. f_equal. lia.
      + apply Forall_cons in Hfr as [Hr _].
        apply Forall_cons in Hst as [Hsr _].
        destruct (leaves_alone_inv uuid (before_frame r) drv1 Hr)
          as (_ & _ & C2 & _ & _ & _ & E2 & _).
        assert (is_registered uuid (before_frame r drv1) = false) as R2.
        { unfold is_registered. by rewrite C2, L1. }
        cbn [read_loop]. cbv zeta. rewrite R2, orb_true_r. cbn [fst negb].
        rewrite R2, E2. split_and!; [done|done|].
        rewrite Hsr, S1, S0. f_equal. lia. }
  destruct sess as [drvB loc1]. cbn [fst] in RB, EB, SB.
  assert (is_registered uuid (cleanup uuid drvB) = false) as RC by done.
  assert (stats (cleanup uuid drvB) !! "reconnect_attempts"
          = stats drvB !! "reconnect_attempts") as SC.
  { unfold cleanup. simpl. by rewrite lookup_alter_ne. }
  rewrite RC, andb_false_r. cbn [andb].
  eexists. split; [reflexivity|]. simpl.
  split_and!; [done|done|apply lookup_insert_eq|set_solver|done|].
  rewrite <- SB, <- SC. done.
Qed.

(** *** Shutdown during the wait *)

(** A turn up to the wait before the next attempt, when other tasks leave
    the loop alone until then. *)
Lemma turn_until_wait config uuid it loc drv :
  undisturbed uuid (during_handshake it) →
  match attempt it with
  | connect_raises _ => True
  | established frames _ =>
      Forall (λ r, undisturbed uuid (before_frame r)) frames
  end →
  alive uuid drv = true →
  let loc1 := turn_locals config it loc in
  (reconnect_attempts loc1 < max_reconnect_attempts config)%Z →
  ∃ drv1,
    loop_effects uuid drv1 = loop_effects uuid drv ++ [ws_connect uuid] ∧
    turn json_loads dumps_size config uuid it loc drv =
      let drv2 := during_wait it
                    (emit (wait_for_sleep uuid (next_delay loc1) 30) drv1) in
      if shutdown drv2
      then inl (mkRun drv2 (mkLocals (reconnect_attempts loc1 + 1)
                                     (next_delay loc1)) stopped_waiting)
      else inr (mkLocals (reconnect_attempts loc1 + 1)
                         (py_min (max_reconnect_delay config)
                                 (next_delay loc1 * 2)%float), drv2).
Proof.
  intros Hhs Hfr Halive loc1 Hlt. unfold turn.
  set (drvA := during_handshake it _).
  assert (alive uuid drvA = true ∧
          loop_effects uuid drvA = loop_effects uuid drv ++ [ws_connect uuid])
    as [HaA HeA].
  { unfold drvA. destruct (Hhs (emit (ws_connect uuid)
                                  (set_state uuid connecting drv))) as [Ha He].
    split; [by apply Ha|]. rewrite He. rewrite loop_effects_emit.
    - by destruct (steady_set_state uuid uuid connecting drv) as [_ ->].
    - simpl. by rewrite String.eqb_refl. }
  set (it' := mkIteration (during_handshake it) (attempt it) (clock it) id).
  assert (undisturbed_iteration uuid it') as Hit'.
  { split_and!; [done|apply undisturbed_id|done]. }
  destruct (session_steady json_loads dumps_size config uuid it' loc drvA Hit' HaA)
    as [[HaB HeB] Hloc].
  change (session json_loads dumps_size config uuid it' loc drvA)
    with (session json_loads dumps_size config uuid it loc drvA) in *.
  change (turn_locals config it' loc) with loc1 in Hloc.
  destruct (session json_loads dumps_size config uuid it loc drvA)
    as [drvB loc1']. simpl in HaB, HeB, Hloc. subst loc1'.
  destruct (steady_cleanup uuid uuid drvB) as [HaC HeC].
  exists (cleanup uuid drvB). split; [congruence|].
  destruct (alive_flags _ _ (HaC (HaB HaA))) as (Hr & Hreg & Hsh).
  cbv zeta. rewrite Hr, Hreg, Hsh. cbn [andb negb].
  apply Z.ltb_lt in Hlt. by rewrite Hlt.
Qed.

(** X24.  A shutdown that is signalled while the loop waits for its next
    attempt ends the loop there: after the failed or lost connection and
    the wait, the loop is left at the check that follows the wait, and
    none of the attempts that would have followed is made. *)
Theorem shutdown_during_wait_ends_loop config uuid it env loc drv :
  undisturbed uuid (during_handshake it) →
  match attempt it with
  | connect_raises _ => True
  | established frames _ =>
      Forall (λ r, undisturbed uuid (before_frame r)) frames
  end →
  (∀ d, shutdown (during_wait it d) = true) →
  (∀ d, loop_effects uuid (during_wait it d) = loop_effects uuid d) →
  alive uuid drv = true →
  let loc1 := turn_locals config it loc in
  (reconnect_attempts loc1 < max_reconnect_attempts config)%Z →
  let run := connection_loop json_loads dumps_size config uuid (it :: env) loc drv in
  exit run = stopped_waiting ∧
  shutdown (driver run) = true ∧
  loop_effects uuid (driver run)
  = loop_effects uuid drv
    ++ [ws_connect uuid; wait_for_sleep uuid (next_delay loc1) 30] ∧
  attempts_made uuid (driver run) = S (attempts_made uuid drv).
Proof.
  intros Hhs Hfr Hstop Hquiet Halive loc1 Hlt. cbv zeta.
  destruct (turn_until_wait config uuid it loc drv Hhs Hfr Halive Hlt)
    as (drv1 & He1 & Hturn).
  cbv zeta in Hturn. fold loc1 in Hturn.
  cbn [connection_loop]. rewrite Halive. cbn [negb]. rewrite Hturn. cbv zeta.
  rewrite Hstop. cbn [exit driver].
  assert (loop_effects uuid
            (during_wait it
               (emit (wait_for_sleep uuid (next_delay loc1) 30) drv1))
          = loop_effects uuid drv
            ++ [ws_connect uuid; wait_for_sleep uuid (next_delay loc1) 30])
    as Hloop.
  { rewrite Hquiet, loop_effects_emit, He1.
    - by rewrite <- app_assoc.
    - simpl. by rewrite String.eqb_refl. }
  split_and!; [done|apply Hstop|exact Hloop|].
  unfold attempts_made. rewrite Hloop, omap_app, length_app. simpl. lia.
Qed.

(** *** Acknowledgements *)

(** X25.  An acknowledgement ends the exchange: the envelope [_send_ack]
    writes carries the type [sys_ack], so a peer that runs this driver
    and receives it writes nothing back, and both dispatchers, the
    server's and the client's, take it to no handler. *)
Theorem acknowledgement_ends_exchange uuid msg_id w s :
  json_loads s = loaded (ack_message uuid msg_id w) →
  ∃ message_data,
    ack_message uuid msg_id w = JDict message_data ∧
    ack_due message_data = None ∧
    Server.route message_data = Server.ignored ∧
    Api.route message_data = Server.ignored ∧
    ∀ receiver w' drv,
      sent_frames (handle_message receiver (text s) w' drv) = sent_frames drv.
Proof.
  intros Hs. eexists. split; [reflexivity|].
  split_and!.
  - unfold ack_due. simpl. by rewrite andb_false_r.
  - reflexivity.
  - reflexivity.
  - intros receiver w' drv. unfold _handle_message, decode. rewrite Hs.
    unfold ack_message. unfold ack_due. simpl. rewrite andb_false_r.
    rewrite send_event_sent_frames. done.
Qed.

End Sessions.

(** ** The client: managing connections *)

Section Management.

Import Client.

Lemma lookup_connection_app uuid items config :
  lookup_connection uuid items = None →
  lookup_connection uuid (items ++ [(uuid, config)]) = Some config.
Proof.
  induction items as [|[k c] items IH]; simpl.
  - by rewrite String.eqb_refl.
  - destruct (String.eqb k uuid); [done|exact IH].
Qed.

Lemma lookup_connection_app_ne uuid u items config :
  u ≠ uuid →
  lookup_connection u (items ++ [(uuid, config)]) = lookup_connection u items.
Proof.
  intros Hne. induction items as [|[k c] items IH]; simpl.
  - destruct (String.eqb_spec uuid u) as [->|_]; done.
  - by destruct (String.eqb k u).
Qed.

Lemma filter_unregistered uuid (items : list (string * ConnectionConfig)) :
  lookup_connection uuid items = None →
  filter (λ item, item.1 ≠ uuid) items = items.
Proof.
  induction items as [|[k c] items IH]; [done|]. simpl.
  destruct (String.eqb_spec k uuid) as [->|Hne]; [done|].
  intros H. rewrite filter_cons_True by done. by rewrite IH.
Qed.

Lemma lookup_connection_forget uuid (items : list (string * ConnectionConfig)) :
  lookup_connection uuid (filter (λ item, item.1 ≠ uuid) items) = None.
Proof.
  induction items as [|[k c] items IH]; [done|].
  destruct (decide (k = uuid)) as [->|Hne].
  - by rewrite filter_cons_False by (simpl; intros H; by apply H).
  - rewrite filter_cons_True by done. simpl.
    by apply String.eqb_neq in Hne as ->.
Qed.

Lemma forget_unregisters uuid drv : is_registered uuid (Control.forget uuid drv) = false.
Proof.
  unfold is_registered, Control.forget. simpl.
  by rewrite lookup_connection_forget.
Qed.

(** X21.  A connection that is added and removed again leaves the driver
    as it was: for an id that is not registered, has no state, no socket
    and no task, [add_connection] registers the configuration with state
    [disconnected]; a second [add_connection] under the same id is refused
    and the first configuration stays; the other registrations are not
    affected; and [remove_connection] answers [True] and restores the
    driver exactly, without an [await] on the way. *)
Theorem add_then_remove_restores config awaited during_close (d : Control.Driver) :
  let uuid := connection_uuid config in
  is_registered uuid (Control.core d) = false →
  connection_states (Control.core d) !! uuid = None →
  uuid ∉ active_connections (Control.core d) →
  uuid ∉ Control.connection_tasks d →
  ∃ d1,
    Control.add_connection config d = (d1, true) ∧
    lookup_connection uuid (connections (Control.core d1)) = Some config ∧
    connection_states (Control.core d1) !! uuid = Some disconnected ∧
    (∀ u, u ≠ uuid →
       lookup_connection u (connections (Control.core d1))
       = lookup_connection u (connections (Control.core d)) ∧
       connection_states (Control.core d1) !! u
       = connection_states (Control.core d) !! u) ∧
    (∀ other, connection_uuid other = uuid →
       (Control.add_connection other d1).2 = false ∧
       lookup_connection uuid
         (connections (Control.core (Control.add_connection other d1).1))
       = Some config) ∧
    Control.remove_connection uuid awaited during_close d1 = Ok (d, true).
Proof.
  intros uuid Hreg Hst Hact Htask.
  assert (lookup_connection uuid (connections (Control.core d)) = None) as Hl.
  { unfold is_registered in Hreg. by destruct (lookup_connection _ _). }
  unfold Control.add_connection, add_connection. fold uuid. rewrite Hl.
  eexists. split; [reflexivity|]. simpl.
  assert (lookup_connection uuid
            (connections (Control.core d) ++ [(uuid, config)]) = Some config)
    as Hl1 by by apply lookup_connection_app.
  split_and!.
  - done.
  - apply lookup_insert_eq.
  - intros u Hu. split; [by apply lookup_connection_app_ne|].
    by rewrite lookup_insert_ne.
  - intros other Ho. rewrite Ho. simpl. rewrite Hl1. done.
  - unfold Control.remove_connection, is_registered. simpl. rewrite Hl1.
    rewrite decide_False by done. rewrite decide_False by done.
    simpl. rewrite Hl1, lookup_insert_eq.
    do 2 f_equal. destruct d as [core tasks loop created cancelled closed].
    unfold Control.with_core. simpl. f_equal.
    destruct core as [conns act states queue run sh st eff].
    unfold Control.forget. simpl in *. f_equal.
    + rewrite filter_app, filter_unregistered by done.
      rewrite filter_cons_False by (simpl; intros H; by apply H).
      by rewrite app_nil_r.
    + by apply delete_insert_id.
Qed.

Lemma connect_recorded uuid running_loop (d : Control.Driver) s : ∀ n,
  is_registered uuid (Control.core d) = true →
  connection_states (Control.core d) !! uuid = Some s →
  uuid ∈ Control.connection_tasks d →
  connect_times n uuid running_loop d = Ok d.
Proof.
  intros n Hreg Hst Hin. induction n as [|n IH]; [done|]. simpl.
  unfold Control.connect. rewrite Hreg, Hst.
  destruct s; rewrite ?decide_True by done; exact IH.
Qed.

(** X22.  Every call of [connect] for a connection that is not yet
    connected starts another loop when the driver runs its loops in the
    worker thread: the task is handed over and never recorded, so [n]
    calls create [n] loops for the same connection.  Called from the
    driver's own event loop, the first call records its task and the
    later calls create nothing. *)
Theorem connect_spawns_per_call uuid running_loop s n (d : Control.Driver) :
  is_registered uuid (Control.core d) = true →
  connection_states (Control.core d) !! uuid = Some s →
  s ≠ connected →
  uuid ∉ Control.connection_tasks d →
  ∃ d',
    connect_times n uuid running_loop d = Ok d' ∧
    Control.core d' = Control.core d ∧
    Control.tasks_cancelled d' = Control.tasks_cancelled d ∧
    if Control.other_loop (Control.main_loop d) running_loop then
      Control.tasks_created d' = Control.tasks_created d ++ replicate n uuid ∧
      Control.connection_tasks d' = Control.connection_tasks d
    else
      Control.tasks_created d'
      = Control.tasks_created d ++ replicate (n `min` 1) uuid ∧
      Control.connection_tasks d'
      = (if n is 0 then ∅ else {[uuid]}) ∪ Control.connection_tasks d.
Proof.
  intros Hreg Hst Hs Htask.
  destruct (Control.other_loop (Control.main_loop d) running_loop) eqn:Hloop.
  - revert d Hreg Hst Htask Hloop.
    induction n as [|n IH]; intros d Hreg Hst Htask Hloop.
    + exists d. simpl. by rewrite app_nil_r.
    + simpl. unfold Control.connect. rewrite Hreg, Hst.
      rewrite decide_False by done. rewrite Hloop.
      destruct (IH (Control.create_task uuid d)) as (d' & H1 & H2 & H3 & H4 & H5);
        [done|done|done|done|].
      exists d'. destruct s; try done;
        (split_and!; [done|done|done| |done]);
        rewrite H4; simpl; by rewrite <- app_assoc.
  - destruct n as [|n].
    + exists d. simpl. rewrite app_nil_r. split_and!; [done|done|done|done|set_solver].
    + simpl. unfold Control.connect. rewrite Hreg, Hst.
      rewrite decide_False by done. rewrite Hloop.
      set (d1 := Control.with_tasks _ _).
      assert (connect_times n uuid running_loop d1 = Ok d1) as Hrest.
      { apply (connect_recorded uuid running_loop d1 s); [done|done|].
        unfold d1. simpl. set_solver. }
      exists d1. destruct s; try done; rewrite Hrest;
        (split_and!; [done|done|done| |done]);
        simpl; by rewrite Nat.min_comm.
Qed.

(** X23.  [stop] is final.  After [stop] on a running driver the shutdown
    event is set and nothing clears it: whatever [start] is called with
    afterwards, every connection loop leaves at its first test without an
    attempt.  The recorded tasks are forgotten and the statistics are the
    six counters [stop] installs, without [reconnect_attempts].  When no
    other task interferes the three tables are empty, the driver is not
    running, and a second [stop] changes nothing. *)
Theorem stop_is_final task_done during_cancel during_join (d : Control.Driver) :
  running (Control.core d) = true →
  Control.keeps_shutdown during_cancel →
  Control.keeps_shutdown during_join →
  let d1 := Control.stop task_done during_cancel during_join d in
  shutdown (Control.core d1) = true ∧
  Control.connection_tasks d1 = ∅ ∧
  stats (Control.core d1) = Control.reset_stats ∧
  stats (Control.core d1) !! "reconnect_attempts" = None ∧
  (∀ queue worker_loop d2,
     Control.start queue worker_loop d1 = Ok d2 →
     shutdown (Control.core d2) = true ∧
     ∀ json_loads dumps_size config uuid env loc,
       connection_loop json_loads dumps_size config uuid env loc (Control.core d2)
       = mkRun (Control.core d2) loc condition_false) ∧
  ((∀ drv, during_cancel drv = drv) → (∀ drv, during_join drv = drv) →
   connections (Control.core d1) = [] ∧
   active_connections (Control.core d1) = ∅ ∧
   connection_states (Control.core d1) = ∅ ∧
   running (Control.core d1) = false ∧
   Control.stop task_done during_cancel during_join d1 = d1).
Proof.
  intros Hrun Hc Hj. cbv zeta. unfold Control.stop. rewrite Hrun.
  set (drv := during_join _).
  assert (shutdown drv = true) as Hsh.
  { unfold drv. apply Hj. simpl. by apply Hc. }
  simpl. split_and!; [done|done|done|done| |].
  - intros queue worker_loop d2. unfold Control.start. simpl.
    assert (∀ d2 : Control.Driver,
              shutdown (Control.core d2) = true →
              shutdown (Control.core d2) = true ∧
              ∀ json_loads dumps_size config uuid env loc,
                connection_loop json_loads dumps_size config uuid env loc
                  (Control.core d2)
                = mkRun (Control.core d2) loc condition_false) as Hfinal.
    { intros d3 H3. split; [done|]. intros.
      assert (alive uuid (Control.core d3) = false) as Hdead.
      { unfold alive. rewrite H3. by rewrite andb_false_r. }
      destruct env; simpl; by rewrite Hdead. }
    destruct (running drv).
    + intros [= <-]. by apply Hfinal.
    + destruct (match queue with Some q => Some q | None => event_queue drv end);
        [|done].
      intros [= <-]. by apply Hfinal.
  - intros Hc' Hj'. unfold drv. rewrite Hj', Hc'. simpl. done.
Qed.

End Management.

(** ** The client on the sample driver *)


Lemma served_left_alone : left_alone "uuid-1" served.
Proof.
  split_and!; [apply leaves_alone_id|apply leaves_alone_id|].
  apply Forall_cons_2; [apply leaves_alone_id|apply Forall_nil_2].
Qed.

Lemma refused_stats_kept : stats_kept refused.
Proof. by split_and!. Qed.


(** A text on which [json.loads] raises [RecursionError] is passed over:
    the loop goes on, and only the standard frame that follows is reported
    and acknowledged. *)
Example undecodable_frame_is_passed_over :
  let result :=
    Client.read_loop sample_loads sample_size "uuid-1"
      [Client.mkReception id (Client.text deep_text) sample_world;
       Client.mkReception id (Client.text standard_frame) sample_world]
      sample_driver in
  result.2 = false ∧
  events_of "uuid-1" result.1
  = [Client.mkEvent Client.MESSAGE "uuid-1" sample_config
       (Some [("msg_id", JStr "m-1"); ("type", JStr "sys_std")]) None
       1700000000] ∧
  frames_to "uuid-1" result.1
  = [Client.ack_message "uuid-1" (JStr "m-1") sample_world] ∧
  Client.logged result.1 = ["RecursionError"; "message handling error"].
Proof. vm_compute. done. Qed.


Example events_after_disconnect :
  length (events_of "uuid-1"
            (Client.read_loop sample_loads sample_size "uuid-1" sample_frames
               (Control.core (Control.disconnect "uuid-1" false sample_control).1)).1)
  = 2%nat.
Proof. vm_compute. reflexivity. Qed.

(** A session that the peer closes normally. *)
Lemma closed_session_is_not_reported_witness :
  let drv' :=
    turn_driver (Client.turn sample_loads sample_size sample_config "uuid-1"
                   served (Client.initial_locals sample_config)
                   (idle_driver sample_config)) in
  let news := turn_events sample_loads "uuid-1" sample_config served in
  events_of "uuid-1" drv' = events_of "uuid-1" (idle_driver sample_config) ++ news ∧
  Client.connection_states drv' !! "uuid-1" ≠ Some Client.connected ∧
  ("uuid-1" ∉ Client.active_connections drv') ∧
  Api.connected (Api.run sample_client news) = true ∧
  Forall (λ ev, Client.event_type ev ≠ Client.DISCONNECT) news.
Proof.
  apply (closed_session_is_not_reported sample_loads sample_size sample_config
           sample_config "uuid-1" served (Client.initial_locals sample_config)
           (idle_driver sample_config) sample_client).
  - exact served_left_alone.
  - reflexivity.
  - reflexivity.
  - exists []. reflexivity.
Defined.

(** Two refused attempts on a new driver. *)
Lemma current_connections_counts_attempts_witness :
  let run := sample_loop sample_config [refused; refused] in
  ∃ t',
    Client.stats (Client.driver run) !! "total_connections" = Some t' ∧
    (0 ≤ t')%Z ∧
    Client.stats (Client.driver run) !! "current_connections"
    = Some (0 + (t' - 0)
            - (Z.of_nat (Client.attempts_made "uuid-1" (Client.driver run))
               - Z.of_nat (Client.attempts_made "uuid-1"
                             (idle_driver sample_config))))%Z.
Proof.
  apply (current_connections_counts_attempts sample_loads sample_size
           sample_config "uuid-1" [refused; refused]
           (Client.initial_locals sample_config) (idle_driver sample_config)
           0%Z 0%Z).
  - apply Forall_cons_2;
      [split; [exact (proj2 (refused_undisturbed "uuid-1"))|exact refused_stats_kept]|].
    apply Forall_cons_2;
      [split; [exact (proj2 (refused_undisturbed "uuid-1"))|exact refused_stats_kept]|].
    apply Forall_nil_2.
  - reflexivity.
  - reflexivity.
Defined.

Example two_refusals_count_minus_two :
  Client.stats (Client.driver (sample_loop sample_config [refused; refused]))
    !! "current_connections" = Some (-2)%Z.
Proof. vm_compute. reflexivity. Qed.

(** The sample connection removed while its loop connects. *)
Lemma removal_during_handshake_leaves_state_witness :
  ∃ run,
    Client.turn sample_loads sample_size sample_config "uuid-1"
      removed_meanwhile (Client.initial_locals sample_config)
      (idle_driver sample_config) = inl run ∧
    Client.exit run = Client.gave_up ∧
    Client.is_registered "uuid-1" (Client.driver run) = false ∧
    Client.connection_states (Client.driver run) !! "uuid-1"
    = Some Client.disconnected ∧
    ("uuid-1" ∉ Client.active_connections (Client.driver run)) ∧
    events_of "uuid-1" (Client.driver run)
    = events_of "uuid-1" (idle_driver sample_config) ∧
    Client.stats (Client.driver run) !! "reconnect_attempts" = Some (0 + 1)%Z.
Proof.
  apply (removal_during_handshake_leaves_state sample_loads sample_size
           sample_config "uuid-1" removed_meanwhile
           (Client.initial_locals sample_config) (idle_driver sample_config) 0).
  - intros d. apply forget_unregisters.
  - intros d. reflexivity.
  - exact I.
  - split_and!; [by intros d|by intros d|exact I].
  - reflexivity.
Defined.

(** The same turn when it is [stop] that empties the tables: the
    statistics it installs have no [reconnect_attempts] for the [except]
    branch to add to. *)
Example stop_leaves_no_reconnect_counter :
  Control.reset_stats !! "reconnect_attempts" = None ∧
  Client.stats Client.init !! "reconnect_attempts" = Some 0%Z ∧
  ¬ keeps_stats (Control.with_stats Control.reset_stats).
Proof.
  split_and!; [reflexivity|reflexivity|].
  intros H. specialize (H Client.init). simpl in H.
  apply (f_equal (.!! "reconnect_attempts")) in H. vm_compute in H.
  discriminate.
Qed.

(** The sample connection added to a new driver and removed again. *)
Lemma add_then_remove_restores_witness :
  ∃ d1,
    Control.add_connection sample_config Control.init = (d1, true) ∧
    Control.remove_connection "uuid-1" Control.task_returned id d1
    = Ok (Control.init, true).
Proof.
  destruct (add_then_remove_restores sample_config Control.task_returned id
              Control.init) as (d1 & H1 & _ & _ & _ & _ & H2).
  - reflexivity.
  - reflexivity.
  - apply not_elem_of_empty.
  - apply not_elem_of_empty.
  - exists d1. split; [exact H1|exact H2].
Defined.

(** Three calls of [connect] on a driver that runs its loops in the
    worker thread, for a connection that waits to be connected. *)
Lemma connect_spawns_per_call_witness :
  let d := Control.mkControl (idle_driver sample_config) ∅ (Some 1) [] [] [] in
  ∃ d',
    connect_times 3 "uuid-1" 0 d = Ok d' ∧
    Control.tasks_created d' = ["uuid-1"; "uuid-1"; "uuid-1"] ∧
    Control.connection_tasks d' = ∅.
Proof.
  destruct (connect_spawns_per_call "uuid-1" 0 Client.disconnected 3
              (Control.mkControl (idle_driver sample_config) ∅ (Some 1) [] [] []))
    as (d' & H1 & _ & _ & H2 & H3).
  - reflexivity.
  - reflexivity.
  - discriminate.
  - apply not_elem_of_empty.
  - exists d'. split; [exact H1|]. split; [exact H2|exact H3].
Defined.

(** The sample driver stopped while the loop of [uuid-1] unwinds in the
    worker thread, and started again. *)
Lemma stop_is_final_witness :
  let d1 := Control.stop (λ _, false) id (Client.cleanup "uuid-1") sample_control in
  Client.shutdown (Control.core d1) = true ∧
  Client.connection_states (Control.core d1) !! "uuid-1"
  = Some Client.disconnected ∧
  ∀ d2, Control.start (Some []) 2 d1 = Ok d2 →
        Client.connection_loop sample_loads sample_size sample_config "uuid-1"
          [served] (Client.initial_locals sample_config) (Control.core d2)
        = Client.mkRun (Control.core d2) (Client.initial_locals sample_config)
            Client.condition_false.
Proof.
  destruct (stop_is_final (λ _, false) id (Client.cleanup "uuid-1") sample_control)
    as (H1 & _ & _ & _ & H2 & _).
  - reflexivity.
  - intros drv H. exact H.
  - intros drv H. exact H.
  - split; [exact H1|]. split; [reflexivity|].
    intros d2 Hd2. destruct (H2 _ _ _ Hd2) as [_ H3]. apply H3.
Defined.

(** [stop] during the first wait of the sample loop: the turns that would
    have followed are not taken. *)
Lemma shutdown_during_wait_ends_loop_witness :
  let run := sample_loop sample_config [stopped_meanwhile; served; served] in
  Client.exit run = Client.stopped_waiting ∧
  Client.shutdown (Client.driver run) = true ∧
  Client.loop_effects "uuid-1" (Client.driver run)
  = Client.loop_effects "uuid-1" (idle_driver sample_config)
    ++ [Client.ws_connect "uuid-1"; Client.wait_for_sleep "uuid-1" 1 30] ∧
  Client.attempts_made "uuid-1" (Client.driver run)
  = S (Client.attempts_made "uuid-1" (idle_driver sample_config)).
Proof.
  apply (shutdown_during_wait_ends_loop sample_loads sample_size sample_config
           "uuid-1" stopped_meanwhile [served; served]
           (Client.initial_locals sample_config) (idle_driver sample_config)).
  - apply undisturbed_id.
  - exact I.
  - intros d. reflexivity.
  - intros d. reflexivity.
  - reflexivity.
  - reflexivity.
Defined.

(** The acknowledgement of [m-1], received by a peer. *)
Lemma acknowledgement_ends_exchange_witness :
  ∃ message_data,
    Client.ack_message "uuid-1" (JStr "m-1") sample_world = JDict message_data ∧
    Client.ack_due message_data = None ∧
    Server.route message_data = Server.ignored ∧
    Api.route message_data = Server.ignored ∧
    ∀ receiver w' drv,
      Client.sent_frames
        (Client._handle_message loads_ack sample_size receiver
           (Client.text "ack") w' drv)
      = Client.sent_frames drv.
Proof.
  apply (acknowledgement_ends_exchange loads_ack sample_size "uuid-1"
           (JStr "m-1") sample_world "ack").
  reflexivity.
Defined.
